(** * Holoware: a shallow embedding of the template engine

    The development follows the Python sources of the engine:
    - [context.py]            fragments, contexts and their rendering;
    - [holoware.py]           spans, templates and the evaluator [Holoware.__call__];
    - [holophore.py]          the evaluator's state carrier;
    - [holoware_handlers.py]  the per-span handlers;
    - [holoware_parser.py]    the parser of the template DSL.

    Python strings are modelled by [string]; a character stands for a code
    point below 256.  Python dictionaries that are only looked up are [gmap]s,
    dictionaries that are iterated are association lists in insertion order. *)

From Stdlib Require Import Ascii ZArith Lia Bool Sorted.
From stdpp Require Import base option list gmap strings.

Set Warnings "-register-all".

Local Open Scope Z_scope.
Local Open Scope nat_scope.

(** ** Python string primitives *)

Module PyStr.

Definition len (s : string) : nat := String.length s.

(** [str.isspace] on one code point below 256. *)
Definition isspace (c : ascii) : bool :=
  let n := nat_of_ascii c in
  ((9 <=? n) && (n <=? 13)) || ((28 <=? n) && (n <=? 32))
  || (n =? 133) || (n =? 160).

(** [str.isupper] on one code point below 256 (category Lu). *)
Definition isupper (c : ascii) : bool :=
  let n := nat_of_ascii c in
  ((65 <=? n) && (n <=? 90)) || ((192 <=? n) && (n <=? 214))
  || ((216 <=? n) && (n <=? 222)).

(** The class [\w] of [re] on one code point below 256. *)
Definition isword (c : ascii) : bool :=
  let n := nat_of_ascii c in
  ((48 <=? n) && (n <=? 57)) || ((65 <=? n) && (n <=? 90))
  || (n =? 95) || ((97 <=? n) && (n <=? 122))
  || (n =? 170) || (n =? 178) || (n =? 179) || (n =? 181)
  || (n =? 185) || (n =? 186) || ((188 <=? n) && (n <=? 190))
  || ((192 <=? n) && (n <=? 214)) || ((216 <=? n) && (n <=? 246))
  || ((248 <=? n) && (n <=? 255)).

Definition nonempty (s : string) : bool :=
  match s with EmptyString => false | String _ _ => true end.

Fixpoint take (n : nat) (s : string) : string :=
  match n, s with
  | S n', String c r => String c (take n' r)
  | _, _ => EmptyString
  end.

Fixpoint drop (n : nat) (s : string) : string :=
  match n, s with
  | S n', String _ r => drop n' r
  | _, _ => s
  end.

(** One bound of a slice [s[a:b]]: negative bounds count from the end,
    and every bound is clamped to the string. *)
Definition clamp (n : nat) (i : Z) : nat :=
  let j := (if i <? 0 then i + Z.of_nat n else i)%Z in
  Z.to_nat (Z.min (Z.max j 0) (Z.of_nat n)).

(** [s[a:b]]; [None] is an omitted bound. *)
Definition slice (s : string) (a b : option Z) : string :=
  let n := len s in
  let lo := match a with Some i => clamp n i | None => 0 end in
  let hi := match b with Some i => clamp n i | None => n end in
  take (hi - lo) (drop lo s).

Fixpoint startswith (s p : string) : bool :=
  match p, s with
  | EmptyString, _ => true
  | String a p', String b s' => if Ascii.eqb a b then startswith s' p' else false
  | String _ _, EmptyString => false
  end.

Definition endswith (s p : string) : bool :=
  (len p <=? len s) && String.eqb (drop (len s - len p) s) p.

(** [sub in s] *)
Fixpoint contains (s sub : string) : bool :=
  startswith s sub
  || match s with
     | EmptyString => false
     | String _ r => contains r sub
     end.

(** [s.find(sub, pos)], with Python's [-1] for absence. *)
Fixpoint find_from (s sub : string) (pos : nat) : option nat :=
  if startswith s sub then Some pos
  else match s with
       | EmptyString => None
       | String _ r => find_from r sub (S pos)
       end.

Definition find (s sub : string) (pos : nat) : Z :=
  match find_from (drop pos s) sub pos with
  | Some i => Z.of_nat i
  | None => (-1)%Z
  end.

Fixpoint lstrip (s : string) : string :=
  match s with
  | EmptyString => EmptyString
  | String c r => if isspace c then lstrip r else s
  end.

Fixpoint rstrip (s : string) : string :=
  match s with
  | EmptyString => EmptyString
  | String c r =>
      match rstrip r with
      | EmptyString => if isspace c then EmptyString else String c EmptyString
      | r' => String c r'
      end
  end.

Definition strip (s : string) : string := lstrip (rstrip s).

(** [s.lstrip(ch)] and [s.rstrip(ch)] for a one-character argument. *)
Fixpoint lstrip_char (ch : ascii) (s : string) : string :=
  match s with
  | EmptyString => EmptyString
  | String c r => if Ascii.eqb c ch then lstrip_char ch r else s
  end.

Fixpoint rstrip_char (ch : ascii) (s : string) : string :=
  match s with
  | EmptyString => EmptyString
  | String c r =>
      match rstrip_char ch r with
      | EmptyString => if Ascii.eqb c ch then EmptyString else String c EmptyString
      | r' => String c r'
      end
  end.

(** [s.replace(old, new)] for a non-empty [old]: the occurrences are
    replaced from left to right and do not overlap.  [skip] counts the
    characters of an occurrence that are still to be passed over. *)
Fixpoint replace_go (old new : string) (skip : nat) (s : string) : string :=
  match s with
  | EmptyString => EmptyString
  | String c r =>
      match skip with
      | S k => replace_go old new k r
      | O =>
          if startswith s old
          then new +:+ replace_go old new (len old - 1) r
          else String c (replace_go old new 0 r)
      end
  end.

Definition replace (s old new : string) : string := replace_go old new 0 s.

(** [sep.join(l)] *)
Fixpoint join (sep : string) (l : list string) : string :=
  match l with
  | [] => EmptyString
  | [x] => x
  | x :: r => x +:+ sep +:+ join sep r
  end.

(** [s.split(ch)] for a one-character separator: never empty. *)
Fixpoint split (ch : ascii) (s : string) : list string :=
  match s with
  | EmptyString => [EmptyString]
  | String c r =>
      if Ascii.eqb c ch then EmptyString :: split ch r
      else match split ch r with
           | x :: l => String c x :: l
           | [] => [String c EmptyString]
           end
  end.

(** [s.split(ch, 1)]: at most one cut, at the first [ch]. *)
Fixpoint split1 (ch : ascii) (s : string) : string * option string :=
  match s with
  | EmptyString => (EmptyString, None)
  | String c r =>
      if Ascii.eqb c ch then (EmptyString, Some r)
      else let '(a, b) := split1 ch r in (String c a, b)
  end.

Fixpoint repeat_char (ch : ascii) (n : nat) : string :=
  match n with
  | O => EmptyString
  | S k => String ch (repeat_char ch k)
  end.

Definition nl : string := String "010"%char EmptyString.

End PyStr.

(** ** context.py *)

Module Context.

(** [class FragType(Enum)] *)
Inductive FragType : Type :=
| FROZEN
| REINFORCE.

(** [@dataclass class Frag] *)
Record Frag : Type := mkFrag {
  text : string;
  ego : option string;
  type : FragType;
}.

(** [class FragList(list[Frag])] *)
Definition FragList : Type := list Frag.

(** [FragList.string] *)
Fixpoint string_of (l : FragList) : string :=
  match l with
  | [] => EmptyString
  | f :: r => text f +:+ string_of r
  end.

(** One entry of an [APIChat]: [{"role": ..., "content": ...}]. *)
Record Message : Type := mkMessage {
  role : string;
  content : string;
}.

(** [_normalize_role], local to [to_api_messages] and to [to_api_string]. *)
Definition _normalize_role (raw : option string) (is_first : bool) : string :=
  match raw with
  | Some r =>
      if String.eqb r "system" || String.eqb r "user" || String.eqb r "assistant"
      then r else "user"
  | None => if is_first then "system" else "user"
  end.

(** The state of the loop of [to_api_messages]. *)
Record Acc : Type := mkAcc {
  messages : list Message;
  texts : list string;
  current_role : option string;
}.

Definition concat_texts (l : list string) : string := PyStr.join "" l.

(** One iteration of [for i, frag in enumerate(self.fragments)]. *)
Definition step (render_dry : bool) (i : nat) (frag : Frag) (a : Acc) : Acc :=
  let normalized_role := _normalize_role (ego frag) (Nat.eqb i 0) in
  match current_role a with
  | None =>
      mkAcc (messages a) [text frag] (Some normalized_role)
  | Some cur =>
      if String.eqb normalized_role cur
      then mkAcc (messages a) (texts a ++ [text frag]) (Some cur)
      else
        let s := concat_texts (texts a) in
        let msgs :=
          if PyStr.nonempty s || render_dry
          then messages a ++ [mkMessage cur (PyStr.strip s)]
          else messages a in
        mkAcc msgs [text frag] (Some normalized_role)
  end.

Fixpoint loop (render_dry : bool) (i : nat) (frags : FragList) (a : Acc) : Acc :=
  match frags with
  | [] => a
  | frag :: rest => loop render_dry (S i) rest (step render_dry i frag a)
  end.

(** The tail flush after the loop. *)
Definition flush (render_dry : bool) (a : Acc) : list Message :=
  match current_role a with
  | Some cur =>
      let s := concat_texts (texts a) in
      if PyStr.nonempty s || render_dry
      then messages a ++ [mkMessage cur s]
      else messages a
  | None => messages a
  end.

(** [Context.to_api_messages(render_dry)] *)
Definition to_api_messages (fragments : FragList) (render_dry : bool) : list Message :=
  flush render_dry (loop render_dry 0 fragments (mkAcc [] [] None)).

Definition block (m : Message) : string :=
  "<|im_start|>" +:+ role m +:+ PyStr.nl +:+ content m +:+ PyStr.nl +:+ "<|im_end|>".

(** [Context.to_api_string()] *)
Definition to_api_string (fragments : FragList) : string :=
  let messages := to_api_messages fragments false in
  let blocks := map block messages in
  let closed := PyStr.join PyStr.nl blocks in
  match last fragments with
  | Some f =>
      let last_idx := length fragments - 1 in
      let last_norm := _normalize_role (ego f) (Nat.eqb last_idx 0) in
      if String.eqb last_norm "assistant" && negb (PyStr.nonempty (text f))
      then
        let suffix := "<|im_start|>assistant" in
        match blocks with
        | [] => suffix
        | _ => PyStr.join PyStr.nl (blocks ++ [suffix])
        end
      else closed
  | None => closed
  end.

End Context.

Import Context.

(** ** The reading of the renderer's contract

  The fragments of a context fall into maximal runs of equal normalized
  role; a run is rendered as one message. *)

Module ContextSpec.

(** The normalized role and the text of every fragment, from index [i]. *)
Fixpoint roles_from (i : nat) (frags : FragList) : list (string * string) :=
  match frags with
  | [] => []
  | f :: rest => (_normalize_role (ego f) (Nat.eqb i 0), text f) :: roles_from (S i) rest
  end.

(** Maximal runs of consecutive fragments of one normalized role. *)
Fixpoint group_by_role (l : list (string * string)) : list (string * list string) :=
  match l with
  | [] => []
  | (r, t) :: rest =>
      match group_by_role rest with
      | (r', ts) :: gs =>
          if String.eqb r r' then (r, t :: ts) :: gs else (r, [t]) :: (r', ts) :: gs
      | [] => [(r, [t])]
      end
  end.

Definition groups (frags : FragList) : list (string * list string) :=
  group_by_role (roles_from 0 frags).

(** The message of a run that is closed by a role change: stripped. *)
Definition closed_message (render_dry : bool) (g : string * list string) : list Message :=
  let s := concat_texts (snd g) in
  if PyStr.nonempty s || render_dry then [mkMessage (fst g) (PyStr.strip s)] else [].

(** The message of the last run, flushed at the end: not stripped. *)
Definition tail_message (render_dry : bool) (g : string * list string) : list Message :=
  let s := concat_texts (snd g) in
  if PyStr.nonempty s || render_dry then [mkMessage (fst g) s] else [].

Fixpoint render (render_dry : bool) (gs : list (string * list string)) : list Message :=
  match gs with
  | [] => []
  | [g] => tail_message render_dry g
  | g :: rest => closed_message render_dry g ++ render render_dry rest
  end.

(** The messages of all runs but the last. *)
Definition closed_part (render_dry : bool) (gs : list (string * list string)) : list Message :=
  flat_map (closed_message render_dry) (removelast gs).

Definition tail_part (render_dry : bool) (gs : list (string * list string)) : list Message :=
  match last gs with
  | Some g => tail_message render_dry g
  | None => []
  end.

(** The condition of the open assistant tail of [to_api_string]: the last
    raw fragment normalizes to "assistant" and has an empty text. *)
Definition open_tail_cue (fragments : FragList) : bool :=
  match last fragments with
  | Some f =>
      String.eqb (_normalize_role (ego f) (Nat.eqb (length fragments - 1) 0)) "assistant"
      && negb (PyStr.nonempty (text f))
  | None => false
  end.

Definition open_tail : string := "<|im_start|>assistant".

(** The messages without the closed message of a final assistant turn. *)
Definition without_final_assistant (msgs : list Message) : list Message :=
  match last msgs with
  | Some m => if String.eqb (role m) "assistant" then removelast msgs else msgs
  | None => msgs
  end.

(** The completion string in which the open tail takes the place of the
    closed block of the final assistant turn. *)
Definition to_api_string_replacing (fragments : FragList) : string :=
  PyStr.join PyStr.nl
    (map block (without_final_assistant (to_api_messages fragments false)) ++ [open_tail]).

(** The completion string in which the open tail follows every closed block. *)
Definition to_api_string_appending (fragments : FragList) : string :=
  PyStr.join PyStr.nl (map block (to_api_messages fragments false) ++ [open_tail]).

End ContextSpec.

(** ** holoware.py: spans and templates *)

Module Holoware.

(** The exceptions the engine raises; [OutOfFuel] is no exception of
    Python: it marks a loop of the model that was cut short. *)
Inductive PyExc : Type :=
| Exception (msg : string)
| RuntimeError (msg : string)
| ValueError (msg : string)
| TypeError (msg : string)
| AttributeError (msg : string)
| KeyError
| AssertionError
| OutOfFuel.

Inductive result (A : Type) : Type :=
| Ok (a : A)
| Raise (e : PyExc).
Arguments Ok {A} a.
Arguments Raise {A} e.

#[global] Instance result_bind : MBind result := fun A B f r =>
  match r with
  | Ok a => f a
  | Raise e => Raise e
  end.

(** The machine identifier of a span: a fresh [uuid.uuid4()], numbered by the
    order of creation, or the string the parser puts in its place. *)
Inductive Uuid : Type :=
| Uuid4 (n : nat)
| UuidStr (s : string).

Definition Uuid_eqb (a b : Uuid) : bool :=
  match a, b with
  | Uuid4 n, Uuid4 m => Nat.eqb n m
  | UuidStr s, UuidStr t => String.eqb s t
  | _, _ => false
  end.

(** The fields of [class Span(ABC)]. *)
Record SpanBase : Type := mkBase {
  uuid : Uuid;
  id : string;
  kargs : list string;
  kwargs : gmap string string;
}.

(** The span classes; the body of a [ClassSpan] is the span list of its
    nested [Holoware]. *)
Inductive Span : Type :=
| ContextResetSpan (base : SpanBase) (train : bool)
| EgoSpan (base : SpanBase) (ego : string)
| SampleSpan (base : SpanBase) (fence : string)
| TextSpan (base : SpanBase) (text : string)
| ObjSpan (base : SpanBase) (var_ids : list string)
| ClassSpan (base : SpanBase) (class_name : string) (body : option (list Span)).

Definition span_base (s : Span) : SpanBase :=
  match s with
  | ContextResetSpan b _ | EgoSpan b _ | SampleSpan b _
  | TextSpan b _ | ObjSpan b _ | ClassSpan b _ _ => b
  end.

Definition span_uuid (s : Span) : Uuid := uuid (span_base s).
Definition span_id (s : Span) : string := id (span_base s).

(** [@dataclass class Holoware]: the span list; name, code and file path
    are metadata the engine does not read. *)
Definition Holoware : Type := list Span.

(** [Holoware.trained_contexts] *)
Fixpoint trained_contexts_loop (i : nat) (spans : list Span) (current : nat) : list nat :=
  match spans with
  | [] => []
  | ContextResetSpan _ train :: rest =>
      let current := if 0 <? i then current + 1 else current in
      (if train then [current] else []) ++ trained_contexts_loop (S i) rest current
  | _ :: rest => trained_contexts_loop (S i) rest current
  end.

Definition trained_contexts (self : Holoware) : list nat :=
  trained_contexts_loop 0 self 0.

(** [tag_pattern = re.compile(r"<(\w+)[^>]*>.*?</\1>|<obj\s+id=.*?>", re.DOTALL)] *)

Fixpoint word_run (s : string) : nat :=
  match s with
  | String c r => if PyStr.isword c then S (word_run r) else 0
  | EmptyString => 0
  end.

(** The first alternative at the head of [s]: the group is a non-empty
    prefix of the word run after the bracket, the next closing bracket
    ends the opening tag, and the matching closing tag comes anywhere
    after it. *)
Definition match_tag_block (s : string) : bool :=
  match s with
  | String "<"%char r =>
      match PyStr.find_from r ">" 0 with
      | Some q =>
          existsb (fun k => PyStr.contains (PyStr.drop (S q) r) ("</" +:+ PyStr.take k r +:+ ">"))
                  (seq 1 (word_run r))
      | None => false
      end
  | _ => false
  end.

(** The second alternative at the head of [s]. *)
Definition match_obj_open (s : string) : bool :=
  PyStr.startswith s "<obj"
  && (let r := PyStr.drop 4 s in
      let r' := PyStr.lstrip r in
      (PyStr.len r' <? PyStr.len r)
      && PyStr.startswith r' "id="
      && PyStr.contains (PyStr.drop 3 r') ">").

(** [tag_pattern.search(s)], as a truth value. *)
Fixpoint tag_pattern_search (s : string) : bool :=
  match_tag_block s || match_obj_open s
  || match s with
     | String _ r => tag_pattern_search r
     | EmptyString => false
     end.

End Holoware.

Import Holoware.

(** ** User classes and the environment *)

Module Env.

(** What the engine sees of a bound object (an instance, or a holostatic
    class): the lifecycle hooks it defines.  A hook is taken to be a
    function of the span it is called on; [None] is a hook that is not
    defined, and a hook returning [None] returns Python's [None]. *)
Inductive HoloObj : Type := mkObj {
  holo_init_hook : option (Span -> option HoloObj);
  holo_hook : option (Span -> option string);
  holo_end_hook : bool;
}.

(** What the engine sees of a class found in [env] or in the registry. *)
Record HoloClass : Type := mkClass {
  cls_str : string;
  _is_holostatic : bool;
  cls_object : HoloObj;
  sig_parameters : list string;
  sig_var_keyword : bool;
  construct : list string -> gmap string string -> result HoloObj;
}.

(** The values of [env]: strings, and classes. *)
Inductive PyVal : Type :=
| VStr (s : string)
| VClass (c : HoloClass).

(** [str(value)] *)
Definition str (v : PyVal) : string :=
  match v with
  | VStr s => s
  | VClass c => cls_str c
  end.

(** The truth value of [value]. *)
Definition truthy (v : PyVal) : bool :=
  match v with
  | VStr s => PyStr.nonempty s
  | VClass _ => true
  end.

End Env.

Import Env.

(** ** holophore.py *)

Module Holophore.

(** Modelled from the spec: the rollout of [errloom.tapestry] is an ordered
    list of contexts; [new_context()] opens a new last context and
    [add_frag(role, mask, text)] appends to the active (last) context,
    opening one when there is none. A context is its fragment list. *)
Definition Rollout : Type := list FragList.

(** A fragment object shared between a context and [span_fragments]: the
    index of its context and its index in the context. *)
Definition FragRef : Type := (nat * nat)%type.

Definition rollout_new_context (r : Rollout) : Rollout := r ++ [[]].

Definition rollout_add_frag (r : Rollout) (ego : option string) (type : FragType)
    (text : string) : Rollout * FragRef :=
  match last r with
  | Some ctx =>
      let ci := length r - 1 in
      (alter (fun c => c ++ [mkFrag text ego type]) ci r, (ci, length ctx))
  | None => ([[mkFrag text ego type]], (0, 0))
  end.

Definition get_frag (r : Rollout) (ref : FragRef) : option Frag :=
  match r !! ref.1 with
  | Some ctx => ctx !! ref.2
  | None => None
  end.

(** [frag.text = t] on the shared fragment. *)
Definition set_text (r : Rollout) (ref : FragRef) (t : string) : Rollout :=
  alter (alter (fun f => mkFrag t (ego f) (type f)) ref.2) ref.1 r.

(** [FragList.string] of a list of shared fragments. *)
Definition refs_string (r : Rollout) (refs : list FragRef) : string :=
  string_of (omap (get_frag r) refs).

(** A dictionary keyed by span uuid, in insertion order. *)
Fixpoint dict_get {V : Type} (d : list (Uuid * V)) (k : Uuid) : option V :=
  match d with
  | [] => None
  | (k', v) :: rest => if Uuid_eqb k' k then Some v else dict_get rest k
  end.

Fixpoint dict_set {V : Type} (d : list (Uuid * V)) (k : Uuid) (v : V) : list (Uuid * V) :=
  match d with
  | [] => [(k, v)]
  | (k', v') :: rest =>
      if Uuid_eqb k' k then (k', v) :: rest else (k', v') :: dict_set rest k v
  end.

(** [class Holophore]; the sampler of the loom is a parameter of the
    handlers. *)
Record Holophore : Type := mkHolophore {
  _rollout : Rollout;
  env : gmap string PyVal;
  span_bindings : list (Uuid * HoloObj);
  span_fragments : list (Uuid * list FragRef);
  _holowares : list Holoware;
  _span : option Span;
  _ego : string;
  errors : nat;
}.

(** [Holophore.__init__(loom, rollout, env)] *)
Definition init (rollout : Rollout) (env : gmap string PyVal) : Holophore :=
  mkHolophore rollout env [] [] [] None "system" 0.

Definition set_rollout (h : Holophore) (r : Rollout) : Holophore :=
  mkHolophore r (env h) (span_bindings h) (span_fragments h) (_holowares h) (_span h)
    (_ego h) (errors h).

Definition set_env (h : Holophore) (e : gmap string PyVal) : Holophore :=
  mkHolophore (_rollout h) e (span_bindings h) (span_fragments h) (_holowares h) (_span h)
    (_ego h) (errors h).

Definition set_span_bindings (h : Holophore) (b : list (Uuid * HoloObj)) : Holophore :=
  mkHolophore (_rollout h) (env h) b (span_fragments h) (_holowares h) (_span h)
    (_ego h) (errors h).

Definition set_span_fragments (h : Holophore) (f : list (Uuid * list FragRef)) : Holophore :=
  mkHolophore (_rollout h) (env h) (span_bindings h) f (_holowares h) (_span h)
    (_ego h) (errors h).

Definition set_holowares (h : Holophore) (w : list Holoware) : Holophore :=
  mkHolophore (_rollout h) (env h) (span_bindings h) (span_fragments h) w (_span h)
    (_ego h) (errors h).

Definition set_span (h : Holophore) (s : option Span) : Holophore :=
  mkHolophore (_rollout h) (env h) (span_bindings h) (span_fragments h) (_holowares h) s
    (_ego h) (errors h).

Definition set_ego (h : Holophore) (e : string) : Holophore :=
  mkHolophore (_rollout h) (env h) (span_bindings h) (span_fragments h) (_holowares h)
    (_span h) e (errors h).

(** [Holophore.get_class]; [registry] is [errloom.lib.discovery.get_class]. *)
Definition get_class (registry : string -> option HoloClass) (h : Holophore)
    (classname : string) : option PyVal :=
  match env h !! classname with
  | Some v => if truthy v then Some v else VClass <$> registry classname
  | None => VClass <$> registry classname
  end.

(** [Holophore.find_span] *)
Definition find_span (h : Holophore) (uid : Uuid) : result Span :=
  match find (fun s => Uuid_eqb (span_uuid s) uid) (concat (_holowares h)) with
  | Some s => Ok s
  | None => Raise (ValueError "Span not found with uid")
  end.

(** [Holophore.new_context] *)
Definition new_context (h : Holophore) : Holophore :=
  set_rollout h (rollout_new_context (_rollout h)).

(** [Holophore.add_frag] *)
Definition add_frag (h : Holophore) (type : FragType) (text : string) : Holophore :=
  let '(r, frag) := rollout_add_frag (_rollout h) (Some (_ego h)) type text in
  let h := set_rollout h r in
  match _span h with
  | Some span =>
      let l := default [] (dict_get (span_fragments h) (span_uuid span)) in
      set_span_fragments h (dict_set (span_fragments h) (span_uuid span) (l ++ [frag]))
  | None => h
  end.

(** [Holophore.add_reinforced] *)
Definition add_reinforced (h : Holophore) (content : string) : Holophore :=
  add_frag h REINFORCE content.

(** [Holophore.add_masked] *)
Definition add_masked (h : Holophore) (content : string) : Holophore :=
  add_frag h FROZEN content.

(** [_filter_kwargs] of [Holophore.invoke], for a constructor. *)
Definition _filter_kwargs (c : HoloClass) (passed_kwargs : gmap string string)
    : gmap string string :=
  if sig_var_keyword c then passed_kwargs
  else filter (fun kv => bool_decide (kv.1 ∈ sig_parameters c)) passed_kwargs.

(** [Holophore.invoke(target, '__init__', args, kwargs, optional=False)] *)
Definition invoke_init (target : PyVal) (args : list string) (kwargs : gmap string string)
    : result HoloObj :=
  match target with
  | VClass c => construct c args (_filter_kwargs c kwargs)
  | VStr _ => Raise (TypeError "Target for __init__ must be a class")
  end.

(** [Holophore.invoke__holo__]: the result of the hook, or [""]. *)
Definition invoke__holo__ (h : Holophore) (span : Span) : result string :=
  match dict_get (span_bindings h) (span_uuid span) with
  | Some obj =>
      match holo_hook obj with
      | Some f => Ok (default "" (f span))
      | None => Raise (AttributeError "No __holo__ method found in MRO")
      end
  | None => Raise AssertionError
  end.

End Holophore.

Import Holophore.

(** ** holoware_handlers.py *)

Module SpanHandler.

Section WithLoom.

(** [loom.sample(rollout, stop_sequences)]: the external sampler; [None] is
    Python's [None]. *)
Variable sample : Rollout -> list string -> option string.

(** [errloom.lib.discovery.get_class] *)
Variable registry : string -> option HoloClass.

(** [SpanHandler.TextSpan] *)
Definition handle_TextSpan (holophore : Holophore) (text : string) : Holophore :=
  add_masked holophore text.

(** The body of the loop of [SpanHandler.ObjSpan]. *)
Definition handle_ObjSpan_step (holophore : Holophore) (var_id : string) : Holophore :=
  match env holophore !! var_id with
  | Some value =>
      let holophore := add_masked holophore ("<obj id=" +:+ var_id +:+ ">") in
      let holophore := add_masked holophore (str value) in
      let holophore := add_masked holophore "</obj>" in
      add_masked holophore PyStr.nl
  | None => holophore
  end.

(** [SpanHandler.ObjSpan] *)
Definition handle_ObjSpan (holophore : Holophore) (var_ids : list string) : Holophore :=
  fold_left handle_ObjSpan_step var_ids holophore.

(** The payload a [SampleSpan] with an id binds into [env], before it is
    stripped. *)
Definition sample_payload (fence sample : string) : string :=
  let payload := sample in
  if PyStr.nonempty fence then
    let open_tag := "<" +:+ fence +:+ ">" in
    let close_tag := "</" +:+ fence +:+ ">" in
    if PyStr.startswith payload open_tag && PyStr.endswith payload close_tag
    then PyStr.slice payload (Some (Z.of_nat (PyStr.len open_tag)))
                             (Some (- Z.of_nat (PyStr.len close_tag))%Z)
    else
      let payload :=
        if PyStr.endswith payload close_tag
        then PyStr.slice payload None (Some (- Z.of_nat (PyStr.len close_tag))%Z)
        else payload in
      if PyStr.startswith payload open_tag
      then PyStr.slice payload (Some (Z.of_nat (PyStr.len open_tag))) None
      else payload
  else payload.

(** [SpanHandler.SampleSpan] *)
Definition handle_SampleSpan (holophore : Holophore) (base : SpanBase) (fence : string)
    : Holophore :=
  let holophore :=
    if PyStr.nonempty fence then add_masked holophore ("<" +:+ fence +:+ ">")
    else holophore in
  let stop_sequences := if PyStr.nonempty fence then ["</" +:+ fence +:+ ">"] else [] in
  match sample (_rollout holophore) stop_sequences with
  | None => holophore
  | Some sample =>
      if negb (PyStr.nonempty sample) then holophore
      else
        let text :=
          if PyStr.nonempty fence then
            let closing_tag := "</" +:+ fence +:+ ">" in
            if PyStr.endswith sample closing_tag then sample else sample +:+ closing_tag
          else sample in
        let holophore := add_reinforced holophore text in
        if PyStr.nonempty (id base)
        then set_env holophore
               (<[id base := VStr (PyStr.strip (sample_payload fence sample))]> (env holophore))
        else holophore
  end.

(** [SpanHandler.ContextResetSpan] *)
Definition handle_ContextResetSpan (holophore : Holophore) : Holophore :=
  set_ego (new_context holophore) "system".

(** [SpanHandler.EgoSpan] *)
Definition handle_EgoSpan (holophore : Holophore) (ego : string) : Holophore :=
  set_ego holophore ego.

(** [SpanHandler.ClassSpan]; [call] is [Holoware.__call__], for the body. *)
Definition handle_ClassSpan (call : Holoware -> Holophore -> result Holophore)
    (holophore : Holophore) (span : Span) (class_name : string) (body : option Holoware)
    : result Holophore :=
  match get_class registry holophore class_name with
  | None => Raise (Exception "Class not found in environment or registry.")
  | Some _ =>
      match dict_get (span_bindings holophore) (span_uuid span) with
      | None => Raise KeyError
      | Some obj =>
          if bool_decide (is_Some (holo_hook obj)) then
            (insertion ← invoke__holo__ holophore span;
             if PyStr.nonempty insertion then Ok (add_masked holophore insertion)
             else Ok holophore)
          else
            match body with
            | Some body => call body holophore
            | None => Raise (Exception "Nothing to be done for span.")
            end
      end
  end.

(** ** holoware.py: [Holoware.__call__] *)

(** Phase 1, for one span. *)
Definition instantiate (holophore : Holophore) (span : Span) : result Holophore :=
  match span with
  | ClassSpan base classname _ =>
      match get_class registry holophore classname with
      | None => Raise (Exception "Class not found in environment or registry.")
      | Some Cls =>
          let holostatic := match Cls with VClass c => _is_holostatic c | VStr _ => false end in
          if holostatic then
            match Cls with
            | VClass c =>
                Ok (set_span_bindings holophore
                      (dict_set (span_bindings holophore) (uuid base) (cls_object c)))
            | VStr _ => Raise AssertionError
            end
          else
            inst ← invoke_init Cls (kargs base) (kwargs base);
            let holophore :=
              set_span_bindings holophore (dict_set (span_bindings holophore) (uuid base) inst) in
            let inst' :=
              match holo_init_hook inst with
              | Some f => f span
              | None => None
              end in
            match inst' with
            | Some inst' =>
                Ok (set_span_bindings holophore
                      (dict_set (span_bindings holophore) (uuid base) inst'))
            | None => Ok holophore
            end
      end
  | _ => Ok holophore
  end.

Fixpoint instantiate_all (holophore : Holophore) (spans : list Span) : result Holophore :=
  match spans with
  | [] => Ok holophore
  | span :: rest =>
      holophore ← instantiate holophore span;
      instantiate_all holophore rest
  end.

(** [count_tail] and [count_head] of [optimize_block]: both strip on the right. *)
Definition count_tail (s : string) : nat :=
  PyStr.len s - PyStr.len (PyStr.rstrip_char "010"%char s).

Definition count_head (s : string) : nat :=
  PyStr.len s - PyStr.len (PyStr.rstrip_char "010"%char s).

(** [f[0].text = '\n' + f[0].text], [n] times. *)
Fixpoint prepend_newlines (n : nat) (r : Rollout) (ref : FragRef) : Rollout :=
  match n with
  | O => r
  | S k =>
      let r :=
        match get_frag r ref with
        | Some f => set_text r ref (PyStr.nl +:+ text f)
        | None => r
        end in
      prepend_newlines k r ref
  end.

(** [f[-1].text = f[-1].text + '\n'], [n] times. *)
Fixpoint append_newlines (n : nat) (r : Rollout) (ref : FragRef) : Rollout :=
  match n with
  | O => r
  | S k =>
      let r :=
        match get_frag r ref with
        | Some f => set_text r ref (text f +:+ PyStr.nl)
        | None => r
        end in
      append_newlines k r ref
  end.

Definition fragments_of (holophore : Holophore) (self : Holoware) (i : nat) : list FragRef :=
  match self !! i with
  | Some span => default [] (dict_get (span_fragments holophore) (span_uuid span))
  | None => []
  end.

(** [optimize_block(i)], local to [__call__]. *)
Definition optimize_block (self : Holoware) (i : Z) (holophore : Holophore) : Holophore :=
  if (i <? 2)%Z then holophore
  else
    let n := Z.to_nat i in
    let f1 := fragments_of holophore self (n - 2) in
    let f2 := fragments_of holophore self (n - 1) in
    let f3 := fragments_of holophore self n in
    let s1 := PyStr.strip (refs_string (_rollout holophore) f1) in
    let s2 := PyStr.strip (refs_string (_rollout holophore) f2) in
    let s3 := PyStr.strip (refs_string (_rollout holophore) f3) in
    let lc := count_tail s1 + count_head s2 in
    let rc := count_tail s2 + count_head s3 in
    if tag_pattern_search s2 then
      match head f2, last f2 with
      | Some first, Some final =>
          let r := prepend_newlines (3 - lc) (_rollout holophore) first in
          let r := append_newlines (3 - rc) r final in
          set_rollout holophore r
      | _, _ => holophore
      end
    else holophore.

(** Phase 3: the end hooks, then the listing of the fragments; both look
    every uid up with [find_span]. *)
Fixpoint end_hooks (holophore : Holophore) (bindings : list (Uuid * HoloObj)) : result unit :=
  match bindings with
  | [] => Ok tt
  | (uid, target) :: rest =>
      if holo_end_hook target then
        (_ ← find_span holophore uid;
         end_hooks holophore rest)
      else end_hooks holophore rest
  end.

Fixpoint list_fragments (holophore : Holophore) (frags : list (Uuid * list FragRef))
    : result unit :=
  match frags with
  | [] => Ok tt
  | (uid, _) :: rest =>
      _ ← find_span holophore uid;
      list_fragments holophore rest
  end.

(** Equality of spans and of templates, as the dataclasses define it. *)
Fixpoint Span_eqb (a b : Span) {struct a} : bool :=
  let base_eqb (x y : SpanBase) :=
    Uuid_eqb (uuid x) (uuid y) && String.eqb (id x) (id y)
    && bool_decide (kargs x = kargs y) && bool_decide (kwargs x = kwargs y) in
  match a, b with
  | ContextResetSpan x t, ContextResetSpan y u => base_eqb x y && Bool.eqb t u
  | EgoSpan x e, EgoSpan y f => base_eqb x y && String.eqb e f
  | SampleSpan x e, SampleSpan y f => base_eqb x y && String.eqb e f
  | TextSpan x e, TextSpan y f => base_eqb x y && String.eqb e f
  | ObjSpan x v, ObjSpan y w => base_eqb x y && bool_decide (v = w)
  | ClassSpan x n bx, ClassSpan y m by_ =>
      base_eqb x y && String.eqb n m
      && match bx, by_ with
         | Some l, Some l' =>
             (fix all2 (l l' : list Span) {struct l} : bool :=
                match l, l' with
                | [], [] => true
                | s :: r, s' :: r' => Span_eqb s s' && all2 r r'
                | _, _ => false
                end) l l'
         | None, None => true
         | _, _ => false
         end
  | _, _ => false
  end.

Fixpoint Holoware_eqb (a b : Holoware) : bool :=
  match a, b with
  | [], [] => true
  | s :: r, s' :: r' => Span_eqb s s' && Holoware_eqb r r'
  | _, _ => false
  end.

(** [list.remove(x)]: the first element equal to [x] goes. *)
Fixpoint list_remove (x : Holoware) (l : list Holoware) : result (list Holoware) :=
  match l with
  | [] => Raise (ValueError "list.remove(x): x not in list")
  | y :: rest =>
      if Holoware_eqb y x then Ok rest
      else rest' ← list_remove x rest; Ok (y :: rest')
  end.

(** [Holoware.__call__], over the handler of one span. *)

Section CallWith.

Variable handle : Holophore -> Span -> result Holophore.

(** Phase 2: [for i, span in enumerate(self.spans)]. *)
Fixpoint main_walk (self : Holoware) (i : nat) (spans : list Span) (holophore : Holophore)
    {struct spans} : result Holophore :=
  match spans with
  | [] => Ok holophore
  | span :: rest =>
      let holophore := set_span holophore (Some span) in
      holophore ← handle holophore span;
      main_walk self (S i) rest (optimize_block self (Z.of_nat i - 1) holophore)
  end.

(** After the main walk: the check of [errors], phase 3, and the return. *)
Definition finish (self : Holoware) (holophore : Holophore) : result Holophore :=
  let holophore := set_span holophore None in
  if 0 <? errors holophore then Raise (RuntimeError "Failed to instantiate classes.")
  else
    _ ← end_hooks holophore (span_bindings holophore);
    _ ← list_fragments holophore (span_fragments holophore);
    wares ← list_remove self (_holowares holophore);
    Ok (set_holowares holophore wares).

Definition call_with (self : Holoware) (holophore : Holophore) : result Holophore :=
  let holophore := set_holowares holophore (_holowares holophore ++ [self]) in
  holophore ← instantiate_all holophore self;
  holophore ← main_walk self 0 self holophore;
  finish self holophore.

End CallWith.

(** [SpanHandler.handle] *)
Fixpoint handle (holophore : Holophore) (span : Span) {struct span} : result Holophore :=
  match span with
  | TextSpan _ text => Ok (handle_TextSpan holophore text)
  | ObjSpan _ var_ids => Ok (handle_ObjSpan holophore var_ids)
  | SampleSpan base fence => Ok (handle_SampleSpan holophore base fence)
  | ContextResetSpan _ _ => Ok (handle_ContextResetSpan holophore)
  | EgoSpan _ ego => Ok (handle_EgoSpan holophore ego)
  | ClassSpan _ class_name body =>
      handle_ClassSpan (call_with handle) holophore span class_name body
  end.

(** [Holoware.__call__] *)
Definition call (self : Holoware) (holophore : Holophore) : result Holophore :=
  call_with handle self holophore.

End WithLoom.

End SpanHandler.

Import SpanHandler.

(** ** holoware_parser.py *)

Module Parser.

Import PyStr.

Definition bslash : ascii := "\"%char.
Definition dquote : ascii := "034"%char.
Definition squote : ascii := "039"%char.

(** [filter_comments] *)
Definition filter_comments (content : string) : string :=
  let lines := split "010" content in
  join nl (List.filter (fun line => negb (startswith (strip line) "#")) lines).

(** *** [shlex.split(tag)]: POSIX rules, whitespace splitting, no comments *)

Inductive ShState : Type :=
| ShSpace
| ShWord
| ShQuote (q : ascii)
| ShEscape (escapedstate : option ascii).

Definition sh_whitespace (c : ascii) : bool :=
  Ascii.eqb c " " || Ascii.eqb c "009" || Ascii.eqb c "013" || Ascii.eqb c "010".

Definition sh_quote (c : ascii) : bool := Ascii.eqb c squote || Ascii.eqb c dquote.

Definition snoc (s : string) (c : ascii) : string := s +:+ String c EmptyString.

(** The token reader of [shlex], run over the whole input: [token] is the
    token in progress and [quoted] tells whether it met a quote. *)
Fixpoint shlex_go (s : string) (state : ShState) (token : string) (quoted : bool)
    : result (list string) :=
  match s with
  | EmptyString =>
      match state with
      | ShSpace => Ok []
      | ShWord => Ok (if nonempty token || quoted then [token] else [])
      | ShQuote _ => Raise (ValueError "No closing quotation")
      | ShEscape _ => Raise (ValueError "No escaped character")
      end
  | String c r =>
      match state with
      | ShSpace =>
          if sh_whitespace c then shlex_go r ShSpace EmptyString false
          else if Ascii.eqb c bslash then shlex_go r (ShEscape None) EmptyString false
          else if sh_quote c then shlex_go r (ShQuote c) EmptyString true
          else shlex_go r ShWord (String c EmptyString) false
      | ShQuote q =>
          if Ascii.eqb c q then shlex_go r ShWord token true
          else if Ascii.eqb c bslash && Ascii.eqb q dquote
               then shlex_go r (ShEscape (Some q)) token true
               else shlex_go r (ShQuote q) (snoc token c) true
      | ShEscape escapedstate =>
          match escapedstate with
          | Some q =>
              let token :=
                if negb (Ascii.eqb c bslash) && negb (Ascii.eqb c q)
                then snoc token bslash else token in
              shlex_go r (ShQuote q) (snoc token c) quoted
          | None => shlex_go r ShWord (snoc token c) quoted
          end
      | ShWord =>
          if sh_whitespace c then
            if nonempty token || quoted
            then rest ← shlex_go r ShSpace EmptyString false; Ok (token :: rest)
            else shlex_go r ShSpace EmptyString false
          else if sh_quote c then shlex_go r (ShQuote c) token true
          else if Ascii.eqb c bslash then shlex_go r (ShEscape None) token quoted
          else shlex_go r ShWord (snoc token c) quoted
      end
  end.

Definition shlex_split (s : string) : result (list string) :=
  shlex_go s ShSpace EmptyString false.

(** *** Span builders *)

(** One argument of a tag, after the base. *)
Definition parse_part (part : string) (acc : list string * gmap string string)
    : result (list string * gmap string string) :=
  let '(kargs, kwargs) := acc in
  if contains part "=" then
    match split1 "=" part with
    | (key, Some value) => Ok (kargs, <[key := value]> kwargs)
    | (key, None) => Ok (kargs, kwargs)
    end
  else if startswith part "<>" then
    if 2 <? len part then Ok (kargs, <["<>" := drop 2 part]> kwargs)
    else Raise (ValueError "Empty <> attribute")
  else Ok (kargs ++ [part], kwargs).

Fixpoint parse_parts (parts : list string) (acc : list string * gmap string string)
    : result (list string * gmap string string) :=
  match parts with
  | [] => Ok acc
  | part :: rest => acc ← parse_part part acc; parse_parts rest acc
  end.

(** [parse_span_tag] *)
Definition parse_span_tag (tag : string)
    : result (string * list string * gmap string string) :=
  parts ← shlex_split tag;
  match parts with
  | [] => Ok (EmptyString, [], ∅)
  | base_span :: rest =>
      '(kargs, kwargs) ← parse_parts rest ([], ∅);
      Ok (base_span, kargs, kwargs)
  end.

(** [is_ego_or_sampler] *)
Definition is_ego_or_sampler (base : string) (kwargs : gmap string string) : bool :=
  String.eqb base "o_o" || String.eqb base "@_@" || String.eqb base "x_x"
  || bool_decide (is_Some (kwargs !! "fence")) || bool_decide (is_Some (kwargs !! "<>")).

Definition triple_quote : string :=
  String dquote (String dquote (String dquote EmptyString)).

(** [is_context_reset] *)
Definition is_context_reset (base : string) : bool :=
  String.eqb base "+++" || String.eqb base "===" || String.eqb base "---"
  || String.eqb base "^^^" || String.eqb base "###" || String.eqb base "@@@"
  || String.eqb base triple_quote || String.eqb base "***" || String.eqb base "%%%".

(** [EGO_MAP.get(ego, ego)] *)
Definition EGO_MAP_get (ego : string) : string :=
  if String.eqb ego "o_o" then "user"
  else if String.eqb ego "@_@" then "assistant"
  else if String.eqb ego "x_x" then "system"
  else ego.

(** A string seen as a sequence: the list of its characters. *)
Fixpoint chars (s : string) : list string :=
  match s with
  | EmptyString => []
  | String c r => String c EmptyString :: chars r
  end.

(** The part of [Span.set_args] common to all spans: [kargs], the fields
    [uuid], [id] and [kargs] when a keyword names them, and the remaining
    keywords; [fields] are the names of the dataclass fields. *)
Definition set_args (b : SpanBase) (fields : list string) (k : list string)
    (kw : gmap string string) : SpanBase :=
  let remaining := filter (fun kv => bool_decide (kv.1 ∉ fields)) kw in
  mkBase (match kw !! "uuid" with Some v => UuidStr v | None => uuid b end)
         (default (id b) (kw !! "id"))
         (match kw !! "kargs" with Some v => chars v | None => k end)
         remaining.

Definition span_fields : list string := ["uuid"; "id"; "kargs"; "kwargs"].

(** A span built with a fresh [uuid.uuid4()]. *)
Definition new_base (counter : nat) : SpanBase := mkBase (Uuid4 counter) "" [] ∅.

(** [_build_class] *)
Definition _build_class (counter : nat) (base : string) (kargs : list string)
    (kwargs : gmap string string) : list Span * nat :=
  let fields := span_fields ++ ["class_name"; "body"] in
  ([ClassSpan (set_args (new_base counter) fields kargs kwargs)
              (default base (kwargs !! "class_name")) None], S counter).

(** [_build_ego_or_sampler] *)
Definition _build_ego_or_sampler (counter : nat) (base : string) (kargs : list string)
    (kwargs : gmap string string) : list Span * nat :=
  let '(ego, rest) := split1 ":" base in
  let span_id := default EmptyString rest in
  let ego_span := EgoSpan (mkBase (UuidStr span_id) "" [] ∅) (EGO_MAP_get ego) in
  let sampler_kwargs :=
    filter (fun kv => bool_decide (kv.1 ∉ ["<>"; "fence"])) kwargs in
  let fence :=
    let a := default EmptyString (kwargs !! "<>") in
    if nonempty a then a else default EmptyString (kwargs !! "fence") in
  if nonempty fence
  then ([ego_span;
         SampleSpan (mkBase (UuidStr span_id) span_id kargs sampler_kwargs) fence], counter)
  else ([ego_span], counter).

(** [_build_context(train)] *)
Definition _build_context (train : bool) (counter : nat) : list Span * nat :=
  ([ContextResetSpan (new_base counter) train], S counter).

(** [_build_obj] *)
Definition _build_obj (counter : nat) (base : string) (kargs : list string)
    (kwargs : gmap string string) : list Span * nat :=
  let var_ids := map strip (split "|" base) in
  let fields := span_fields ++ ["var_ids"] in
  ([ObjSpan (set_args (new_base counter) fields kargs kwargs)
            (match kwargs !! "var_ids" with Some v => chars v | None => var_ids end)],
   S counter).

(** [build_span]: the spans of one tag. *)
Definition build_span (counter : nat) (spantext : string) : result (list Span * nat) :=
  let tag_content := strip spantext in
  if negb (nonempty tag_content) then Ok ([], counter)
  else
    '(base, kargs, kwargs) ← parse_span_tag tag_content;
    if is_ego_or_sampler base kwargs then Ok (_build_ego_or_sampler counter base kargs kwargs)
    else if is_context_reset base then Ok (_build_context (String.eqb base "+++") counter)
    else
      match base with
      | String c _ =>
          if isupper c then Ok (_build_class counter base kargs kwargs)
          else Ok (_build_obj counter base kargs kwargs)
      | EmptyString => Ok ([], counter)
      end.

(** *** The parser state *)

(** [class HolowareParser]; [counter] numbers the [uuid.uuid4()] calls. *)
Record HolowareParser : Type := mkParser {
  code : string;
  pos : nat;
  ware : Holoware;
  ego : option string;
  start_with_system : bool;
  counter : nat;
}.

Definition set_pos (p : HolowareParser) (n : nat) : HolowareParser :=
  mkParser (code p) n (ware p) (ego p) (start_with_system p) (counter p).

Definition set_ware (p : HolowareParser) (w : Holoware) : HolowareParser :=
  mkParser (code p) (pos p) w (ego p) (start_with_system p) (counter p).

Definition set_ego (p : HolowareParser) (e : option string) : HolowareParser :=
  mkParser (code p) (pos p) (ware p) e (start_with_system p) (counter p).

Definition set_counter (p : HolowareParser) (n : nat) : HolowareParser :=
  mkParser (code p) (pos p) (ware p) (ego p) (start_with_system p) n.

(** The truth value of [self.ego]. *)
Definition has_ego (p : HolowareParser) : bool :=
  match ego p with
  | Some e => nonempty e
  | None => false
  end.

(** The loop of [_add_implicit_ego_if_needed]: whether a text span with
    content comes before any ego or reset. *)
Fixpoint text_span_found (spans : list Span) : bool :=
  match spans with
  | [] => false
  | TextSpan _ text :: _ => nonempty (strip text)
  | EgoSpan _ _ :: _ => false
  | ContextResetSpan _ _ :: _ => false
  | _ :: rest => text_span_found rest
  end.

(** [_add_implicit_ego_if_needed] *)
Definition _add_implicit_ego_if_needed (p : HolowareParser) : HolowareParser :=
  if has_ego p then p
  else if text_span_found (ware p) then
    let new_ego := EgoSpan (new_base (counter p)) "system" in
    set_ego (set_counter (set_ware p (new_ego :: ware p)) (S (counter p))) (Some "system")
  else p.

Definition is_content_span (span : Span) : bool :=
  match span with
  | SampleSpan _ _ | ObjSpan _ _ | ClassSpan _ _ _ => true
  | _ => false
  end.

(** [_add_span] *)
Definition _add_span (p : HolowareParser) (span : Span) : result HolowareParser :=
  let last_span := last (ware p) in
  p ← (if negb (has_ego p) && is_content_span span then
         let p := _add_implicit_ego_if_needed p in
         if negb (has_ego p) then Raise (ValueError "Cannot have span before a ego.")
         else Ok p
       else Ok p);
  let after_ego :=
    match span with
    | EgoSpan _ e =>
        if bool_decide (ego p = Some e) then None else Some (set_ego p (Some e))
    | ContextResetSpan _ _ => Some (set_ego p None)
    | _ => Some p
    end in
  match after_ego with
  | None => Ok p
  | Some p =>
      match span with
      | TextSpan b text =>
          match last_span with
          | Some (TextSpan lb ltext) =>
              Ok (set_ware p (removelast (ware p) ++ [TextSpan lb (ltext +:+ text)]))
          | _ =>
              let text := match last_span with Some _ => lstrip text | None => text end in
              if negb (nonempty (strip text)) then Ok p
              else Ok (set_ware p (ware p ++ [TextSpan b text]))
          end
      | _ => Ok (set_ware p (ware p ++ [span]))
      end
  end.

Fixpoint _add_spans (p : HolowareParser) (spanbuf : list Span) : result HolowareParser :=
  match spanbuf with
  | [] => Ok p
  | span :: rest => p ← _add_span p span; _add_spans p rest
  end.

(** [_parse_text] *)
Definition _parse_text (p : HolowareParser) (text : string) : result HolowareParser :=
  if negb (nonempty text) then Ok p
  else
    let processed_text := replace (replace text "\\" "\") "\<|" "<|" in
    if negb (nonempty processed_text) then Ok p
    else
      let span := TextSpan (new_base (counter p)) processed_text in
      _add_span (set_counter p (S (counter p))) span.

(** The backslashes right before [found_pos]. *)
Definition num_backslashes (code : string) (found_pos : nat) : nat :=
  let before := take found_pos code in
  len before - len (rstrip_char bslash before).

(** [_find_next_span_start]; every turn of its loop moves [pos] forward. *)
Fixpoint _find_next_span_start_from (fuel : nat) (code : string) (pos : nat) : Z :=
  match fuel with
  | O => (-1)%Z
  | S fuel =>
      let found_pos := find code "<|" pos in
      if (found_pos =? -1)%Z then (-1)%Z
      else if Nat.odd (num_backslashes code (Z.to_nat found_pos))
           then _find_next_span_start_from fuel code (Z.to_nat found_pos + 1)
           else found_pos
  end.

Definition _find_next_span_start (p : HolowareParser) : Z :=
  _find_next_span_start_from (S (len (code p))) (code p) (pos p).

(** [read_until_span_end] *)
Definition read_until_span_end (p : HolowareParser) : result (string * HolowareParser) :=
  if negb (String.eqb (take 2 (drop (pos p) (code p))) "<|")
  then Raise (ValueError "Not at the start of a span")
  else
    let start := pos p + 2 in
    let end_ := find (code p) "|>" start in
    if (end_ =? -1)%Z then Raise (ValueError "Unclosed tag")
    else Ok (take (Z.to_nat end_ - start) (drop start (code p)),
             set_pos p (Z.to_nat end_ + 2)).

(** *** Indented blocks *)

(** The line boundaries of [str.splitlines]. *)
Definition is_linebreak (c : ascii) : bool :=
  let n := nat_of_ascii c in
  ((10 <=? n) && (n <=? 13)) || ((28 <=? n) && (n <=? 30)) || (n =? 133).

(** [s.splitlines(True)] *)
Fixpoint splitlines_go (s : string) (cur : string) : list string :=
  match s with
  | EmptyString => if nonempty cur then [cur] else []
  | String c r =>
      if Ascii.eqb c "013" then
        match r with
        | String "010"%char r' =>
            (cur +:+ String "013" (String "010" EmptyString)) :: splitlines_go r' EmptyString
        | _ => snoc cur c :: splitlines_go r EmptyString
        end
      else if is_linebreak c then snoc cur c :: splitlines_go r EmptyString
      else splitlines_go r (snoc cur c)
  end.

Definition splitlines (s : string) : list string := splitlines_go s EmptyString.

Definition space_or_tab (c : ascii) : bool := Ascii.eqb c " " || Ascii.eqb c "009".

(** The leading run of spaces and tabs of a line. *)
Fixpoint leading_blank (line : string) : string :=
  match line with
  | String c r => if space_or_tab c then String c (leading_blank r) else EmptyString
  | EmptyString => EmptyString
  end.

Fixpoint common_prefix (a b : string) : string :=
  match a, b with
  | String x a', String y b' => if Ascii.eqb x y then String x (common_prefix a' b') else EmptyString
  | _, _ => EmptyString
  end.

(** The margin loop of [textwrap.dedent]. *)
Definition dedent_margin (margin : option string) (indent : string) : option string :=
  match margin with
  | None => Some indent
  | Some m =>
      if startswith indent m then Some m
      else if startswith m indent then Some indent
      else Some (common_prefix m indent)
  end.

(** [textwrap.dedent(text)]: lines of blanks become empty, and the longest
    common leading run of spaces and tabs of the other lines is removed. *)
Definition dedent (text : string) : string :=
  let lines := split "010" text in
  let lines :=
    map (fun l => if nonempty l && negb (nonempty (drop (len (leading_blank l)) l))
                  then EmptyString else l) lines in
  let indents :=
    omap (fun l => if nonempty (drop (len (leading_blank l)) l)
                   then Some (leading_blank l) else None) lines in
  match fold_left dedent_margin indents None with
  | Some (String c m) =>
      let margin := String c m in
      join nl (map (fun l => if startswith l margin then drop (len margin) l else l) lines)
  | _ => join nl lines
  end.

Definition line_indent (line : string) : nat :=
  len line - len (lstrip_char " " line).

(** The loop of [_read_indented_block_content] over the lines. *)
Fixpoint block_lines_of (indentation : nat) (lines : list string) : list string :=
  match lines with
  | [] => []
  | line :: rest =>
      if negb (nonempty (strip line)) then line :: block_lines_of indentation rest
      else if indentation <=? line_indent line then line :: block_lines_of indentation rest
      else []
  end.

(** [_read_indented_block_content] *)
Definition _read_indented_block_content (code : string) (start_pos : nat)
    : option string * nat :=
  match splitlines (drop start_pos code) with
  | [] => (None, start_pos)
  | first_line :: rest =>
      let '(start_pos, lines) :=
        if negb (nonempty (strip first_line))
        then (start_pos + len first_line, rest)
        else (start_pos, first_line :: rest) in
      match lines with
      | [] => (None, start_pos)
      | first_line :: _ =>
          let indentation := line_indent first_line in
          if indentation =? 0 then (None, start_pos)
          else
            let block_lines := block_lines_of indentation lines in
            match block_lines with
            | [] => (None, start_pos)
            | _ => (Some (join "" block_lines), start_pos + len (join "" block_lines))
            end
      end
  end.

(** [_finalize_text_span]: the list is walked by index while it shrinks. *)
Fixpoint _finalize_text_span_from (fuel : nat) (spans : list Span) (i : nat)
    (last_span : option nat) : list Span :=
  match fuel with
  | O => spans
  | S fuel =>
      match spans !! i with
      | None => spans
      | Some (TextSpan _ text) =>
          match last_span with
          | Some j =>
              match spans !! j with
              | Some (TextSpan lb ltext) =>
                  let spans := <[j := TextSpan lb (ltext +:+ text)]> spans in
                  _finalize_text_span_from fuel (delete i spans) (S i) last_span
              | _ => _finalize_text_span_from fuel spans (S i) (Some i)
              end
          | None => _finalize_text_span_from fuel spans (S i) (Some i)
          end
      | Some _ => _finalize_text_span_from fuel spans (S i) (Some i)
      end
  end.

Definition _finalize_text_span (p : HolowareParser) : HolowareParser :=
  set_ware p (_finalize_text_span_from (length (ware p)) (ware p) 0 None).

(** *** The main loop *)

Section Nested.

(** The parser of a nested block: [HolowareParser(dedented_block).parse()],
    from a given count of uuids. *)
Variable parse_block : string -> nat -> result (Holoware * nat).

(** [_parse_indented_block] *)
Definition _parse_indented_block (p : HolowareParser)
    : result (option Holoware * nat * nat) :=
  match _read_indented_block_content (code p) (pos p) with
  | (None, _) => Ok (None, pos p, counter p)
  | (Some block_content, end_pos) =>
      let dedented_block := dedent block_content in
      if negb (nonempty (strip dedented_block)) then Ok (None, end_pos, counter p)
      else
        '(body, counter) ← parse_block dedented_block (counter p);
        Ok (Some body, end_pos, counter)
  end.

(** [_parse_span] *)
Definition _parse_span (p : HolowareParser) (spantext : string) : result HolowareParser :=
  '(spanbuf, counter) ← build_span (counter p) spantext;
  p ← _add_spans (set_counter p counter) spanbuf;
  match last (ware p) with
  | Some (ClassSpan b class_name _) =>
      '(body_holoware, new_pos, counter) ← _parse_indented_block p;
      let p := set_counter p counter in
      match body_holoware with
      | Some body =>
          Ok (set_pos (set_ware p (removelast (ware p) ++ [ClassSpan b class_name (Some body)]))
                new_pos)
      | None => Ok p
      end
  | _ => Ok p
  end.

(** The loop [while self.pos < len(self.code)] of [parse]. *)
Fixpoint parse_loop (fuel : nat) (p : HolowareParser) : result HolowareParser :=
  match fuel with
  | O => Raise OutOfFuel
  | S fuel =>
      if pos p <? len (code p) then
        let next_span_pos := _find_next_span_start p in
        if (next_span_pos =? -1)%Z then _parse_text p (drop (pos p) (code p))
        else
          let next := Z.to_nat next_span_pos in
          p ← (if pos p <? next
               then _parse_text p (take (next - pos p) (drop (pos p) (code p)))
               else Ok p);
          let p := set_pos p next in
          '(spantext, p) ← read_until_span_end p;
          p ← _parse_span p spantext;
          parse_loop fuel p
      else Ok p
  end.

(** [HolowareParser(code).parse()] *)
Definition parse_with (content : string) (counter : nat) : result (Holoware * nat) :=
  let p := mkParser (filter_comments content) 0 [] None false counter in
  p ← parse_loop (S (len (code p))) p;
  let p := if start_with_system p then _add_implicit_ego_if_needed p else p in
  let p := _finalize_text_span p in
  Ok (ware p, Parser.counter p).

End Nested.

(** The nesting of blocks is bounded by [depth]. *)
Fixpoint parse_nested (depth : nat) (content : string) (counter : nat)
    : result (Holoware * nat) :=
  match depth with
  | O => Raise OutOfFuel
  | S depth => parse_with (parse_nested depth) content counter
  end.

(** [Holoware.parse(content)] *)
Definition parse (content : string) : result Holoware :=
  '(ware, _) ← parse_nested (S (len content)) content 0; Ok ware.

End Parser.

(** ** The reading of the evaluator's contract *)

Module EvalSpec.

(** The train flags of the resets of a template, in the order the resets
    are encountered. *)
Definition reset_flags (spans : list Span) : list bool :=
  flat_map (fun s => match s with ContextResetSpan _ t => [t] | _ => [] end) spans.

Definition begins_with_reset (spans : list Span) : bool :=
  match spans with
  | ContextResetSpan _ _ :: _ => true
  | _ => false
  end.

(** The index of the context the [k]-th encountered reset opens ([k] from
    0): the first context has index 0; it is the implicit initial context,
    unless the template begins with a reset. *)
Definition context_of_reset (spans : list Span) (k : nat) : nat :=
  if begins_with_reset spans then k else S k.

(** The indices of the contexts opened by a reset with [train=true]. *)
Definition trained_indices (spans : list Span) : list nat :=
  let flags := reset_flags spans in
  map (context_of_reset spans)
      (List.filter (fun k => nth k flags false) (seq 0 (length flags))).

(** The sample [s] with a leading [<F>] and a trailing [</F>] stripped
    when present. *)
Definition strip_fence (F s : string) : string :=
  let open_tag := "<" +:+ F +:+ ">" in
  let close_tag := "</" +:+ F +:+ ">" in
  let a := if PyStr.startswith s open_tag then PyStr.len open_tag else 0 in
  let b := if PyStr.endswith s close_tag then PyStr.len close_tag else 0 in
  PyStr.take (PyStr.len s - b - a) (PyStr.drop a s).

(** The same, one tag after the other. *)
Definition remove_prefix (p s : string) : string :=
  if PyStr.startswith s p then PyStr.drop (PyStr.len p) s else s.

Definition remove_suffix (p s : string) : string :=
  if PyStr.endswith s p then PyStr.take (PyStr.len s - PyStr.len p) s else s.

(** The masks of all the fragments of the rollout, context after context. *)
Definition masks (h : Holophore) : list FragType :=
  map type (concat (_rollout h)).

(** The mask of the opening fence tag of a sample span. *)
Definition opening (fence : string) : list FragType :=
  if PyStr.nonempty fence then [FROZEN] else [].

(** The masks of the fragments a span may emit, in order: a sample span
    emits its opening fence tag frozen and its sample reinforced; every
    other span emits frozen fragments only; a class span without a
    [__holo__] hook emits what the spans of its body emit. *)
Inductive emits : Span -> list FragType -> Prop :=
| emits_reset b t : emits (ContextResetSpan b t) []
| emits_ego b e : emits (EgoSpan b e) []
| emits_text b t : emits (TextSpan b t) [FROZEN]
| emits_obj b ids n : emits (ObjSpan b ids) (replicate n FROZEN)
| emits_sample_failed b fence : emits (SampleSpan b fence) (opening fence)
| emits_sample b fence : emits (SampleSpan b fence) (opening fence ++ [REINFORCE])
| emits_class_holo b cn body n : emits (ClassSpan b cn body) (replicate n FROZEN)
| emits_class_body b cn spans ms :
    emits_all spans ms -> emits (ClassSpan b cn (Some spans)) ms
with emits_all : list Span -> list FragType -> Prop :=
| emits_nil : emits_all [] []
| emits_cons s rest m ms :
    emits s m -> emits_all rest ms -> emits_all (s :: rest) (m ++ ms).

End EvalSpec.

(** ** Auxiliary definitions of the proofs and of the examples *)

Module Aux.

(** The run in progress, put in front of the runs still to come. *)
Definition merge (g : string * list string) (gs : list (string * list string)) :=
  match gs with
  | (r', ts') :: gs' =>
      if String.eqb r' (fst g) then (fst g, snd g ++ ts') :: gs' else g :: gs
  | [] => [g]
  end.

(** The positions of the [true] flags, counted from [j]. *)
Fixpoint trues_from (j : nat) (flags : list bool) : list nat :=
  match flags with
  | [] => []
  | b :: rest => (if b then [j] else []) ++ trues_from (S j) rest
  end.

(** [MockLoom.sample] *)
Definition mock_sample (sample_text : string) : Rollout -> list string -> option string :=
  fun _ _ => Some sample_text.

Definition no_registry : string -> option HoloClass := fun _ => None.

Definition fresh (n : nat) : SpanBase := mkBase (Uuid4 n) "" [] ∅.
Definition named (s : string) : SpanBase := mkBase (UuidStr s) "" [] ∅.

Definition across_contexts : Holoware :=
  [ContextResetSpan (fresh 0) true;
   EgoSpan (named "") "user";
   TextSpan (fresh 1) ("Source." +:+ PyStr.nl);
   EgoSpan (named "compressed") "assistant";
   SampleSpan (mkBase (UuidStr "compressed") "compressed" [] ∅) "compress";
   ContextResetSpan (fresh 2) true;
   EgoSpan (named "") "user";
   TextSpan (fresh 3) "Injected: ";
   ObjSpan (fresh 4) ["compressed"]].

(** The spans of a parse, one line each. *)
Definition kinds (r : result Holoware) : option (list string) :=
  match r with
  | Ok spans =>
      Some (map (fun s => match s with
                          | ContextResetSpan _ t => if t then "reset+" else "reset"
                          | EgoSpan _ e => "ego:" +:+ e
                          | SampleSpan _ f => "sample:" +:+ f
                          | TextSpan _ t => "text:" +:+ t
                          | ObjSpan _ ids => "obj:" +:+ PyStr.join "," ids
                          | ClassSpan _ n None => "class:" +:+ n
                          | ClassSpan _ n (Some _) => "class+body:" +:+ n
                          end) spans)
  | Raise _ => None
  end.

(** [HoloTest.run_holoware] of the tests: parse the source and evaluate the
    template on an empty rollout. *)
Definition run_holoware (sample : Rollout -> list string -> option string)
    (code : string) (env : gmap string PyVal) : result Holophore :=
  holoware ← Parser.parse code;
  call sample no_registry holoware (init [] env).

(** [COMPRESSOR_HOL] of the tests, and their mock classes. *)
Definition COMPRESSOR_HOL : string := "<|+++|>
You are an expert in information theory and symbolic compression.
Your task is to compress text losslessly into a non-human-readable format optimized for density.
Abuse language mixing, abbreviations, and unicode symbols to aggressively compress the input while retaining ALL information required for full reconstruction.

<|o_o|>
<|BingoAttractor|>
    Compress the following text losslessly in a way that fits a Tweet, such that you can reconstruct it as closely as possible to the original.
    Abuse of language  mixing, abbreviation, symbols (unicode and emojis) to aggressively compress it, while still keeping ALL the information to fully reconstruct it.
    Do not make it human readable.
<|text|original|input|data|>

<|@_@|>
<|@_@:compressed <>compress|>


<|+++|>
You are an expert in information theory and symbolic decompression.
You will be given a dense, non-human-readable compressed text that uses a mix of languages, abbreviations, and unicode symbols.
Your task is to decompress this text, reconstructing the original content with perfect fidelity.

<|o_o|>
Please decompress this content:
<|compressed|>

<|@_@|>
<|@_@:decompressed <>decompress|>


<|===|>
You are a precise content evaluator.
Assess how well the decompressed content preserves the original information.
Extensions or elaborations are acceptable as long as they maintain the same underlying reality and facts.

<|o_o|>
Please observe the following text objects:
<|original|>
<|decompressed|>
<|BingoAttractor|>
    Compare the two objects and analyze the preservation of information and alignment.
    Focus on identifying actual losses or distortions of meaning.
Output your assessment in this format:
<|FidelityCritique|>

<|@_@|>
<|@_@ <>think|>
<|@_@ <>json|>

<|FidelityAttractor original decompressed|>
".

Definition first_text (spans : list Span) : option string :=
  match List.find (fun s => match s with TextSpan _ _ => true | _ => false end) spans with
  | Some (TextSpan _ t) => Some t
  | _ => None
  end.

(** [MockBingoAttractor] *)
Definition MockBingoAttractor : HoloClass :=
  let obj :=
    mkObj (Some (fun _ => None))
          (Some (fun span =>
                   match span with
                   | ClassSpan _ _ (Some body) =>
                       match first_text body with
                       | Some t => Some ("BINGO: " +:+ PyStr.strip t)
                       | None => Some "BINGO: <no body>"
                       end
                   | _ => Some "BINGO: <no body>"
                   end))
          true in
  mkClass "<class 'MockBingoAttractor'>" false obj [] true (fun _ _ => Ok obj).

(** [MockFidelityCritique] *)
Definition MockFidelityCritique : HoloClass :=
  let obj := mkObj (Some (fun _ => None)) (Some (fun _ => Some "{mock_schema: compact}")) true in
  mkClass "<class 'MockFidelityCritique'>" false obj [] true (fun _ _ => Ok obj).

(** [MockFidelityAttractor] *)
Definition MockFidelityAttractor : HoloClass :=
  let obj := mkObj (Some (fun _ => None)) (Some (fun _ => None)) true in
  mkClass "<class 'MockFidelityAttractor'>" false obj
    ["original_id"; "decompressed_id"; "kargs"; "kwargs"] true
    (fun args _ =>
       match args with
       | _ :: _ :: _ => Ok obj
       | _ => Raise (TypeError "missing required positional arguments")
       end).

(** The [env] of [CompressorHolowareExecutionTest]. *)
Definition compressor_env : gmap string PyVal :=
  <["my_var" := VStr "injected_value"]>
  (<["text" := VStr "This is the original text."]>
  (<["original" := VStr "This is the original text."]>
  (<["compressed" := VStr "th_is_s_th_0r1g_txt"]>
  (<["decompressed" := VStr "This is the original text, decompressed."]>
  (<["BingoAttractor" := VClass MockBingoAttractor]>
  (<["FidelityCritique" := VClass MockFidelityCritique]>
  (<["FidelityAttractor" := VClass MockFidelityAttractor]> ∅))))))).

(** What the handler of a span appends, as masks; it leaves [errors] alone. *)
Definition appends (sample : Rollout -> list string -> option string)
    (registry : string -> option HoloClass) (span : Span) : Prop :=
  forall h h', handle sample registry h span = Ok h' ->
    (exists ms, EvalSpec.emits span ms /\ EvalSpec.masks h' = EvalSpec.masks h ++ ms)
    /\ errors h' = errors h.

End Aux.

Import Aux.

(** ** context.py: contexts from chats *)

Module Chat.

(** [class AutoMask(Enum)] *)
Inductive AutoMask : Type :=
| FREEZE_ALL
| REINFORCE_ALL
| REINFORCE_USER
| REINFORCE_ASSISTANT.

(** One element of an [APIChat] as [from_api_chat] reads it: something that
    is no dict, or a dict with what [msg.get("role")] and
    [msg.get("content", "")] find; [None] is a missing key or Python's
    [None]. *)
Inductive ChatEntry : Type :=
| NotADict
| Dict (role : option string) (content : option string).

(** [mask_for], local to [from_api_chat]. *)
Definition mask_for (masking : AutoMask) (role : option string) : FragType :=
  match masking with
  | FREEZE_ALL => FROZEN
  | REINFORCE_ALL => REINFORCE
  | REINFORCE_USER => if bool_decide (role = Some "user") then REINFORCE else FROZEN
  | REINFORCE_ASSISTANT => if bool_decide (role = Some "assistant") then REINFORCE else FROZEN
  end.

(** [Context.add_frag] *)
Definition add_frag (fragments : FragList) (ego : option string) (text : string)
    (type : FragType) : FragList :=
  fragments ++ [mkFrag text ego type].

(** [Context.from_api_chat]: the fragments of the context it builds. *)
Definition from_api_chat (api_context : list ChatEntry) (masking : AutoMask) : FragList :=
  fold_left (fun fragments msg =>
               match msg with
               | NotADict => fragments
               | Dict role content =>
                   add_frag fragments role (default "" content) (mask_for masking role)
               end) api_context [].

(** A message of [to_api_messages], as an element of an [APIChat]. *)
Definition entry (m : Message) : ChatEntry := Dict (Some (role m)) (Some (content m)).

(** The three roles of a chat. *)
Definition is_role (r : string) : bool :=
  String.eqb r "system" || String.eqb r "user" || String.eqb r "assistant".

(** No two neighbours of the list are equal. *)
Fixpoint alternating (l : list string) : bool :=
  match l with
  | a :: (b :: _) as rest => negb (String.eqb a b) && alternating rest
  | _ => true
  end.

End Chat.

(** ** The reading of the handlers' contract *)

Module HandlerSpec.

(** The four fragments of one object of [env], under the ego [e]. *)
Definition obj_frags (e : string) (env : gmap string PyVal) (var_id : string) : list Frag :=
  match env !! var_id with
  | Some value =>
      [mkFrag ("<obj id=" +:+ var_id +:+ ">") (Some e) FROZEN;
       mkFrag (str value) (Some e) FROZEN;
       mkFrag "</obj>" (Some e) FROZEN;
       mkFrag PyStr.nl (Some e) FROZEN]
  | None => []
  end.

(** All the fragments of a rollout, context after context. *)
Definition frags (h : Holophore) : list Frag := concat (_rollout h).

Definition is_class_span (s : Span) : bool :=
  match s with ClassSpan _ _ _ => true | _ => false end.

(** A fragment up to the whitespace at the two ends of its text. *)
Definition outer_view (f : Frag) : string * option string * FragType :=
  (PyStr.strip (text f), Context.ego f, type f).

End HandlerSpec.

(** ** The reading of the parser's contract *)

Module ParserSpec.

Import PyStr.

(** Every character of the string satisfies [P]. *)
Fixpoint all_chars (P : ascii -> bool) (s : string) : bool :=
  match s with
  | EmptyString => true
  | String c r => P c && all_chars P r
  end.

(** A string without a line feed. *)
Definition no_nl (s : string) : bool := all_chars (fun c => negb (Ascii.eqb c "010")) s.

(** A character that [shlex] and [strip] take as it is: no whitespace, no
    quote, no backslash. *)
Definition plain_char (c : ascii) : bool :=
  negb (isspace c) && negb (Parser.sh_quote c) && negb (Ascii.eqb c Parser.bslash).

(** A token of a tag that needs no quoting. *)
Definition plain_token (t : string) : bool := nonempty t && all_chars plain_char t.

Definition is_text (s : Span) : bool :=
  match s with TextSpan _ _ => true | _ => false end.

Definition is_ego (s : Span) : bool :=
  match s with EgoSpan _ _ => true | _ => false end.

(** No two text spans are neighbours, and every text span has a character
    that is no whitespace. *)
Fixpoint merged (spans : list Span) : bool :=
  match spans with
  | [] => true
  | TextSpan _ t :: rest =>
      nonempty (strip t)
      && negb (match rest with s :: _ => is_text s | [] => false end)
      && merged rest
  | _ :: rest => merged rest
  end.

(** Every sample, object and class span comes after an ego span; [seen]
    tells whether an ego span came before the list. *)
Fixpoint ego_first (seen : bool) (spans : list Span) : bool :=
  match spans with
  | [] => true
  | EgoSpan _ _ :: rest => ego_first true rest
  | s :: rest => (negb (Parser.is_content_span s) || seen) && ego_first seen rest
  end.

(** A property of span lists that holds in every body of a span. *)
Fixpoint in_bodies (P : list Span -> bool) (s : Span) : bool :=
  match s with
  | ClassSpan _ _ (Some body) => P body && forallb (in_bodies P) body
  | _ => true
  end.

(** A property of span lists that holds of a template and of every body
    in it. *)
Definition at_all_levels (P : list Span -> bool) (spans : list Span) : bool :=
  P spans && forallb (in_bodies P) spans.

Definition last_is_text (l : list Span) : bool :=
  match last l with Some s => is_text s | None => false end.

(** Whether [x] may follow the spans [l]. *)
Definition text_ok (l : list Span) (x : Span) : bool :=
  match x with
  | TextSpan _ t => nonempty (strip t) && negb (last_is_text l)
  | _ => true
  end.

(** What the parser keeps true of the spans it has built. *)
Definition shape (spans : list Span) : bool := merged spans && ego_first false spans.

Definition Inv (p : Parser.HolowareParser) : Prop :=
  merged (Parser.ware p) = true
  /\ ego_first false (Parser.ware p) = true
  /\ (Parser.has_ego p = true -> existsb is_ego (Parser.ware p) = true)
  /\ forallb (in_bodies shape) (Parser.ware p) = true.

End ParserSpec.

(** ** context.py: contexts from text *)

Module ChatText.

Import PyStr.

Definition im_start : string := "<|im_start|>".
Definition im_end : string := "<|im_end|>".
Definition cr : ascii := "013"%char.
Definition lf : ascii := "010"%char.

(** The pattern of [from_text], with [re.DOTALL]:
    [<\|im_start\|\>(?P<role>[^\n\r]+)[\r]?\n(?P<content>.*?)[\r]?\n<\|im_end\|\>]. *)

(** [[^\n\r]+], greedy: the longest run of characters that are no line
    feed and no carriage return. *)
Fixpoint role_run (s : string) : nat :=
  match s with
  | String c r => if Ascii.eqb c lf || Ascii.eqb c cr then 0 else S (role_run r)
  | EmptyString => 0
  end.

(** [[\r]?\n] at the head of [s]: the number of characters it takes. *)
Definition match_eol (s : string) : option nat :=
  if startswith s (String cr (String lf EmptyString)) then Some 2
  else if startswith s (String lf EmptyString) then Some 1
  else None.

(** [[\r]?\n<\|im_end\|\>] at the head of [s]: the number of characters it
    takes. *)
Definition match_close (s : string) : option nat :=
  match match_eol s with
  | Some n => if startswith (drop n s) im_end then Some (n + len im_end) else None
  | None => None
  end.

(** [.*?], lazy, followed by the closing of the block: the least number
    [k] of characters after which the closing matches, and the number of
    characters of the closing. *)
Fixpoint match_content (s : string) (k : nat) : option (nat * nat) :=
  match match_close s with
  | Some n => Some (k, n)
  | None =>
      match s with
      | String _ r => match_content r (S k)
      | EmptyString => None
      end
  end.

(** The pattern at the head of [s]: the groups [role] and [content], and
    the length of the match.  The run of the role cannot be shortened (a
    line end must follow it), so the pattern matches in one way at most. *)
Definition match_at (s : string) : option (string * string * nat) :=
  if startswith s im_start then
    let r := drop (len im_start) s in
    let n := role_run r in
    if n =? 0 then None
    else
      match match_eol (drop n r) with
      | Some e =>
          match match_content (drop (n + e) r) 0 with
          | Some (k, c) => Some (take n r, take k (drop (n + e) r), len im_start + n + e + k + c)
          | None => None
          end
      | None => None
      end
  else None.

(** [pattern.finditer(text)]: the matches from left to right, without
    overlap; a match has a character at least, so [fuel] above the length
    of the text is never used up. *)
Fixpoint finditer (fuel : nat) (s : string) : list (string * string) :=
  match fuel with
  | O => []
  | S fuel =>
      match s with
      | EmptyString => []
      | String _ r =>
          match match_at s with
          | Some (role, content, n) => (role, content) :: finditer fuel (drop n s)
          | None => finditer fuel r
          end
      end
  end.

(** [Context.from_text]: the fragments of the context it builds. *)
Definition from_text (text : string) (masking : Chat.AutoMask) : result FragList :=
  match finditer (S (len text)) text with
  | [] => Raise (ValueError "from_text: no delimited messages found")
  | matches =>
      Ok (Chat.from_api_chat
            (map (fun m => Chat.Dict (Some (strip (fst m))) (Some (snd m))) matches) masking)
  end.

(** A role that the pattern reads back: not empty, on one line, without
    outer whitespace. *)
Definition role_ok (r : string) : bool :=
  nonempty r
  && ParserSpec.all_chars (fun c => negb (Ascii.eqb c lf || Ascii.eqb c cr)) r
  && String.eqb (strip r) r.

(** A content that the pattern reads back: no line in it begins with "<",
    and it does not end with a carriage return. *)
Definition content_ok (c : string) : bool :=
  negb (contains c (String lf "<")) && negb (endswith c (String cr EmptyString)).

End ChatText.

(** ** Further definitions of the examples *)

Module Examples.

(** A class without a [__holo__] hook: its spans are evaluated through
    their bodies. *)
Definition Box : HoloClass :=
  let obj := mkObj None None false in
  mkClass "<class 'Box'>" false obj [] true (fun _ _ => Ok obj).

Definition BOX_HOL : string := "<|o_o|>
<|Box|>
    inner text
".

End Examples.

(** ** Templates of plain spans *)

Module PlainSpec.

(** A span without sampling, objects and classes. *)
Definition is_plain_span (s : Span) : bool :=
  match s with
  | TextSpan _ _ | EgoSpan _ _ | ContextResetSpan _ _ => true
  | _ => false
  end.

(** What a template of plain spans emits when it starts under [ego]: its
    texts, each under the ego set before it, frozen; the texts are given
    up to the whitespace at their ends. *)
Fixpoint plain_frags (ego : string) (spans : list Span)
    : list (string * option string * FragType) :=
  match spans with
  | [] => []
  | EgoSpan _ e :: rest => plain_frags e rest
  | ContextResetSpan _ _ :: rest => plain_frags "system" rest
  | TextSpan _ t :: rest => (PyStr.strip t, Some ego, FROZEN) :: plain_frags ego rest
  | _ :: rest => plain_frags ego rest
  end.

(** The ego after the spans. *)
Fixpoint plain_ego (ego : string) (spans : list Span) : string :=
  match spans with
  | [] => ego
  | EgoSpan _ e :: rest => plain_ego e rest
  | ContextResetSpan _ _ :: rest => plain_ego "system" rest
  | _ :: rest => plain_ego ego rest
  end.

(** The fragments of a rollout up to the whitespace at the ends of their
    texts. *)
Definition views (h : Holophore) : list (string * option string * FragType) :=
  map HandlerSpec.outer_view (HandlerSpec.frags h).

(** The record of the fragments of a span of the template [self]. *)
Definition known (self : Holoware) (rec : Uuid * list FragRef) : Prop :=
  exists s, s ∈ self /\ Uuid_eqb (span_uuid s) rec.1 = true.

(** What the main walk over plain spans keeps of the state. *)
Definition steady (self : Holoware) (h0 h : Holophore) : Prop :=
  errors h = errors h0 /\ span_bindings h = span_bindings h0
  /\ _holowares h = _holowares h0 /\ env h = env h0
  /\ Forall (known self) (span_fragments h).

End PlainSpec.

(** * Properties *)

Example to_api_messages_ego_change :
to_api_messages
  [mkFrag "User message." (Some "user") FROZEN;
   mkFrag "Assistant response." (Some "assistant") FROZEN] false
= [mkMessage "user" "User message."; mkMessage "assistant" "Assistant response."].
Proof. reflexivity. Qed.

(** ** Strings *)

Section PyStrFacts.

Import PyStr.

Lemma append_cons x (a b : string) : String x a +:+ b = String x (a +:+ b).
Proof. reflexivity. Qed.

Lemma append_nil_l (b : string) : "" +:+ b = b.
Proof. reflexivity. Qed.

Lemma append_assoc (a b c : string) : (a +:+ b) +:+ c = a +:+ b +:+ c.
Proof.
  induction a as [|x a IH]; [done|]. by rewrite !append_cons, IH.
Qed.

Lemma append_nil_r (a : string) : a +:+ "" = a.
Proof. induction a as [|x a IH]; [done|]. by rewrite append_cons, IH. Qed.

Lemma len_app a b : len (a +:+ b) = len a + len b.
Proof.
  induction a as [|x a IH]; [done|].
  rewrite append_cons. unfold len in *. simpl. by rewrite IH.
Qed.

Lemma drop_app a b : drop (len a) (a +:+ b) = b.
Proof.
  induction a as [|x a IH]; [by destruct b|]. by rewrite append_cons.
Qed.

Lemma endswith_app a b : endswith (a +:+ b) b = true.
Proof.
  unfold endswith. rewrite len_app.
  replace (len a + len b - len b) with (len a) by lia.
  rewrite drop_app, String.eqb_refl.
  rewrite andb_true_r. apply Nat.leb_le. lia.
Qed.

Lemma lstrip_idem s : lstrip (lstrip s) = lstrip s.
Proof.
  induction s as [|c r IH]; simpl; [done|].
  destruct (isspace c) eqn:E; [done|]. simpl. by rewrite E.
Qed.

Lemma rstrip_idem s : rstrip (rstrip s) = rstrip s.
Proof.
  induction s as [|c r IH]; simpl; [done|].
  destruct (rstrip r) as [|c' r'] eqn:E.
  - destruct (isspace c) eqn:Ec; simpl; [done|]. by rewrite Ec.
  - change (rstrip (String c (String c' r')) = String c (String c' r')).
    simpl rstrip at 1. simpl in IH. by rewrite IH.
Qed.

Lemma rstrip_head c r :
  isspace c = false -> exists r', rstrip (String c r) = String c r'.
Proof.
  intros Hc. simpl. destruct (rstrip r); [rewrite Hc|]; eauto.
Qed.

Lemma rstrip_lstrip s : rstrip (lstrip s) = lstrip (rstrip s).
Proof.
  induction s as [|c r IH]; [done|].
  destruct (isspace c) eqn:Ec.
  - simpl lstrip at 1. rewrite Ec, IH. simpl rstrip.
    destruct (rstrip r) eqn:E; simpl; by rewrite Ec.
  - simpl lstrip at 1. rewrite Ec.
    destruct (rstrip_head c r Ec) as [r' ->]. simpl. by rewrite Ec.
Qed.

Lemma strip_idem s : strip (strip s) = strip s.
Proof.
  unfold strip. by rewrite rstrip_lstrip, lstrip_idem, rstrip_idem.
Qed.

End PyStrFacts.

(** ** context.py: [to_api_messages] *)

Section ToApiMessages.

Import ContextSpec.

Variable render_dry : bool.

Lemma group_by_role_cons r t rest :
  group_by_role ((r, t) :: rest) = merge (r, [t]) (group_by_role rest).
Proof.
  simpl. destruct (group_by_role rest) as [|[r' ts] gs]; [done|].
  simpl. by rewrite String.eqb_sym.
Qed.

Lemma group_by_role_nonempty p rest : group_by_role (p :: rest) <> [].
Proof.
  destruct p as [r t]. simpl.
  destruct (group_by_role rest) as [|[r' ts] gs]; [done|].
  by destruct (String.eqb r r').
Qed.

Lemma render_cons g gs :
  gs <> [] -> render render_dry (g :: gs) = closed_message render_dry g ++ render render_dry gs.
Proof. by destruct gs. Qed.

Lemma loop_flush frags : forall i a cur,
  current_role a = Some cur ->
  flush render_dry (loop render_dry (S i) frags a)
  = messages a
    ++ render render_dry (merge (cur, texts a) (group_by_role (roles_from (S i) frags))).
Proof.
  induction frags as [|f rest IH]; intros i a cur Hcur.
  - simpl. unfold flush. rewrite Hcur. unfold tail_message. simpl.
    destruct (PyStr.nonempty (concat_texts (texts a)) || render_dry); simpl;
      [done | by rewrite app_nil_r].
  - cbn [loop roles_from]. rewrite group_by_role_cons.
    unfold step. rewrite Hcur.
    change (Nat.eqb (S i) 0) with false.
    set (r := _normalize_role (ego f) false).
    destruct (String.eqb r cur) eqn:Er.
    + apply String.eqb_eq in Er. subst cur.
      match goal with |- flush _ (loop _ _ _ ?a') = _ => rewrite (IH (S i) a' r eq_refl) end.
      cbn [messages texts]. f_equal. f_equal.
      destruct (group_by_role (roles_from (S (S i)) rest)) as [|[r' ts'] gs]; simpl.
      * by rewrite String.eqb_refl.
      * destruct (String.eqb r' r) eqn:E; simpl.
        -- rewrite String.eqb_refl. simpl. by rewrite <- app_assoc.
        -- by rewrite String.eqb_refl.
    + match goal with |- flush _ (loop _ _ _ ?a') = _ => rewrite (IH (S i) a' r eq_refl) end.
      cbn [messages texts].
      assert (exists g gs, merge (r, [text f]) (group_by_role (roles_from (S (S i)) rest))
                           = g :: gs /\ fst g = r) as (g & gs & Hm & Hg).
      { destruct (group_by_role (roles_from (S (S i)) rest)) as [|[r' ts'] gs]; simpl;
          [eauto|]. destruct (String.eqb r' r); simpl; eauto. }
      rewrite Hm. destruct g as [rg tg]. simpl in Hg. subst rg.
      cbn [merge fst snd]. rewrite Er.
      rewrite (render_cons (cur, texts a) ((r, tg) :: gs)) by discriminate.
      unfold closed_message. cbn [fst snd].
      destruct (PyStr.nonempty (concat_texts (texts a)) || render_dry);
        by rewrite <- ?app_assoc.
Qed.

Lemma to_api_messages_render frags :
  to_api_messages frags render_dry = render render_dry (groups frags).
Proof.
  unfold to_api_messages, groups. destruct frags as [|f rest]; [done|].
  cbn [loop]. unfold step at 1. cbn [current_role messages].
  match goal with
  | |- flush _ (loop _ _ _ ?a') = _ =>
      rewrite (loop_flush rest 0 a' (_normalize_role (ego f) true) eq_refl)
  end. cbn [messages texts app].
  cbn [roles_from]. by rewrite group_by_role_cons.
Qed.

Lemma render_split gs :
  render render_dry gs = closed_part render_dry gs ++ tail_part render_dry gs.
Proof.
  unfold closed_part, tail_part.
  induction gs as [|g gs IH]; [done|].
  destruct gs as [|g' gs']; [done|].
  rewrite render_cons by done. rewrite IH.
  change (removelast (g :: g' :: gs')) with (g :: removelast (g' :: gs')).
  cbn [flat_map]. rewrite <- app_assoc. f_equal.
Qed.

Lemma closed_part_stripped gs :
  Forall (fun m => PyStr.strip (content m) = content m) (closed_part render_dry gs).
Proof.
  unfold closed_part. induction (removelast gs) as [|g l IH]; cbn [flat_map].
  - constructor.
  - apply Forall_app. split; [|done].
    unfold closed_message.
    destruct (PyStr.nonempty (concat_texts (snd g)) || render_dry); repeat constructor.
    simpl. apply strip_idem.
Qed.

End ToApiMessages.

(** C10: in [to_api_messages] the message of every run closed by a role
    change carries the stripped concatenation of the run's texts, and the
    message of the last run, flushed after the loop, carries the
    concatenation as it is; so only the last message keeps leading and
    trailing whitespace. *)
Theorem to_api_messages_strips_all_but_the_tail (frags : FragList) (render_dry : bool) :
  to_api_messages frags render_dry
  = ContextSpec.closed_part render_dry (ContextSpec.groups frags)
    ++ ContextSpec.tail_part render_dry (ContextSpec.groups frags)
  /\ Forall (fun m => PyStr.strip (content m) = content m)
       (ContextSpec.closed_part render_dry (ContextSpec.groups frags)).
Proof.
  split.
  - rewrite to_api_messages_render. apply render_split.
  - apply closed_part_stripped.
Qed.

Example to_api_messages_tail_keeps_whitespace :
  to_api_messages
    [mkFrag "  hello  " (Some "user") FROZEN;
     mkFrag "  world  " (Some "assistant") FROZEN] false
  = [mkMessage "user" "hello"; mkMessage "assistant" "  world  "].
Proof. reflexivity. Qed.

(** ** context.py: [to_api_string] *)

Section ToApiString.

Import PyStr ContextSpec.

Lemma join_snoc sep l x :
  join sep (l ++ [x]) = match l with [] => x | _ => join sep l +:+ sep +:+ x end.
Proof.
  induction l as [|y l IH]; [done|].
  destruct l as [|z l]; [done|].
  change (join sep ((y :: z :: l) ++ [x]))
    with (y +:+ sep +:+ join sep ((z :: l) ++ [x])).
  rewrite IH.
  change (join sep (y :: z :: l)) with (y +:+ sep +:+ join sep (z :: l)).
  by rewrite !append_assoc.
Qed.

Lemma join_snoc_endswith sep l x : endswith (join sep (l ++ [x])) x = true.
Proof.
  rewrite join_snoc. destruct l.
  - apply (endswith_app EmptyString x).
  - rewrite <- append_assoc. apply endswith_app.
Qed.

End ToApiString.

(** C9, as the code has it: when the last raw fragment normalizes to
    "assistant" and has an empty text, the completion string is every
    closed block of [to_api_messages], none left out, followed by the open
    tail; it ends with the open tail. *)
Theorem to_api_string_appends_open_tail (frags : FragList) :
  ContextSpec.open_tail_cue frags = true ->
  to_api_string frags = ContextSpec.to_api_string_appending frags
  /\ PyStr.endswith (to_api_string frags) ContextSpec.open_tail = true.
Proof.
  intros Hcue.
  assert (to_api_string frags = ContextSpec.to_api_string_appending frags) as E.
  { unfold to_api_string, ContextSpec.to_api_string_appending, ContextSpec.open_tail_cue in *.
    destruct (last frags) as [f|]; [|done].
    rewrite Hcue. by destruct (map block (to_api_messages frags false)). }
  split; [done|]. rewrite E. apply join_snoc_endswith.
Qed.

Lemma to_api_string_appends_open_tail_witness :
  ContextSpec.open_tail_cue
    [mkFrag "Hello" (Some "user") FROZEN; mkFrag "" (Some "assistant") FROZEN] = true
  /\ to_api_string
       [mkFrag "Hello" (Some "user") FROZEN; mkFrag "" (Some "assistant") FROZEN]
     = ContextSpec.to_api_string_appending
         [mkFrag "Hello" (Some "user") FROZEN; mkFrag "" (Some "assistant") FROZEN].
Proof.
  split; [reflexivity|].
  apply (to_api_string_appends_open_tail
           [mkFrag "Hello" (Some "user") FROZEN; mkFrag "" (Some "assistant") FROZEN]).
  reflexivity.
Defined.

(** C9, as stated, fails: a final assistant turn with a non-empty part and
    an empty last fragment keeps its closed block in front of the open tail. *)
Lemma to_api_string_keeps_closed_assistant_block :
  let frags := [mkFrag "hi" (Some "assistant") FROZEN; mkFrag "" (Some "assistant") FROZEN] in
  ContextSpec.open_tail_cue frags = true
  /\ to_api_string frags
     = "<|im_start|>assistant" +:+ PyStr.nl +:+ "hi" +:+ PyStr.nl +:+ "<|im_end|>"
       +:+ PyStr.nl +:+ "<|im_start|>assistant"
  /\ to_api_string frags <> ContextSpec.to_api_string_replacing frags.
Proof. repeat split; try reflexivity. intros H. vm_compute in H. discriminate H. Qed.

Example tag_pattern_examples :
  tag_pattern_search "<obj id=my_var>" = true
  /\ tag_pattern_search "see <think>mocked_sample</think> here" = true
  /\ tag_pattern_search "<a b=1>x</a>" = true
  /\ tag_pattern_search "<ab>x</a>" = true
  /\ tag_pattern_search "<a>x</ab>" = false
  /\ tag_pattern_search "<obj id>" = false
  /\ tag_pattern_search "Hello, world!" = false.
Proof. repeat split; reflexivity. Qed.

(** ** The evaluator on the scenarios of the test suite *)

Example run_simple_text :
  _rollout <$> (match call (mock_sample "mocked_sample") no_registry
                   [TextSpan (fresh 0) "Hello, world!"] (init [] ∅) with
                | Ok h => Some h | Raise _ => None end)
  = Some [[mkFrag "Hello, world!" (Some "system") FROZEN]].
Proof. vm_compute. reflexivity. Qed.

Example run_data_assignment_across_contexts :
  match call (mock_sample "mocked_sample") no_registry across_contexts (init [] ∅) with
  | Ok h =>
      env h !! "compressed" = Some (VStr "mocked_sample")
      /\ _rollout h
         = [[mkFrag ("Source." +:+ PyStr.nl) (Some "user") FROZEN;
             mkFrag (PyStr.repeat_char "010" 6 +:+ "<compress>") (Some "assistant") FROZEN;
             mkFrag ("mocked_sample</compress>" +:+ PyStr.repeat_char "010" 6)
               (Some "assistant") REINFORCE];
            [mkFrag "Injected: " (Some "user") FROZEN;
             mkFrag "<obj id=compressed>" (Some "user") FROZEN;
             mkFrag "mocked_sample" (Some "user") FROZEN;
             mkFrag "</obj>" (Some "user") FROZEN;
             mkFrag PyStr.nl (Some "user") FROZEN]]
  | Raise _ => False
  end.
Proof. vm_compute. split; reflexivity. Qed.

Example run_compressor_holoware :
  match Parser.parse COMPRESSOR_HOL,
        run_holoware (mock_sample "mocked_sample") COMPRESSOR_HOL compressor_env with
  | Ok holoware, Ok holophore =>
      trained_contexts holoware = [0; 1]
      /\ length (span_bindings holophore) = 4
      /\ env holophore !! "compressed" = Some (VStr "mocked_sample")
      /\ match map string_of (_rollout holophore) with
         | [context0; context1; context2] =>
             PyStr.contains context0 "BINGO: Compress the following text losslessly" = true
             /\ PyStr.contains context0 "<obj id=text>This is the original text.</obj>" = true
             /\ PyStr.contains context0 "<compress>mocked_sample</compress>" = true
             /\ PyStr.contains context0 "<decompress>" = false
             /\ PyStr.contains context1 "<obj id=compressed>mocked_sample</obj>" = true
             /\ PyStr.contains context1 "<decompress>mocked_sample</decompress>" = true
             /\ PyStr.contains context1 "<compress>" = false
             /\ PyStr.contains context2 "<obj id=decompressed>mocked_sample</obj>" = true
             /\ PyStr.contains context2 "BINGO: Compare the two objects and analyze" = true
             /\ PyStr.contains context2 "<think>mocked_sample</think>" = true
             /\ PyStr.contains context2 "<json>mocked_sample</json>" = true
         | _ => False
         end
  | _, _ => False
  end.
Proof. vm_compute. repeat split; reflexivity. Qed.

(** ** holoware.py: [trained_contexts] *)

Section TrainedContexts.

Import EvalSpec.

Lemma filter_nth_shift (b : bool) (flags : list bool) (n : nat) : forall a,
  List.filter (fun k => nth k (b :: flags) false) (seq (S a) n)
  = map S (List.filter (fun k => nth k flags false) (seq a n)).
Proof.
  induction n as [|n IH]; intros a; [done|].
  cbn [seq List.filter]. rewrite (IH (S a)).
  change (nth (S a) (b :: flags) false) with (nth a flags false).
  by destruct (nth a flags false).
Qed.

Lemma trues_from_filter (flags : list bool) : forall j,
  trues_from j flags
  = map (fun k => j + k) (List.filter (fun k => nth k flags false) (seq 0 (length flags))).
Proof.
  induction flags as [|b rest IH]; intros j; [done|].
  cbn [trues_from length seq List.filter].
  change (nth 0 (b :: rest) false) with b.
  rewrite filter_nth_shift, IH.
  destruct b; cbn [app map]; rewrite ?Nat.add_0_r, !map_map;
    [f_equal|]; apply map_ext; intros; lia.
Qed.

Lemma trained_contexts_loop_later (spans : list Span) : forall i current,
  trained_contexts_loop (S i) spans current = trues_from (S current) (reset_flags spans).
Proof.
  induction spans as [|s rest IH]; intros i current; [done|].
  destruct s; cbn [trained_contexts_loop reset_flags flat_map app]; rewrite ?IH; try done.
  change (0 <? S i) with true. cbn [trues_from].
  by rewrite Nat.add_1_r.
Qed.

End TrainedContexts.

(** C8: [trained_contexts] lists the indices of the contexts opened by a
    reset with [train=true], where the [k]-th encountered reset opens
    context [k] when the template begins with a reset and context [k+1]
    behind the implicit initial context otherwise; a template that begins
    with the training reset has index 0 in the list. *)
Theorem trained_contexts_are_trained_indices :
  (forall spans : Holoware, trained_contexts spans = EvalSpec.trained_indices spans)
  /\ (forall (b : SpanBase) (rest : Holoware),
        0 ∈ trained_contexts (ContextResetSpan b true :: rest)).
Proof.
  split.
  - intros spans. unfold trained_contexts, EvalSpec.trained_indices, EvalSpec.context_of_reset.
    destruct spans as [|s rest]; [done|].
    destruct s; cbn [trained_contexts_loop EvalSpec.begins_with_reset];
      rewrite trained_contexts_loop_later, trues_from_filter; try done.
    change (0 <? 0) with false.
    cbn [EvalSpec.reset_flags flat_map app length seq List.filter].
    match goal with |- context [nth 0 (?b :: ?l) false] =>
      change (nth 0 (b :: l) false) with b end.
    rewrite filter_nth_shift.
    destruct train; cbn [app map]; rewrite !map_map; f_equal;
      apply map_ext; intros; lia.
  - intros b rest. unfold trained_contexts. cbn [trained_contexts_loop].
    change (0 <? 0) with false. simpl. left.
Qed.

Example trained_contexts_of_the_compressor :
  trained_contexts
    [ContextResetSpan (fresh 0) true; TextSpan (fresh 1) "a";
     ContextResetSpan (fresh 2) true; TextSpan (fresh 3) "b";
     ContextResetSpan (fresh 4) false; TextSpan (fresh 5) "c"] = [0; 1]
  /\ trained_contexts
       [EgoSpan (named "") "user"; TextSpan (fresh 1) "hello";
        ContextResetSpan (fresh 2) true; TextSpan (fresh 3) "world"] = [1].
Proof. split; reflexivity. Qed.

(** ** holoware_handlers.py: the payload of a sample span *)

Section SamplePayload.

Import PyStr EvalSpec.

Lemma startswith_len s : forall p, startswith s p = true -> len p <= len s.
Proof.
  induction s as [|c s IH]; intros [|a p]; simpl; try done; try lia.
  destruct (Ascii.eqb a c); [|done]. intros H. apply IH in H. unfold len in *. lia.
Qed.

Lemma startswith_take s : forall p k, startswith (take k s) p = true -> startswith s p = true.
Proof.
  induction s as [|c s IH]; intros [|a p] [|k]; simpl; try done.
  destruct (Ascii.eqb a c); [|done]. apply IH.
Qed.

Lemma take_all s : forall n, len s <= n -> take n s = s.
Proof.
  induction s as [|c s IH]; intros [|n]; simpl; try done; try lia.
  intros H. rewrite IH; [done|]. unfold len in *. lia.
Qed.

Lemma len_drop s : forall n, len (drop n s) = len s - n.
Proof.
  induction s as [|c s IH]; intros [|n]; simpl; done.
Qed.

Lemma endswith_len s p : endswith s p = true -> len p <= len s.
Proof. unfold endswith. intros [H _]%andb_true_iff. by apply Nat.leb_le in H. Qed.

Lemma drop_ge s : forall n, len s <= n -> drop n s = "".
Proof.
  induction s as [|c s IH]; intros [|n]; simpl; try done; try lia.
  intros H. apply IH. unfold len in *. lia.
Qed.

Lemma slice_from s (a : nat) : slice s (Some (Z.of_nat a)) None = drop a s.
Proof.
  unfold slice, clamp.
  destruct (Z.ltb_spec (Z.of_nat a) 0); [lia|].
  destruct (le_lt_dec a (len s)).
  - replace (Z.to_nat _) with a by lia.
    apply take_all. rewrite len_drop. lia.
  - replace (Z.to_nat _) with (len s) by lia.
    rewrite !drop_ge by lia. by replace (len s - len s) with 0 by lia.
Qed.

Lemma slice_to_back s (b : nat) :
  0 < b -> b <= len s -> slice s None (Some (- Z.of_nat b)%Z) = take (len s - b) s.
Proof.
  intros Hb Hle. unfold slice, clamp.
  destruct (Z.ltb_spec (- Z.of_nat b) 0); [|lia].
  replace (Z.to_nat _) with (len s - b) by lia.
  by rewrite Nat.sub_0_r.
Qed.

Lemma slice_both s (a b : nat) :
  a <= len s -> 0 < b -> b <= len s ->
  slice s (Some (Z.of_nat a)) (Some (- Z.of_nat b)%Z) = take (len s - b - a) (drop a s).
Proof.
  intros Ha Hb Hle. unfold slice, clamp.
  destruct (Z.ltb_spec (- Z.of_nat b) 0); [|lia].
  destruct (Z.ltb_spec (Z.of_nat a) 0); [lia|].
  replace (Z.to_nat (Z.min (Z.max (Z.of_nat a) 0) (Z.of_nat (len s)))) with a by lia.
  by replace (Z.to_nat _) with (len s - b) by lia.
Qed.

Lemma sample_payload_strip_fence (F s : string) :
  nonempty F = true -> sample_payload F s = strip_fence F s.
Proof.
  intros HF. unfold sample_payload, strip_fence. rewrite HF.
  set (open_tag := "<" +:+ F +:+ ">"). set (close_tag := "</" +:+ F +:+ ">").
  assert (0 < len close_tag) as Hc by (unfold len; simpl; lia).
  destruct (startswith s open_tag) eqn:Hs; destruct (endswith s close_tag) eqn:He;
    cbn [andb].
  - apply slice_both; [by apply startswith_len| done | by apply endswith_len].
  - rewrite Hs, slice_from, Nat.sub_0_r.
    symmetry. apply take_all. rewrite len_drop. lia.
  - rewrite slice_to_back by (done || by apply endswith_len).
    destruct (startswith (take (len s - len close_tag) s) open_tag) eqn:Hs'.
    + apply startswith_take in Hs'. congruence.
    + by rewrite Nat.sub_0_r.
  - rewrite Hs. rewrite !Nat.sub_0_r. symmetry. apply take_all. done.
Qed.

Lemma drop_drop s : forall a b, drop a (drop b s) = drop (a + b) s.
Proof.
  induction s as [|c s IH]; intros a [|b]; simpl.
  - by destruct a.
  - by destruct a.
  - by rewrite Nat.add_0_r.
  - rewrite IH. by replace (a + S b) with (S (a + b)) by lia.
Qed.

Lemma endswith_drop s p n :
  n + len p <= len s -> endswith (drop n s) p = endswith s p.
Proof.
  intros Hn. unfold endswith. rewrite len_drop, drop_drop.
  replace (len s - n - len p + n) with (len s - len p) by lia.
  f_equal. destruct (Nat.leb_spec (len p) (len s - n)), (Nat.leb_spec (len p) (len s));
    done || lia.
Qed.

Lemma endswith_of_drop s p n : endswith (drop n s) p = true -> endswith s p = true.
Proof.
  intros H. destruct (le_lt_dec (n + len p) (len s)) as [Hle|Hgt].
  - by rewrite endswith_drop in H.
  - apply endswith_len in H. rewrite len_drop in H.
    assert (len p = 0) as Hp by lia. destruct p; [|done].
    unfold endswith. cbn [len String.length]. rewrite Nat.sub_0_r.
    rewrite (drop_ge s (len s)) by lia. done.
Qed.

(** When the two tags do not run into each other, stripping both is
    stripping one after the other. *)
Lemma strip_fence_sequential (F s : string) :
  let open_tag := "<" +:+ F +:+ ">" in
  let close_tag := "</" +:+ F +:+ ">" in
  len open_tag + len close_tag <= len s
  \/ startswith s open_tag = false \/ endswith s close_tag = false ->
  strip_fence F s = remove_suffix close_tag (remove_prefix open_tag s).
Proof.
  intros open_tag close_tag H. unfold strip_fence, remove_suffix, remove_prefix.
  fold open_tag close_tag.
  destruct (startswith s open_tag) eqn:Hs; destruct (endswith s close_tag) eqn:He.
  - destruct H as [H|[H|H]]; try done.
    rewrite endswith_drop, He by lia. rewrite len_drop. f_equal. lia.
  - destruct (endswith (drop (len open_tag) s) close_tag) eqn:He'.
    + apply endswith_of_drop in He'. congruence.
    + rewrite Nat.sub_0_r. apply take_all. rewrite len_drop. lia.
  - by rewrite Nat.sub_0_r.
  - rewrite !Nat.sub_0_r. by apply take_all.
Qed.

End SamplePayload.

(** C4: a sample span with id [X] and fence [F] whose sampler returns a
    non-empty string [s] leaves in [env[X]] the string [s] without its
    leading [<F>] and its trailing [</F>], when present, then stripped of
    whitespace. *)
Theorem sample_binds_stripped_payload
    (sample : Rollout -> list string -> option string)
    (registry : string -> option HoloClass)
    (h : Holophore) (base : SpanBase) (F s : string) :
  PyStr.nonempty (id base) = true ->
  PyStr.nonempty F = true ->
  PyStr.nonempty s = true ->
  sample (_rollout (add_masked h ("<" +:+ F +:+ ">"))) ["</" +:+ F +:+ ">"] = Some s ->
  exists h', handle sample registry h (SampleSpan base F) = Ok h'
    /\ env h' !! id base = Some (VStr (PyStr.strip (EvalSpec.strip_fence F s))).
Proof.
  intros Hid HF Hs Hsample. eexists. split; [reflexivity|].
  unfold handle_SampleSpan. rewrite HF, Hsample, Hs, Hid. cbn [negb].
  cbn [set_env env]. rewrite lookup_insert_eq.
  by rewrite sample_payload_strip_fence.
Qed.

Lemma sample_binds_stripped_payload_witness :
  exists h',
    handle (mock_sample "mocked_sample") no_registry (init [] ∅)
      (SampleSpan (mkBase (UuidStr "compressed") "compressed" [] ∅) "compress") = Ok h'
    /\ env h' !! "compressed" = Some (VStr "mocked_sample").
Proof.
  apply (sample_binds_stripped_payload (mock_sample "mocked_sample") no_registry (init [] ∅)
           (mkBase (UuidStr "compressed") "compressed" [] ∅) "compress" "mocked_sample");
    reflexivity.
Defined.

(** Without a fence the sample itself is bound, stripped. *)
Lemma sample_binds_stripped_sample_without_fence
    (sample : Rollout -> list string -> option string)
    (h : Holophore) (base : SpanBase) (s : string) :
  PyStr.nonempty (id base) = true ->
  PyStr.nonempty s = true ->
  sample (_rollout h) [] = Some s ->
  env (handle_SampleSpan sample h base "") !! id base = Some (VStr (PyStr.strip s)).
Proof.
  intros Hid Hs Hsample. unfold handle_SampleSpan. cbn [PyStr.nonempty].
  rewrite Hsample, Hs, Hid. cbn [negb set_env env]. by rewrite lookup_insert_eq.
Qed.

(** A fence whose tags overlap in the sample: both are present, and
    nothing is left. *)
Example sample_payload_overlap :
  PyStr.startswith "<></></>" "<></>" = true
  /\ PyStr.endswith "<></></>" "</></>" = true
  /\ sample_payload "></" "<></></>" = ""
  /\ EvalSpec.strip_fence "></" "<></></>" = "".
Proof. repeat split; reflexivity. Qed.

Example sample_payload_examples :
  sample_payload "think" "<think>a b</think>" = "a b"
  /\ sample_payload "think" " a b </think>" = " a b "
  /\ sample_payload "think" "<think>a b" = "a b"
  /\ sample_payload "think" "a b" = "a b"
  /\ sample_payload "" "<>a b</>" = "<>a b</>".
Proof. repeat split; reflexivity. Qed.

(** ** holophore.py and the handlers: what a span appends *)

Section Masks.

Import EvalSpec.

Lemma alter_last_concat {A : Type} (r : list (list A)) (ctx : list A) (x : A) :
  last r = Some ctx ->
  concat (alter (fun c => c ++ [x]) (length r - 1) r) = concat r ++ [x].
Proof.
  intros Hlast. apply last_Some in Hlast as [r' ->].
  rewrite length_app. cbn [length]. replace (length r' + 1 - 1) with (length r' + 0) by lia.
  rewrite alter_app_r. cbn [alter list_alter]. rewrite !concat_app. cbn [concat].
  by rewrite !app_nil_r, app_assoc.
Qed.

Lemma masks_add_frag h ty t : masks (add_frag h ty t) = masks h ++ [ty].
Proof.
  unfold add_frag, rollout_add_frag, masks.
  destruct (last (_rollout h)) as [ctx|] eqn:Hlast.
  - assert (forall h', _rollout h' = alter (fun c => c ++ [mkFrag t (Some (_ego h)) ty])
                                       (length (_rollout h) - 1) (_rollout h) ->
                      map type (concat (_rollout h')) = map type (concat (_rollout h)) ++ [ty]) as H.
    { intros h' ->. rewrite (alter_last_concat _ ctx) by done. by rewrite map_app. }
    cbn [_span set_rollout]. destruct (_span h); apply H; reflexivity.
  - apply last_None in Hlast. rewrite Hlast. cbn [_span set_rollout].
    by destruct (_span h).
Qed.

Lemma masks_new_context h : masks (new_context h) = masks h.
Proof.
  unfold masks, new_context, rollout_new_context. cbn [_rollout set_rollout].
  rewrite concat_app. cbn [concat]. by rewrite !app_nil_r.
Qed.

Lemma types_set_text r ref t :
  map type (concat (set_text r ref t)) = map type (concat r).
Proof.
  unfold set_text. destruct ref as [i j]. cbn [fst snd]. revert i.
  induction r as [|ctx r IH]; intros i; [done|].
  destruct i as [|i]; cbn [alter list_alter concat]; rewrite !map_app.
  - f_equal. clear. revert j. induction ctx as [|f ctx IH]; intros j; [done|].
    destruct j; cbn [alter list_alter map]; [done|]. f_equal. apply IH.
  - f_equal. apply IH.
Qed.

Lemma types_prepend_newlines n : forall r ref,
  map type (concat (prepend_newlines n r ref)) = map type (concat r).
Proof.
  induction n as [|n IH]; intros r ref; [done|]. cbn [prepend_newlines].
  rewrite IH. destruct (get_frag r ref); [apply types_set_text|done].
Qed.

Lemma types_append_newlines n : forall r ref,
  map type (concat (append_newlines n r ref)) = map type (concat r).
Proof.
  induction n as [|n IH]; intros r ref; [done|]. cbn [append_newlines].
  rewrite IH. destruct (get_frag r ref); [apply types_set_text|done].
Qed.

(** The whitespace pass changes texts only. *)
Lemma masks_optimize_block self i h : masks (optimize_block self i h) = masks h.
Proof.
  unfold optimize_block. destruct (i <? 2)%Z; [done|].
  destruct (tag_pattern_search _); [|done].
  destruct (head _); [|done]. destruct (last _); [|done].
  unfold masks. cbn [_rollout set_rollout].
  by rewrite types_append_newlines, types_prepend_newlines.
Qed.

Lemma masks_handle_ObjSpan var_ids : forall h,
  exists n, masks (handle_ObjSpan h var_ids) = masks h ++ replicate n FROZEN.
Proof.
  unfold handle_ObjSpan.
  induction var_ids as [|v rest IH]; intros h.
  - exists 0. by rewrite app_nil_r.
  - cbn [fold_left]. destruct (IH (handle_ObjSpan_step h v)) as [n Hn].
    unfold handle_ObjSpan_step in *. destruct (env h !! v).
    + exists (4 + n). rewrite Hn. unfold add_masked. rewrite !masks_add_frag.
      by rewrite <- !app_assoc.
    + by exists n.
Qed.

Lemma masks_handle_SampleSpan sample h base fence :
  masks (handle_SampleSpan sample h base fence) = masks h ++ opening fence
  \/ masks (handle_SampleSpan sample h base fence) = masks h ++ opening fence ++ [REINFORCE].
Proof.
  unfold handle_SampleSpan, opening.
  set (h0 := if PyStr.nonempty fence then _ else h).
  assert (masks h0 = masks h ++ (if PyStr.nonempty fence then [FROZEN] else [])) as H0.
  { subst h0. destruct (PyStr.nonempty fence); [apply masks_add_frag | by rewrite app_nil_r]. }
  destruct (sample _ _) as [s|]; [|by left].
  destruct (PyStr.nonempty s); cbn [negb]; [|by left].
  right. destruct (PyStr.nonempty (id base)); unfold add_reinforced;
    [change (masks (set_env ?h' _)) with (masks h')|];
    by rewrite masks_add_frag, H0, <- app_assoc.
Qed.

Lemma errors_add_frag h ty t : errors (add_frag h ty t) = errors h.
Proof.
  unfold add_frag. destruct (rollout_add_frag _ _ _ _) as [r ref].
  cbn [_span set_rollout]. by destruct (_span h).
Qed.

Lemma errors_handle_ObjSpan var_ids : forall h, errors (handle_ObjSpan h var_ids) = errors h.
Proof.
  unfold handle_ObjSpan. induction var_ids as [|v rest IH]; intros h; [done|].
  cbn [fold_left]. rewrite IH. unfold handle_ObjSpan_step.
  destruct (env h !! v); [|done]. unfold add_masked. by rewrite !errors_add_frag.
Qed.

Lemma errors_handle_SampleSpan sample h base fence :
  errors (handle_SampleSpan sample h base fence) = errors h.
Proof.
  unfold handle_SampleSpan.
  set (h0 := if PyStr.nonempty fence then _ else h).
  assert (errors h0 = errors h) as H0.
  { subst h0. destruct (PyStr.nonempty fence); [apply errors_add_frag | done]. }
  destruct (sample _ _) as [s|]; [|done].
  destruct (PyStr.nonempty s); cbn [negb]; [|done].
  destruct (PyStr.nonempty (id base)); unfold add_reinforced;
    [change (errors (set_env ?h' _)) with (errors h')|];
    by rewrite errors_add_frag.
Qed.

Lemma errors_optimize_block self i h : errors (optimize_block self i h) = errors h.
Proof.
  unfold optimize_block. destruct (i <? 2)%Z; [done|].
  destruct (tag_pattern_search _); [|done].
  destruct (head _); [|done]. by destruct (last _).
Qed.

End Masks.

(** ** The evaluator: the masks of the emitted fragments *)

Lemma Span_nested_ind (P : Span -> Prop) :
  (forall b t, P (ContextResetSpan b t)) ->
  (forall b e, P (EgoSpan b e)) ->
  (forall b f, P (SampleSpan b f)) ->
  (forall b t, P (TextSpan b t)) ->
  (forall b ids, P (ObjSpan b ids)) ->
  (forall b cn, P (ClassSpan b cn None)) ->
  (forall b cn spans, Forall P spans -> P (ClassSpan b cn (Some spans))) ->
  forall s, P s.
Proof.
  intros Hreset Hego Hsample Htext Hobj Hnone Hbody.
  fix IH 1. intros [b t|b e|b f|b t|b ids|b cn [spans|]];
    [apply Hreset | apply Hego | apply Hsample | apply Htext | apply Hobj | | apply Hnone].
  apply Hbody.
  revert spans. fix IHl 1. intros [|s rest]; constructor; [apply IH | apply IHl].
Qed.

Section Emission.

Import EvalSpec.

Variable sample : Rollout -> list string -> option string.
Variable registry : string -> option HoloClass.

Lemma rollout_instantiate h span h' :
  instantiate registry h span = Ok h' -> _rollout h' = _rollout h /\ errors h' = errors h.
Proof.
  unfold instantiate. destruct span; try (by intros [= <-]).
  destruct (get_class registry h class_name) as [[s|c]|]; [| |done].
  - done.
  - destruct (_is_holostatic c); [by intros [= <-]|].
    cbn [invoke_init]. destruct (construct c _ _) as [inst|]; [|done]. cbn.
    destruct (holo_init_hook inst) as [f|]; [destruct (f _)|]; by intros [= <-].
Qed.

Lemma rollout_instantiate_all spans : forall h h',
  instantiate_all registry h spans = Ok h' ->
  _rollout h' = _rollout h /\ errors h' = errors h.
Proof.
  induction spans as [|s rest IH]; intros h h'; cbn [instantiate_all].
  - by intros [= <-].
  - destruct (instantiate registry h s) as [h1|] eqn:E; [|done]. cbn.
    intros H. apply IH in H as [-> ->]. by apply rollout_instantiate in E.
Qed.

Lemma rollout_finish self h h' :
  finish self h = Ok h' -> _rollout h' = _rollout h /\ errors h' = errors h.
Proof.
  unfold finish. cbn [errors set_span].
  destruct (0 <? errors h); [done|].
  destruct (end_hooks _ _); [|done]. cbn.
  destruct (list_fragments _ _); [|done]. cbn.
  destruct (list_remove _ _); [|done]. cbn. by intros [= <-].
Qed.

Lemma main_walk_appends self spans :
  Forall (appends sample registry) spans ->
  forall i h h', main_walk (handle sample registry) self i spans h = Ok h' ->
    (exists ms, emits_all spans ms /\ masks h' = masks h ++ ms) /\ errors h' = errors h.
Proof.
  induction 1 as [|s rest Hs _ IH]; intros i h h'; cbn [main_walk].
  - intros [= <-]. split; [|done].
    exists []. split; [constructor | by rewrite app_nil_r].
  - destruct (handle sample registry (set_span h (Some s)) s) as [h1|] eqn:E; [|done].
    cbn. intros Hwalk.
    apply Hs in E as [(m & Hm & E) Ee]. apply IH in Hwalk as [(ms & Hms & Hwalk) Hwe].
    split.
    + exists (m ++ ms). split; [by constructor|].
      rewrite Hwalk, masks_optimize_block, E. by rewrite <- app_assoc.
    + by rewrite Hwe, errors_optimize_block, Ee.
Qed.

Lemma call_with_appends self h h' :
  Forall (appends sample registry) self ->
  call_with registry (handle sample registry) self h = Ok h' ->
  (exists ms, emits_all self ms /\ masks h' = masks h ++ ms) /\ errors h' = errors h.
Proof.
  intros Hself. unfold call_with.
  destruct (instantiate_all _ _ _) as [h1|] eqn:E1; [|done]. cbn.
  destruct (main_walk _ _ _ _ _) as [h2|] eqn:E2; [|done]. cbn.
  intros E3. apply rollout_instantiate_all in E1 as [E1 E1e].
  apply rollout_finish in E3 as [E3 E3e].
  apply (main_walk_appends _ _ Hself) in E2 as [(ms & Hms & E2) E2e].
  split.
  - exists ms. split; [done|]. unfold masks in *. by rewrite E3, E2, E1.
  - by rewrite E3e, E2e, E1e.
Qed.

Lemma handle_appends span : appends sample registry span.
Proof.
  induction span as [b t|b e|b f|b t|b ids|b cn|b cn spans IH] using Span_nested_ind;
    intros h h'; cbn [handle].
  - intros [= <-]. split; [|done]. exists []. split; [constructor|].
    unfold handle_ContextResetSpan.
    change (masks (set_ego ?x _)) with (masks x). by rewrite masks_new_context, app_nil_r.
  - intros [= <-]. split; [|done]. exists []. split; [constructor | by rewrite app_nil_r].
  - intros [= <-]. split; [|apply errors_handle_SampleSpan].
    destruct (masks_handle_SampleSpan sample h b f) as [E|E]; rewrite E;
      eexists; (split; [|reflexivity]); constructor.
  - intros [= <-]. split; [|apply errors_add_frag].
    exists [FROZEN]. split; [constructor | apply masks_add_frag].
  - intros [= <-]. split; [|apply errors_handle_ObjSpan].
    destruct (masks_handle_ObjSpan ids h) as [n E].
    exists (replicate n FROZEN). split; [constructor | done].
  - unfold handle_ClassSpan. destruct (get_class _ _ _); [|done].
    destruct (dict_get _ _) as [obj|]; [|done].
    case_bool_decide; [|done].
    destruct (invoke__holo__ _ _) as [ins|]; [|done]. cbn.
    destruct (PyStr.nonempty ins); intros [= <-].
    + split; [|apply errors_add_frag].
      exists (replicate 1 FROZEN). split; [constructor | apply masks_add_frag].
    + split; [|done].
      exists (replicate 0 FROZEN). split; [constructor | by rewrite app_nil_r].
  - unfold handle_ClassSpan. destruct (get_class _ _ _); [|done].
    destruct (dict_get _ _) as [obj|]; [|done].
    case_bool_decide.
    + destruct (invoke__holo__ _ _) as [ins|]; [|done]. cbn.
      destruct (PyStr.nonempty ins); intros [= <-].
      * split; [|apply errors_add_frag].
        exists (replicate 1 FROZEN). split; [constructor | apply masks_add_frag].
      * split; [|done].
        exists (replicate 0 FROZEN). split; [constructor | by rewrite app_nil_r].
    + intros E. apply call_with_appends in E as [(ms & Hms & E) Ee]; [|done].
      split; [|done]. exists ms. split; [by constructor | done].
Qed.

Lemma all_appends (spans : list Span) : Forall (appends sample registry) spans.
Proof. apply Forall_forall. intros span _. apply handle_appends. Qed.

(** No handler touches [errors]: the main walk ends with the count it
    started with. *)
Lemma main_walk_keeps_errors self i spans h h' :
  main_walk (handle sample registry) self i spans h = Ok h' -> errors h' = errors h.
Proof. intros H. by apply (main_walk_appends self spans (all_appends spans)) in H as [_ ?]. Qed.

End Emission.

(** ** holoware_handlers.py: [SpanHandler.ObjSpan] *)

Lemma handle_ObjSpan_none_present (h : Holophore) (var_ids : list string) :
  Forall (fun v => env h !! v = None) var_ids -> handle_ObjSpan h var_ids = h.
Proof.
  unfold handle_ObjSpan. induction 1 as [|v rest Hv _ IH]; [done|].
  cbn [fold_left]. unfold handle_ObjSpan_step at 2. by rewrite Hv.
Qed.

(** C1, on the code: the loop of the object handler has no exit, so every
    var_id that is present in [env] emits its four frozen fragments; here
    the object tag of the compressor template, with [text] and [original]
    both in [env], emits eight fragments instead of the four of [text]. *)
Theorem ObjSpan_emits_every_present_var :
  let env0 : gmap string PyVal :=
    <["text" := VStr "This is the original text."]>
      (<["original" := VStr "This is the original text."]> ∅) in
  exists h',
    run_holoware (mock_sample "mocked_sample") "<|o_o|><|text|original|input|data|>" env0
    = Ok h'
    /\ _rollout h'
       = [[mkFrag "<obj id=text>" (Some "user") FROZEN;
           mkFrag "This is the original text." (Some "user") FROZEN;
           mkFrag "</obj>" (Some "user") FROZEN;
           mkFrag PyStr.nl (Some "user") FROZEN;
           mkFrag "<obj id=original>" (Some "user") FROZEN;
           mkFrag "This is the original text." (Some "user") FROZEN;
           mkFrag "</obj>" (Some "user") FROZEN;
           mkFrag PyStr.nl (Some "user") FROZEN]].
Proof. eexists. split; vm_compute; reflexivity. Qed.

(** ** holoware_handlers.py: [SpanHandler.SampleSpan] without a sample *)

Lemma finish_raises_iff_errors (self : Holoware) (h : Holophore) :
  finish self h = Raise (RuntimeError "Failed to instantiate classes.") <-> 0 < errors h.
Proof.
  unfold finish. set (h' := set_span h None). change (errors h') with (errors h).
  destruct (Nat.ltb_spec 0 (errors h)) as [Hlt|Hge]; [done|].
  split; [|lia]. intros H. exfalso. revert H.
  assert (forall l, end_hooks h' l = Ok tt
                    \/ exists m, end_hooks h' l = Raise (ValueError m)) as He.
  { induction l as [|[uid t] l IH]; [by left|]. cbn [end_hooks].
    destruct (holo_end_hook t); [|done]. unfold find_span.
    destruct (find _ _); cbn; [done | right; eauto]. }
  assert (forall l, list_fragments h' l = Ok tt
                    \/ exists m, list_fragments h' l = Raise (ValueError m)) as Hl.
  { induction l as [|[uid t] l IH]; [by left|]. cbn [list_fragments]. unfold find_span.
    destruct (find _ _); cbn; [done | right; eauto]. }
  assert (forall l, (exists w, list_remove self l = Ok w)
                    \/ exists m, list_remove self l = Raise (ValueError m)) as Hr.
  { induction l as [|y l IH]; [right; eauto|]. cbn [list_remove].
    destruct (Holoware_eqb y self); [left; eauto|].
    destruct IH as [[w ->]|[m ->]]; cbn; eauto. }
  destruct (He (span_bindings h')) as [->|[m ->]]; [|done]. cbn [mbind result_bind].
  destruct (Hl (span_fragments h')) as [->|[m ->]]; [|done]. cbn [mbind result_bind].
  destruct (Hr (_holowares h')) as [[w ->]|[m ->]]; done.
Qed.

(** C2, as the code has it: a sample span whose sampler returns null or
    the empty string leaves the errors counter and [env] as they are and
    appends nothing after its opening fence tag; the main walk goes on with
    the next span; after the walk the evaluator raises its runtime error
    if and only if [errors > 0], and no span of the walk changes [errors]. *)
Theorem failed_sample_skips_rest_of_span
    (sample : Rollout -> list string -> option string)
    (registry : string -> option HoloClass)
    (self : Holoware) (i : nat) (base : SpanBase) (fence : string)
    (rest : list Span) (h : Holophore) :
  let span := SampleSpan base fence in
  let h1 := set_span h (Some span) in
  let h0 := if PyStr.nonempty fence then add_masked h1 ("<" +:+ fence +:+ ">") else h1 in
  let stop_sequences := if PyStr.nonempty fence then ["</" +:+ fence +:+ ">"] else [] in
  (sample (_rollout h0) stop_sequences = None
   \/ sample (_rollout h0) stop_sequences = Some "") ->
  errors h0 = errors h
  /\ env h0 = env h
  /\ main_walk (handle sample registry) self i (span :: rest) h
     = main_walk (handle sample registry) self (S i) rest
         (optimize_block self (Z.of_nat i - 1) h0)
  /\ (forall h2, finish self h2 = Raise (RuntimeError "Failed to instantiate classes.")
                 <-> 0 < errors h2)
  /\ (forall j spans h2 h3,
        main_walk (handle sample registry) self j spans h2 = Ok h3 -> errors h3 = errors h2).
Proof.
  intros span h1 h0 stops Hnull.
  assert (errors h0 = errors h /\ env h0 = env h) as [He Henv].
  { subst h0 h1. destruct (PyStr.nonempty fence); [|done].
    unfold add_masked, add_frag. destruct (rollout_add_frag _ _ _ _) as [r ref].
    cbn [_span set_rollout set_span]. done. }
  split; [done|]. split; [done|]. split; [|split].
  2: { intros h2. apply finish_raises_iff_errors. }
  2: { intros j spans h2 h3. apply main_walk_keeps_errors. }
  assert (handle_SampleSpan sample h1 base fence = h0) as E.
  { unfold handle_SampleSpan. fold h0 stops. by destruct Hnull as [-> | ->]. }
  change (main_walk (handle sample registry) self i (span :: rest) h)
    with (h' ← Ok (handle_SampleSpan sample h1 base fence);
          main_walk (handle sample registry) self (S i) rest
            (optimize_block self (Z.of_nat i - 1) h')).
  by rewrite E.
Qed.

Lemma failed_sample_skips_rest_of_span_witness :
  main_walk (handle (fun _ _ => None) no_registry)
    [SampleSpan (named "") "think"; TextSpan (fresh 0) "after"] 0
    [SampleSpan (named "") "think"; TextSpan (fresh 0) "after"] (init [] ∅)
  = main_walk (handle (fun _ _ => None) no_registry)
      [SampleSpan (named "") "think"; TextSpan (fresh 0) "after"] 1
      [TextSpan (fresh 0) "after"]
      (optimize_block [SampleSpan (named "") "think"; TextSpan (fresh 0) "after"] (-1)
         (add_masked (set_span (init [] ∅) (Some (SampleSpan (named "") "think"))) "<think>")).
Proof.
  apply (failed_sample_skips_rest_of_span (fun _ _ => None) no_registry
           [SampleSpan (named "") "think"; TextSpan (fresh 0) "after"] 0
           (named "") "think" [TextSpan (fresh 0) "after"] (init [] ∅)).
  left. reflexivity.
Defined.

(** C2, as stated, fails: a sampler that returns null is not counted; the
    errors counter stays 0 and the evaluation ends without an exception. *)
Lemma failed_sample_is_not_counted :
  let h := init [] ∅ in
  errors (handle_SampleSpan (fun _ _ => None) h (named "") "think") <> S (errors h)
  /\ exists h', run_holoware (fun _ _ => None) "<|@_@ <>think|>" ∅ = Ok h'
                /\ errors h' = 0
                /\ _rollout h' = [[mkFrag "<think>" (Some "assistant") FROZEN]].
Proof.
  split; [vm_compute; discriminate|].
  eexists. split; [vm_compute; reflexivity | split; reflexivity].
Qed.

(** ** holoware.py: think tags *)

(** C3, on the code: [optimize_think_tags] is defined inside [__call__]
    and never called, so the evaluator leaves an empty think block as the
    template has it. *)
Theorem think_tags_are_not_collapsed :
  let think := "<think> " +:+ PyStr.nl +:+ " </think>" in
  exists h',
    run_holoware (mock_sample "mocked_sample") ("<|@_@|>" +:+ think) ∅ = Ok h'
    /\ _rollout h' = [[mkFrag think (Some "assistant") FROZEN]].
Proof. eexists. split; vm_compute; reflexivity. Qed.

(** ** The masks of the fragments *)

(** C5, as the code has it: the fragments a span emits carry these masks:
    a sample span emits its opening fence tag frozen, when it has a fence,
    and then its sample reinforced; every other span (text, object, class
    with a [__holo__] hook) emits frozen fragments only, a class span
    evaluated through its body emits what the spans of the body emit; the
    whitespace pass changes no mask. *)
Theorem emitted_masks
    (sample : Rollout -> list string -> option string)
    (registry : string -> option HoloClass)
    (self : Holoware) (h h' : Holophore) :
  call sample registry self h = Ok h' ->
  exists ms, EvalSpec.emits_all self ms /\ EvalSpec.masks h' = EvalSpec.masks h ++ ms.
Proof.
  intros Hcall.
  by apply (call_with_appends sample registry self h h' (all_appends sample registry self))
    in Hcall as [? _].
Qed.

Lemma emitted_masks_witness :
  exists ms, EvalSpec.emits_all across_contexts ms
    /\ [FROZEN; FROZEN; REINFORCE; FROZEN; FROZEN; FROZEN; FROZEN; FROZEN] = [] ++ ms.
Proof.
  assert (exists h', call (mock_sample "mocked_sample") no_registry across_contexts (init [] ∅)
                     = Ok h'
                     /\ EvalSpec.masks h'
                        = [FROZEN; FROZEN; REINFORCE; FROZEN; FROZEN; FROZEN; FROZEN; FROZEN])
    as (h' & Hcall & Hmasks).
  { eexists. split; vm_compute; reflexivity. }
  rewrite <- Hmasks.
  apply (emitted_masks (mock_sample "mocked_sample") no_registry across_contexts (init [] ∅) h').
  exact Hcall.
Defined.

(** C5, as stated, fails: the opening fence tag is emitted by the sample
    span (it is recorded under the span in [span_fragments]) and is frozen. *)
Lemma sample_span_emits_frozen_fence :
  exists ego_span sample_span h' first,
    Parser.parse "<|@_@ <>test|>" = Ok [ego_span; sample_span]
    /\ sample_span = SampleSpan (named "") "test"
    /\ run_holoware (mock_sample "mocked_sample") "<|@_@ <>test|>" ∅ = Ok h'
    /\ dict_get (span_fragments h') (span_uuid sample_span) = Some [first; (0, 1)]
    /\ get_frag (_rollout h') first = Some (mkFrag "<test>" (Some "assistant") FROZEN)
    /\ type <$> get_frag (_rollout h') first <> Some REINFORCE.
Proof.
  do 4 eexists. repeat split; try (vm_compute; reflexivity).
  vm_compute. discriminate.
Qed.

(** ** holoware_parser.py: plain text *)

Section PlainText.

Import PyStr.

Lemma find_from_absent s sub : forall pos, contains s sub = false -> find_from s sub pos = None.
Proof.
  induction s as [|c r IH]; intros pos; cbn [contains find_from];
    intros [-> H]%orb_false_iff; [done|]. by apply IH.
Qed.

Lemma find_absent s sub : contains s sub = false -> find s sub 0 = (-1)%Z.
Proof.
  intros H. unfold find. cbn [drop]. by rewrite find_from_absent.
Qed.

Lemma replace_absent s old new : contains s old = false -> replace s old new = s.
Proof.
  unfold replace. induction s as [|c r IH]; [done|].
  cbn [contains replace_go]. intros [-> H]%orb_false_iff. by rewrite IH.
Qed.

Lemma split_nonempty ch s : split ch s <> [].
Proof.
  destruct s as [|c r]; [done|]. cbn [split].
  destruct (Ascii.eqb c ch); [done|]. by destruct (split ch r).
Qed.

Lemma join_split ch s : join (String ch "") (split ch s) = s.
Proof.
  induction s as [|c r IH]; [done|]. cbn [split].
  destruct (Ascii.eqb_spec c ch) as [->|Hne].
  - pose proof (split_nonempty ch r) as Hr.
    change (join (String ch "") ("" :: split ch r))
      with (match split ch r with
            | [] => ""
            | _ => "" +:+ String ch "" +:+ join (String ch "") (split ch r)
            end).
    destruct (split ch r); [done|]. by rewrite IH.
  - destruct (split ch r) as [|x l] eqn:E; [by apply split_nonempty in E|].
    rewrite <- IH. by destruct l.
Qed.

Lemma filter_all {A : Type} (P : A -> bool) (l : list A) :
  forallb P l = true -> List.filter P l = l.
Proof.
  induction l as [|x l IH]; [done|]. cbn [forallb List.filter].
  intros [-> H]%andb_true_iff. by rewrite IH.
Qed.

Lemma filter_comments_none content :
  forallb (fun line => negb (startswith (strip line) "#")) (split "010" content) = true ->
  Parser.filter_comments content = content.
Proof.
  intros H. unfold Parser.filter_comments. rewrite filter_all by done. apply join_split.
Qed.

(** What [parse] makes of a source without a tag opener. *)
Lemma parse_without_tag content :
  let code := Parser.filter_comments content in
  let text := replace (replace code "\\" "\") "\<|" "<|" in
  contains code "<|" = false ->
  Parser.parse content
  = Ok (if nonempty (strip text) then [TextSpan (Parser.new_base 0) text] else []).
Proof.
  intros code text Hno. unfold Parser.parse. cbn [Parser.parse_nested].
  unfold Parser.parse_with. fold code. cbn [Parser.code].
  cbn [Parser.parse_loop Parser.pos Parser.code].
  destruct code as [|c r] eqn:Ecode.
  - reflexivity.
  - change (0 <? len (String c r)) with true. cbv iota.
    unfold Parser._find_next_span_start. cbn [Parser.code Parser.pos].
    cbn [Parser._find_next_span_start_from]. rewrite (find_absent _ _ Hno).
    cbv iota beta. change ((-1 =? -1)%Z) with true. cbv iota.
    cbn [drop]. unfold Parser._parse_text. cbn [nonempty negb]. fold text.
    destruct text as [|c' r'] eqn:Etext; [reflexivity|].
    cbn [nonempty negb]. unfold Parser._add_span.
    cbn [Parser.ware last Parser.has_ego Parser.ego Parser.set_counter negb andb
         Parser.is_content_span mbind result_bind].
    destruct (nonempty (strip (String c' r'))); reflexivity.
Qed.

End PlainText.

(** C6, as the code has it: a string without a tag opener, without a
    doubled backslash, without a full-line comment and with a character
    that is no whitespace parses to exactly one text span, whose text is
    the string. *)
Theorem plain_text_parses_to_one_text_span (S : string) :
  PyStr.contains S "<|" = false ->
  PyStr.contains S "\\" = false ->
  forallb (fun line => negb (PyStr.startswith (PyStr.strip line) "#")) (PyStr.split "010" S)
  = true ->
  PyStr.nonempty (PyStr.strip S) = true ->
  Parser.parse S = Ok [TextSpan (mkBase (Uuid4 0) "" [] ∅) S].
Proof.
  intros Htag Hbs Hcomment Hcontent.
  pose proof (parse_without_tag S) as H. cbv zeta in H.
  rewrite (filter_comments_none S Hcomment) in H.
  rewrite (replace_absent S _ _ Hbs) in H.
  assert (PyStr.contains S "\<|" = false) as Hesc.
  { clear -Htag. induction S as [|c r IH]; [done|].
    cbn [PyStr.contains] in *. apply orb_false_iff in Htag as [H1 H2].
    rewrite (IH H2), orb_false_r.
    cbn [PyStr.startswith]. destruct (Ascii.eqb "\" c); [|done].
    destruct r as [|c' r']; [done|]. cbn [PyStr.contains] in H2.
    by apply orb_false_iff in H2 as [-> _]. }
  rewrite (replace_absent S _ _ Hesc) in H.
  rewrite Hcontent in H. by apply H.
Qed.

Lemma plain_text_parses_to_one_text_span_witness :
  Parser.parse "Hello, world!" = Ok [TextSpan (mkBase (Uuid4 0) "" [] ∅) "Hello, world!"].
Proof.
  apply (plain_text_parses_to_one_text_span "Hello, world!"); reflexivity.
Defined.

(** C6, as stated, fails: each of these strings has no tag opener and no
    trailing backslash, and parses to no span at all, or to a text span
    with another text. *)
Lemma plain_text_is_not_always_one_span :
  (PyStr.contains "" "<|" = false /\ PyStr.endswith "" "\" = false
   /\ Parser.parse "" = Ok [])
  /\ (PyStr.contains "   " "<|" = false /\ PyStr.endswith "   " "\" = false
      /\ Parser.parse "   " = Ok [])
  /\ (PyStr.contains "# note" "<|" = false /\ PyStr.endswith "# note" "\" = false
      /\ Parser.parse "# note" = Ok [])
  /\ (PyStr.contains "a\\b" "<|" = false /\ PyStr.endswith "a\\b" "\" = false
      /\ Parser.parse "a\\b" = Ok [TextSpan (mkBase (Uuid4 0) "" [] ∅) "a\b"]).
Proof. repeat split; vm_compute; reflexivity. Qed.

(** ** holoware_parser.py: the id suffix of a tag *)

(** C7, on the code: only [_build_ego_or_sampler] splits the base at the
    colon, and it is reached only through a fence keyword or a bare ego
    sigil; a class, object or reset base keeps its suffix and the span's
    id stays empty, and an ego sigil with a suffix alone is read as an
    object. *)
Theorem id_suffix_is_split_for_samplers_only :
  Parser.build_span 0 "MyClass:foo"
  = Ok ([ClassSpan (mkBase (Uuid4 0) "" [] ∅) "MyClass:foo" None], 1)
  /\ Parser.build_span 0 "a:b" = Ok ([ObjSpan (mkBase (Uuid4 0) "" [] ∅) ["a:b"]], 1)
  /\ Parser.build_span 0 "+++:x" = Ok ([ObjSpan (mkBase (Uuid4 0) "" [] ∅) ["+++:x"]], 1)
  /\ Parser.build_span 0 "o_o:me" = Ok ([ObjSpan (mkBase (Uuid4 0) "" [] ∅) ["o_o:me"]], 1)
  /\ Parser.build_span 0 "@_@:compressed <>compress"
     = Ok ([EgoSpan (mkBase (UuidStr "compressed") "" [] ∅) "assistant";
            SampleSpan (mkBase (UuidStr "compressed") "compressed" [] ∅) "compress"], 0).
Proof. repeat split; vm_compute; reflexivity. Qed.

(** ** holoware_parser.py: the loops of the model are not cut short *)

Section ParserTotal.

Import PyStr.

Lemma find_from_bounds s sub : forall p i,
  find_from s sub p = Some i -> p <= i /\ i + len sub <= p + len s.
Proof.
  induction s as [|c r IH]; intros p i; cbn [find_from].
  - destruct sub; cbn; [|done]. intros [= <-]. cbn. lia.
  - destruct (startswith (String c r) sub) eqn:E.
    + intros [= <-]. apply startswith_len in E. lia.
    + intros H. apply IH in H. unfold len in *. cbn [String.length]. lia.
Qed.

Lemma find_bounds s sub pos :
  0 < len sub -> find s sub pos <> (-1)%Z ->
  (0 <= find s sub pos)%Z
  /\ pos <= Z.to_nat (find s sub pos)
  /\ Z.to_nat (find s sub pos) + len sub <= len s.
Proof.
  intros Hsub. unfold find.
  destruct (find_from (drop pos s) sub pos) as [i|] eqn:E; [|done]. intros _.
  apply find_from_bounds in E. rewrite len_drop in E. lia.
Qed.

Lemma find_next_bounds fuel code : forall pos,
  Parser._find_next_span_start_from fuel code pos <> (-1)%Z ->
  (0 <= Parser._find_next_span_start_from fuel code pos)%Z
  /\ pos <= Z.to_nat (Parser._find_next_span_start_from fuel code pos)
  /\ Z.to_nat (Parser._find_next_span_start_from fuel code pos) + 2 <= len code.
Proof.
  induction fuel as [|fuel IH]; intros pos; cbn [Parser._find_next_span_start_from]; [done|].
  destruct (Z.eqb_spec (find code "<|" pos) (-1)) as [|Hne]; [done|].
  pose proof (find_bounds code "<|" pos ltac:(cbn; lia) Hne) as (H0 & H1 & H2).
  destruct (Nat.odd _); [|done].
  intros H. apply IH in H. lia.
Qed.

Lemma len_join_empty l : len (join "" l) = list_sum (map len l).
Proof.
  induction l as [|x l IH]; [done|].
  change (list_sum (map len (x :: l))) with (len x + list_sum (map len l)).
  rewrite <- IH. destruct l as [|y l]; [cbn [join]; unfold len; cbn [String.length]; lia|].
  change (join "" (x :: y :: l)) with (x +:+ "" +:+ join "" (y :: l)).
  by rewrite !len_app.
Qed.

Lemma len_snoc s c : len (Parser.snoc s c) = S (len s).
Proof. unfold Parser.snoc. rewrite len_app. cbn. lia. Qed.

Lemma len_splitlines_go n : forall s cur,
  len s <= n -> list_sum (map len (Parser.splitlines_go s cur)) = len cur + len s.
Proof.
  induction n as [|n IH]; intros s cur Hn.
  - destruct s; [|cbn in Hn; lia]. cbn [Parser.splitlines_go].
    destruct cur; cbn; lia.
  - destruct s as [|c r]; [cbn [Parser.splitlines_go]; destruct cur; cbn; lia|].
    assert (len r <= n) as Hr by (unfold len in *; cbn [String.length] in Hn; lia).
    cbn [Parser.splitlines_go].
    destruct (Ascii.eqb c "013").
    + destruct r as [|c' r'].
      * cbn [map list_sum fold_right]. rewrite IH, len_snoc by done.
        unfold len; cbn [String.length]; lia.
      * assert (len r' <= n) as Hr'
          by (unfold len in *; cbn [String.length] in Hr; lia).
        destruct c' as [[] [] [] [] [] [] [] []];
          cbn [map list_sum fold_right]; rewrite IH by done;
          rewrite ?len_snoc, ?len_app; unfold len; cbn [String.length]; lia.
    + destruct (Parser.is_linebreak c); cbn [map list_sum fold_right];
        rewrite IH by done; rewrite ?len_snoc; unfold len; cbn [String.length]; lia.
Qed.

Lemma len_splitlines s : list_sum (map len (Parser.splitlines s)) = len s.
Proof. unfold Parser.splitlines. by rewrite (len_splitlines_go (len s)). Qed.

Lemma len_block_lines_of k lines :
  list_sum (map len (Parser.block_lines_of k lines)) <= list_sum (map len lines).
Proof.
  induction lines as [|l lines IH]; [done|]. cbn [Parser.block_lines_of].
  change (list_sum (map len (l :: lines))) with (len l + list_sum (map len lines)).
  destruct (negb _).
  - change (list_sum (map len (l :: ?x))) with (len l + list_sum (map len x)). lia.
  - destruct (k <=? _).
    + change (list_sum (map len (l :: ?x))) with (len l + list_sum (map len x)). lia.
    + cbn. lia.
Qed.

Lemma len_join_le sep l l' :
  Forall2 (fun a b => len a <= len b) l l' -> len (join sep l) <= len (join sep l').
Proof.
  induction 1 as [|x y l l' Hxy Hl IH]; [done|].
  destruct Hl as [|x' y' l l' Hxy' Hl]; [done|].
  change (join sep (x :: x' :: l)) with (x +:+ sep +:+ join sep (x' :: l)).
  change (join sep (y :: y' :: l')) with (y +:+ sep +:+ join sep (y' :: l')).
  rewrite !len_app. lia.
Qed.

Lemma len_dedent text : len (Parser.dedent text) <= len text.
Proof.
  unfold Parser.dedent.
  set (lines := split "010" text).
  set (lines' := map _ lines).
  assert (Forall2 (fun a b => len a <= len b) lines' lines) as H1.
  { subst lines'. induction lines as [|l lines IH]; constructor; [|done].
    destruct (_ && _); [cbn; lia | done]. }
  assert (len (join nl lines) = len text) as Ht.
  { subst lines. unfold nl. by rewrite join_split. }
  rewrite <- Ht.
  assert (forall f : string -> string, (forall l, len (f l) <= len l) ->
            len (join nl (map f lines')) <= len (join nl lines)) as H2.
  { intros f Hf. apply len_join_le.
    clear -H1 Hf. induction H1 as [|x y l l' Hxy Hl IH]; constructor; [|done].
    specialize (Hf x). lia. }
  destruct (fold_left _ _ _) as [[|c m]|].
  - by apply len_join_le.
  - apply H2. intros l. destruct (startswith l _); [|done]. rewrite len_drop. lia.
  - by apply len_join_le.
Qed.

Lemma len_filter_join (P : string -> bool) l :
  len (join nl (List.filter P l)) <= len (join nl l).
Proof.
  induction l as [|x l IH]; [done|]. cbn [List.filter].
  assert (len (join nl l) <= len (join nl (x :: l))) as Hx.
  { destruct l as [|y l]; [cbn; lia|].
    change (join nl (x :: y :: l)) with (x +:+ nl +:+ join nl (y :: l)).
    rewrite !len_app. lia. }
  destruct (P x); [|lia].
  destruct (List.filter P l) as [|y' l'] eqn:E.
  - destruct l as [|y l]; [done|].
    change (join nl (x :: y :: l)) with (x +:+ nl +:+ join nl (y :: l)).
    rewrite !len_app. cbn [join]. lia.
  - destruct l as [|y l]; [done|].
    change (join nl (x :: y' :: l')) with (x +:+ nl +:+ join nl (y' :: l')).
    change (join nl (x :: y :: l)) with (x +:+ nl +:+ join nl (y :: l)).
    rewrite !len_app. lia.
Qed.

Lemma len_filter_comments content : len (Parser.filter_comments content) <= len content.
Proof.
  unfold Parser.filter_comments.
  etransitivity; [apply len_filter_join|]. unfold nl. by rewrite join_split.
Qed.

Lemma bind_not_cut {A B : Type} (r : result A) (f : A -> result B) :
  r <> Raise OutOfFuel -> (forall a, r = Ok a -> f a <> Raise OutOfFuel) ->
  (r ≫= f) <> Raise OutOfFuel.
Proof.
  destruct r as [a|e]; cbn; intros H1 H2; [by apply H2|].
  intros [= ->]. by apply H1.
Qed.

Lemma shlex_go_not_cut s : forall st tok q, Parser.shlex_go s st tok q <> Raise OutOfFuel.
Proof.
  induction s as [|c r IH]; intros st tok q; cbn [Parser.shlex_go].
  - by destruct st.
  - destruct st; repeat case_match; try apply IH.
    apply bind_not_cut; [apply IH | done].
Qed.

Lemma parse_parts_not_cut parts : forall acc, Parser.parse_parts parts acc <> Raise OutOfFuel.
Proof.
  induction parts as [|part rest IH]; intros acc; cbn [Parser.parse_parts]; [done|].
  apply bind_not_cut; [|intros; apply IH].
  unfold Parser.parse_part. by repeat case_match.
Qed.

Lemma build_span_not_cut counter spantext :
  Parser.build_span counter spantext <> Raise OutOfFuel.
Proof.
  unfold Parser.build_span. case_match; [done|].
  apply bind_not_cut.
  - unfold Parser.parse_span_tag. apply bind_not_cut; [apply shlex_go_not_cut|].
    intros [|base rest] _; [done|].
    apply bind_not_cut; [apply parse_parts_not_cut|]. by intros [? ?] _.
  - intros [[base kargs] kwargs] _. by repeat case_match.
Qed.

(** A step of the parser that keeps the source and the position. *)
Lemma _add_span_keeps p span :
  Parser._add_span p span <> Raise OutOfFuel
  /\ forall p', Parser._add_span p span = Ok p' ->
       Parser.code p' = Parser.code p /\ Parser.pos p' = Parser.pos p.
Proof.
  unfold Parser._add_span, Parser._add_implicit_ego_if_needed.
  split; [|intros p'];
    repeat (case_match; simplify_eq; cbn [mbind result_bind] in *); try done;
    intros; simplify_eq; done.
Qed.

Lemma _add_spans_keeps spanbuf : forall p,
  Parser._add_spans p spanbuf <> Raise OutOfFuel
  /\ forall p', Parser._add_spans p spanbuf = Ok p' ->
       Parser.code p' = Parser.code p /\ Parser.pos p' = Parser.pos p.
Proof.
  induction spanbuf as [|span rest IH]; intros p; cbn [Parser._add_spans].
  - split; [done|]. by intros p' [= <-].
  - destruct (_add_span_keeps p span) as [Hcut Hkeep].
    destruct (Parser._add_span p span) as [p1|e]; cbn; [|done].
    destruct (Hkeep p1 eq_refl) as [<- <-]. apply IH.
Qed.

Lemma _parse_text_keeps p text :
  Parser._parse_text p text <> Raise OutOfFuel
  /\ forall p', Parser._parse_text p text = Ok p' ->
       Parser.code p' = Parser.code p /\ Parser.pos p' = Parser.pos p.
Proof.
  unfold Parser._parse_text. repeat case_match; try (split; [done|]; by intros p' [= <-]).
  match goal with
  | |- Parser._add_span ?q ?span <> _ /\ _ =>
      destruct (_add_span_keeps q span) as [Hcut Hkeep]
  end.
  split; [done|]. intros p' Hp'. by apply Hkeep in Hp'.
Qed.

Lemma read_until_span_end_moves p :
  Parser.read_until_span_end p <> Raise OutOfFuel
  /\ forall t p', Parser.read_until_span_end p = Ok (t, p') ->
       Parser.code p' = Parser.code p
       /\ Parser.pos p + 4 <= Parser.pos p' <= len (Parser.code p).
Proof.
  unfold Parser.read_until_span_end. case_match; [done|].
  destruct (Z.eqb_spec (find (Parser.code p) "|>" (Parser.pos p + 2)) (-1)) as [|Hne]; [done|].
  split; [done|]. intros t p' [= <- <-]. cbn [Parser.code Parser.pos Parser.set_pos].
  pose proof (find_bounds _ "|>" _ ltac:(cbn; lia) Hne) as (H0 & H1 & H2).
  cbn in H2. split; [done|]. lia.
Qed.

Lemma _read_indented_block_content_bounds code start_pos block end_pos :
  start_pos <= len code ->
  Parser._read_indented_block_content code start_pos = (Some block, end_pos) ->
  start_pos <= end_pos <= len code /\ len block <= len code - start_pos.
Proof.
  intros Hstart. unfold Parser._read_indented_block_content.
  pose proof (len_splitlines (drop start_pos code)) as Hlines. rewrite len_drop in Hlines.
  destruct (Parser.splitlines (drop start_pos code)) as [|first rest]; [done|].
  change (list_sum (map len (first :: rest))) with (len first + list_sum (map len rest))
    in Hlines.
  destruct (negb (nonempty (strip first))).
  - destruct rest as [|first' rest']; [done|]. case_match; [done|].
    pose proof (len_block_lines_of (Parser.line_indent first') (first' :: rest')) as Hb.
    destruct (Parser.block_lines_of _ _) as [|b bs] eqn:E; [done|].
    intros [= <- <-].
    change (match bs with [] => b | _ :: _ => b +:+ "" +:+ join "" bs end)
      with (join "" (b :: bs)).
    rewrite len_join_empty. lia.
  - case_match; [done|].
    pose proof (len_block_lines_of (Parser.line_indent first) (first :: rest)) as Hb.
    destruct (Parser.block_lines_of _ _) as [|b bs] eqn:E; [done|].
    intros [= <- <-].
    change (match bs with [] => b | _ :: _ => b +:+ "" +:+ join "" bs end)
      with (join "" (b :: bs)).
    rewrite len_join_empty.
    change (list_sum (map len (first :: rest))) with (len first + list_sum (map len rest))
      in Hb. lia.
Qed.

Section Nested.

Variable parse_block : string -> nat -> result (Holoware * nat).
Variable bound : nat.
Hypothesis parse_block_not_cut :
  forall s c, len s < bound -> parse_block s c <> Raise OutOfFuel.

Lemma _parse_indented_block_moves p :
  1 <= Parser.pos p <= len (Parser.code p) -> len (Parser.code p) <= bound ->
  Parser._parse_indented_block parse_block p <> Raise OutOfFuel
  /\ forall body new_pos c,
       Parser._parse_indented_block parse_block p = Ok (body, new_pos, c) ->
       Parser.pos p <= new_pos <= len (Parser.code p).
Proof.
  intros Hpos Hbound. unfold Parser._parse_indented_block.
  destruct (Parser._read_indented_block_content _ _) as [[block|] end_pos] eqn:E.
  - apply _read_indented_block_content_bounds in E as [He Hb]; [|lia].
    case_match; [split; [done|]; intros ??? [= <- <- <-]; lia|].
    pose proof (len_dedent block) as Hd.
    pose proof (parse_block_not_cut (Parser.dedent block) (Parser.counter p) ltac:(lia)) as Hcut.
    destruct (parse_block _ _) as [[body c]|e]; cbn.
    + split; [done|]. intros ??? [= <- <- <-]. lia.
    + split; [|done]. intros [= ->]. by apply Hcut.
  - split; [done|]. intros ??? [= <- <- <-]. lia.
Qed.

Lemma _parse_span_moves p spantext :
  1 <= Parser.pos p <= len (Parser.code p) -> len (Parser.code p) <= bound ->
  Parser._parse_span parse_block p spantext <> Raise OutOfFuel
  /\ forall p', Parser._parse_span parse_block p spantext = Ok p' ->
       Parser.code p' = Parser.code p
       /\ Parser.pos p <= Parser.pos p' <= len (Parser.code p).
Proof.
  intros Hpos Hbound. unfold Parser._parse_span.
  pose proof (build_span_not_cut (Parser.counter p) spantext) as Hb.
  destruct (Parser.build_span _ _) as [[spanbuf counter]|e]; cbn [mbind result_bind];
    [|split; [intros [= ->]; by apply Hb | done]].
  destruct (_add_spans_keeps spanbuf (Parser.set_counter p counter)) as [Hcut Hkeep].
  destruct (Parser._add_spans _ _) as [p1|e]; cbn [mbind result_bind]; [|done].
  destruct (Hkeep p1 eq_refl) as [Hc Hp]. cbn [Parser.code Parser.pos Parser.set_counter] in Hc, Hp.
  assert (forall q, q = Ok p1 ->
            q <> Raise OutOfFuel
            /\ forall p', q = Ok p' ->
                 Parser.code p' = Parser.code p
                 /\ Parser.pos p <= Parser.pos p' <= len (Parser.code p)) as Hsame.
  { intros q ->. split; [done|]. intros p' [= <-]. rewrite Hp. split; [done | lia]. }
  destruct (last (Parser.ware p1)) as [[| | | | |b cn body]|]; try by apply Hsame.
  destruct (_parse_indented_block_moves p1) as [Hcut' Hmove]; [rewrite ?Hc, ?Hp; lia..|].
  destruct (Parser._parse_indented_block parse_block p1) as [[[body' new_pos] c]|e];
    cbn [mbind result_bind]; [|split; [intros [= ->]; by apply Hcut' | done]].
  specialize (Hmove _ _ _ eq_refl). rewrite Hc, Hp in Hmove.
  split; [by destruct body'|]. intros p'.
  destruct body'; intros [= <-];
    cbn [Parser.code Parser.pos Parser.set_pos Parser.set_ware Parser.set_counter];
    rewrite ?Hc, ?Hp; (split; [done | lia]).
Qed.

Lemma parse_loop_not_cut fuel : forall p,
  Parser.pos p <= len (Parser.code p) ->
  len (Parser.code p) < fuel + Parser.pos p ->
  len (Parser.code p) <= bound ->
  Parser.parse_loop parse_block fuel p <> Raise OutOfFuel.
Proof.
  induction fuel as [|fuel IH]; intros p Hpos Hfuel Hbound; [lia|].
  cbn [Parser.parse_loop]. case_match; [|done].
  pose proof (find_next_bounds (S (len (Parser.code p))) (Parser.code p) (Parser.pos p)) as Hn.
  unfold Parser._find_next_span_start.
  destruct (Z.eqb_spec (Parser._find_next_span_start_from (S (len (Parser.code p)))
                          (Parser.code p) (Parser.pos p)) (-1)) as [|Hne].
  { apply _parse_text_keeps. }
  destruct (Hn Hne) as (H0 & H1 & H2).
  set (next := Z.to_nat _) in *.
  apply bind_not_cut.
  { case_match; [apply _parse_text_keeps | done]. }
  intros p1 Hp1.
  assert (Parser.code p1 = Parser.code p) as Hc1.
  { revert Hp1. case_match; [apply _parse_text_keeps | by intros [= <-]]. }
  destruct (read_until_span_end_moves (Parser.set_pos p1 next)) as [Hcut Hmove].
  destruct (Parser.read_until_span_end _) as [[t p2]|e]; cbn [mbind result_bind];
    [|intros [= ->]; by apply Hcut].
  destruct (Hmove t p2 eq_refl) as [Hc2 Hp2].
  cbn [Parser.code Parser.pos Parser.set_pos] in Hc2, Hp2. rewrite Hc1 in Hc2, Hp2.
  destruct (_parse_span_moves p2 t) as [Hcut3 Hmove3]; [rewrite Hc2; lia..|].
  destruct (Parser._parse_span parse_block p2 t) as [p3|e]; cbn [mbind result_bind];
    [|intros [= ->]; by apply Hcut3].
  destruct (Hmove3 p3 eq_refl) as [Hc3 Hp3]. rewrite Hc2 in Hc3, Hp3.
  apply IH; rewrite ?Hc3; lia.
Qed.

Lemma parse_with_not_cut content counter :
  len content <= bound -> Parser.parse_with parse_block content counter <> Raise OutOfFuel.
Proof.
  intros Hb. unfold Parser.parse_with. pose proof (len_filter_comments content) as Hf.
  apply bind_not_cut; [|done].
  apply parse_loop_not_cut; cbn [Parser.code Parser.pos]; lia.
Qed.

End Nested.

Lemma parse_nested_not_cut depth : forall content counter,
  len content < depth -> Parser.parse_nested depth content counter <> Raise OutOfFuel.
Proof.
  induction depth as [|depth IH]; intros content counter Hd; [lia|].
  cbn [Parser.parse_nested].
  apply (parse_with_not_cut (Parser.parse_nested depth) depth); [|lia].
  intros s c Hs. by apply IH.
Qed.

(** The parser of the model always comes to an end of its own: its result
    is a template or an exception that Python raises. *)
Lemma parse_not_cut content : Parser.parse content <> Raise OutOfFuel.
Proof.
  unfold Parser.parse. apply bind_not_cut; [|by intros [? ?]].
  apply parse_nested_not_cut. lia.
Qed.

End ParserTotal.

(** * Further properties of the engine *)

(** ** context.py: the messages of a context *)

Section ChatFacts.

Import Chat ContextSpec.

Lemma roles_from_valid frags : forall i,
  Forall (fun f => exists r, ego f = Some r /\ is_role r = true) frags ->
  roles_from i frags = map (fun f => (default "" (ego f), text f)) frags.
Proof.
  induction frags as [|f rest IH]; intros i; [done|].
  intros [(r & Hr & Hv) Hrest]%Forall_cons. cbn [roles_from map]. rewrite IH by done.
  f_equal. f_equal. rewrite Hr. unfold _normalize_role. unfold is_role in Hv. by rewrite Hv.
Qed.

Lemma normalize_is_role raw b : is_role (_normalize_role raw b) = true.
Proof.
  unfold _normalize_role, is_role. destruct raw as [r|]; [|by destruct b].
  destruct (String.eqb r "system" || String.eqb r "user" || String.eqb r "assistant") eqn:E;
    [exact E | done].
Qed.

Lemma roles_from_is_role frags : forall i,
  Forall (fun p => is_role p.1 = true) (roles_from i frags).
Proof.
  induction frags as [|f rest IH]; intros i; constructor; [apply normalize_is_role | apply IH].
Qed.

Lemma group_by_role_fst (P : string -> Prop) l :
  Forall (fun p => P p.1) l -> Forall (fun g => P g.1) (group_by_role l).
Proof.
  induction 1 as [|[r t] rest Hr _ IH]; [constructor|]. cbn [group_by_role].
  destruct (group_by_role rest) as [|[r' ts] gs]; [by repeat constructor|].
  destruct (String.eqb r r'); [|by constructor].
  apply Forall_cons in IH as [_ IH]. by constructor.
Qed.

Lemma render_roles (P : string -> Prop) dry gs :
  Forall (fun g => P g.1) gs -> Forall (fun m => P (role m)) (render dry gs).
Proof.
  induction 1 as [|g gs Hg Hgs IH]; [constructor|].
  destruct gs as [|g' gs'].
  - cbn [render]. unfold tail_message. destruct (_ || _); by repeat constructor.
  - rewrite render_cons by done. apply Forall_app. split; [|done].
    unfold closed_message. destruct (_ || _); by repeat constructor.
Qed.

(** The role of every message of [to_api_messages] is one of "system",
    "user" and "assistant", whatever the egos of the fragments are. *)
Theorem to_api_messages_roles (frags : FragList) (render_dry : bool) :
  Forall (fun m => Chat.is_role (role m) = true) (to_api_messages frags render_dry).
Proof.
  rewrite to_api_messages_render.
  apply (render_roles (fun r => is_role r = true)).
  apply (group_by_role_fst (fun r => is_role r = true)). apply roles_from_is_role.
Qed.

Lemma group_by_role_alternating l : alternating (map fst (group_by_role l)) = true.
Proof.
  induction l as [|[r t] rest IH]; [done|]. cbn [group_by_role].
  destruct (group_by_role rest) as [|[r' ts] gs]; [done|].
  destruct (String.eqb r r') eqn:E.
  - apply String.eqb_eq in E as ->. exact IH.
  - cbn [map fst alternating] in *. by rewrite E, IH.
Qed.

Lemma render_dry_roles gs : map role (render true gs) = map fst gs.
Proof.
  induction gs as [|g gs IH]; [done|]. destruct gs as [|g' gs'].
  - cbn [render]. unfold tail_message. by rewrite orb_true_r.
  - rewrite render_cons by done. unfold closed_message. rewrite orb_true_r.
    cbn [app map role]. by rewrite IH.
Qed.

(** With [render_dry], [to_api_messages] gives one message for every
    maximal run of fragments of one normalized role, so no two
    neighbouring messages have the same role. *)
Theorem to_api_messages_dry_one_message_per_run (frags : FragList) :
  map role (to_api_messages frags true) = map fst (ContextSpec.groups frags)
  /\ Chat.alternating (map role (to_api_messages frags true)) = true.
Proof.
  rewrite to_api_messages_render, render_dry_roles. split; [done|].
  apply group_by_role_alternating.
Qed.

(** Without [render_dry] the empty runs are left out, and two messages of
    one role can follow each other. *)
Example to_api_messages_can_repeat_a_role :
  to_api_messages [mkFrag "a" (Some "user") FROZEN; mkFrag "" (Some "assistant") FROZEN;
                   mkFrag "b" (Some "user") FROZEN] false
  = [mkMessage "user" "a"; mkMessage "user" "b"].
Proof. reflexivity. Qed.

Lemma from_api_chat_entries msgs masking :
  from_api_chat (map entry msgs) masking
  = map (fun m => mkFrag (content m) (Some (role m)) (mask_for masking (Some (role m)))) msgs.
Proof.
  unfold from_api_chat.
  set (f := fun fragments msg => _).
  set (g := fun m => _).
  assert (forall acc, fold_left f (map entry msgs) acc = acc ++ map g msgs) as H.
  { induction msgs as [|m rest IH]; intros acc; [by rewrite app_nil_r|].
    cbn [map fold_left]. rewrite IH. unfold f, add_frag, entry. cbn [default].
    by rewrite <- app_assoc. }
  apply H.
Qed.

Lemma group_by_role_singletons (l : list (string * string)) :
  alternating (map fst l) = true ->
  group_by_role l = map (fun p => (p.1, [p.2])) l.
Proof.
  induction l as [|[r t] rest IH]; [done|]. intros H.
  assert (alternating (map fst rest) = true) as Hrest.
  { destruct rest; [done|]. cbn [map alternating] in H. by apply andb_true_iff in H as [_ ?]. }
  cbn [group_by_role]. rewrite IH by done.
  destruct rest as [|[r' t'] rest']; [done|].
  cbn [map fst alternating] in H. apply andb_true_iff in H as [H _].
  cbn [map fst snd]. by destruct (String.eqb r r').
Qed.

Lemma render_singletons (msgs : list Message) :
  Forall (fun m => PyStr.nonempty (content m) = true) msgs ->
  Forall (fun m => PyStr.strip (content m) = content m) (removelast msgs) ->
  render false (map (fun m => (role m, [content m])) msgs) = msgs.
Proof.
  induction msgs as [|m rest IH]; [done|].
  intros [Hm Hrest]%Forall_cons Hstrip. destruct rest as [|m' rest'].
  - cbn [map render]. unfold tail_message, concat_texts. cbn [snd fst PyStr.join].
    rewrite Hm. by destruct m.
  - change (removelast (m :: m' :: rest')) with (m :: removelast (m' :: rest')) in Hstrip.
    apply Forall_cons in Hstrip as [Hs Hstrip].
    cbn [map]. rewrite render_cons by done.
    change ((role m', [content m']) :: map _ rest')
      with (map (fun m => (role m, [content m])) (m' :: rest')).
    rewrite IH by done.
    unfold closed_message, concat_texts. cbn [snd fst PyStr.join]. rewrite Hm, Hs.
    by destruct m.
Qed.

(** A chat whose roles are valid and change from each message to the next,
    whose contents are not empty and, but for the last, carry no outer
    whitespace, comes back from [from_api_chat] and [to_api_messages] as
    it was. *)
Theorem from_api_chat_to_api_messages (msgs : list Message) (masking : Chat.AutoMask) :
  Forall (fun m => Chat.is_role (role m) = true /\ PyStr.nonempty (content m) = true) msgs ->
  Chat.alternating (map role msgs) = true ->
  Forall (fun m => PyStr.strip (content m) = content m) (removelast msgs) ->
  to_api_messages (Chat.from_api_chat (map Chat.entry msgs) masking) false = msgs.
Proof.
  intros Hvalid Halt Hstrip.
  rewrite to_api_messages_render, from_api_chat_entries. unfold groups.
  rewrite roles_from_valid.
  2: { apply Forall_map. eapply Forall_impl; [exact Hvalid|].
       intros m [Hr _]. cbn [ego]. eauto. }
  rewrite map_map. cbn [ego text default].
  rewrite group_by_role_singletons by (by rewrite map_map).
  rewrite map_map. cbn [fst snd].
  apply render_singletons; [|done].
  eapply Forall_impl; [exact Hvalid|]. by intros m [_ ?].
Qed.

Lemma from_api_chat_to_api_messages_witness :
  to_api_messages
    (Chat.from_api_chat
       (map Chat.entry [mkMessage "system" "Be brief."; mkMessage "user" "Hi";
                        mkMessage "assistant" " Hello "]) Chat.REINFORCE_ASSISTANT) false
  = [mkMessage "system" "Be brief."; mkMessage "user" "Hi"; mkMessage "assistant" " Hello "].
Proof.
  apply (from_api_chat_to_api_messages
           [mkMessage "system" "Be brief."; mkMessage "user" "Hi";
            mkMessage "assistant" " Hello "] Chat.REINFORCE_ASSISTANT).
  - repeat constructor.
  - reflexivity.
  - repeat constructor.
Defined.

End ChatFacts.

(** ** holoware.py: trained contexts and the whitespace pass *)

Section EvaluatorFacts.

Import HandlerSpec.

Section TrainedContextsOrder.

Import EvalSpec.

Lemma trues_from_sorted flags : forall j,
  StronglySorted lt (trues_from j flags)
  /\ Forall (fun c => j <= c < j + length flags) (trues_from j flags).
Proof.
  induction flags as [|b rest IH]; intros j; [by split; constructor|].
  destruct (IH (S j)) as [Hs Hb]. cbn [trues_from length].
  assert (Forall (fun c => j < c < j + S (length rest)) (trues_from (S j) rest)) as Hb'.
  { eapply Forall_impl; [exact Hb|]. intros c ?. simpl in *. lia. }
  destruct b; cbn [app].
  - split.
    + constructor; [done|]. eapply Forall_impl; [exact Hb'|]. intros c ?. simpl in *. lia.
    + constructor; [lia|]. eapply Forall_impl; [exact Hb'|]. intros c ?. simpl in *. lia.
  - split; [done|]. eapply Forall_impl; [exact Hb'|]. intros c ?. simpl in *. lia.
Qed.

End TrainedContextsOrder.

(** [trained_contexts] is strictly increasing, and none of its indices
    exceeds the number of resets of the template. *)
Theorem trained_contexts_increasing (spans : Holoware) :
  StronglySorted lt (trained_contexts spans)
  /\ Forall (fun c => c <= length (EvalSpec.reset_flags spans)) (trained_contexts spans).
Proof.
  unfold trained_contexts. destruct spans as [|s rest]; [by split; constructor|].
  assert (StronglySorted lt (trained_contexts_loop 1 rest 0)
          /\ Forall (fun c => 0 < c <= length (EvalSpec.reset_flags rest))
               (trained_contexts_loop 1 rest 0)) as [Hs Hb].
  { rewrite trained_contexts_loop_later.
    destruct (trues_from_sorted (EvalSpec.reset_flags rest) 1) as [Hs Hb]. split; [done|].
    eapply Forall_impl; [exact Hb|]. intros c ?. simpl in *. lia. }
  unfold EvalSpec.reset_flags in *.
  destruct s; cbn [trained_contexts_loop flat_map app length];
    try (split; [done|]; eapply Forall_impl; [exact Hb|]; intros c ?; simpl in *; lia).
  change (0 <? 0) with false. cbv iota.
  destruct train; cbn [app].
  - split.
    + constructor; [done|]. eapply Forall_impl; [exact Hb|]. intros c ?. simpl in *. lia.
    + constructor; [lia|]. eapply Forall_impl; [exact Hb|]. intros c ?. simpl in *. lia.
  - split; [done|]. eapply Forall_impl; [exact Hb|]. intros c ?. simpl in *. lia.
Qed.

(** ** holoware.py: the whitespace pass [optimize_block] *)

Section OptimizeBlock.

Import PyStr.

Lemma rstrip_fixed_rstrip_char s : rstrip s = s -> rstrip_char "010" s = s.
Proof.
  induction s as [|c r IH]; [done|]. cbn [rstrip rstrip_char].
  destruct (rstrip r) as [|c' r'] eqn:E.
  - destruct (isspace c) eqn:Ec; [done|]. intros [= <-]. cbn [rstrip_char].
    destruct (Ascii.eqb_spec c "010") as [->|]; [done|done].
  - intros [= <-]. rewrite IH by done. done.
Qed.

Lemma rstrip_strip s : rstrip (strip s) = strip s.
Proof. unfold strip. by rewrite rstrip_lstrip, rstrip_idem. Qed.

Lemma count_tail_strip s : count_tail (strip s) = 0.
Proof.
  unfold count_tail. rewrite rstrip_fixed_rstrip_char by apply rstrip_strip. lia.
Qed.

Lemma count_head_strip s : count_head (strip s) = 0.
Proof. apply count_tail_strip. Qed.

Lemma strip_nl_l t : strip (nl +:+ t) = strip t.
Proof.
  unfold strip, nl. rewrite append_cons, append_nil_l. cbn [rstrip].
  destruct (rstrip t) as [|c r]; [done|]. done.
Qed.

Lemma rstrip_nl_r t : rstrip (t +:+ nl) = rstrip t.
Proof.
  induction t as [|c r IH]; [done|]. rewrite append_cons. cbn [rstrip]. by rewrite IH.
Qed.

Lemma strip_nl_r t : strip (t +:+ nl) = strip t.
Proof. unfold strip. by rewrite rstrip_nl_r. Qed.

Lemma view_set_text r ref t f :
  get_frag r ref = Some f -> strip t = strip (text f) ->
  map (map outer_view) (set_text r ref t) = map (map outer_view) r.
Proof.
  unfold set_text, get_frag. destruct ref as [i j]. cbn [fst snd]. revert i.
  induction r as [|ctx r IH]; intros i; [done|].
  destruct i as [|i]; cbn [alter list_alter map lookup list_lookup].
  - intros Hf Ht. f_equal. clear IH. revert j Hf. induction ctx as [|f' ctx IHc]; intros j Hf; [done|].
    destruct j; cbn [alter list_alter map]; cbn in Hf.
    + injection Hf as ->. f_equal. unfold outer_view. cbn [text Context.ego type]. by rewrite Ht.
    + f_equal. by apply IHc.
  - intros Hf Ht. f_equal. by apply IH.
Qed.

Lemma view_prepend_newlines n : forall r ref,
  map (map outer_view) (prepend_newlines n r ref) = map (map outer_view) r.
Proof.
  induction n as [|n IH]; intros r ref; [done|]. cbn [prepend_newlines].
  rewrite IH. destruct (get_frag r ref) as [f|] eqn:E; [|done].
  apply (view_set_text _ _ _ f E), strip_nl_l.
Qed.

Lemma view_append_newlines n : forall r ref,
  map (map outer_view) (append_newlines n r ref) = map (map outer_view) r.
Proof.
  induction n as [|n IH]; intros r ref; [done|]. cbn [append_newlines].
  rewrite IH. destruct (get_frag r ref) as [f|] eqn:E; [|done].
  apply (view_set_text _ _ _ f E), strip_nl_r.
Qed.

End OptimizeBlock.

(** The counts of newlines that [optimize_block] takes are counts on
    stripped strings, so they are zero: whenever the text of the middle
    span holds a tag block, its first fragment gets three newlines in front
    and its last fragment three newlines behind, whatever newlines are
    there already. *)
Theorem optimize_block_pads_by_three (self : Holoware) (i : Z) (h : Holophore) :
  optimize_block self i h
  = if (i <? 2)%Z then h
    else
      let f2 := fragments_of h self (Z.to_nat i - 1) in
      if tag_pattern_search (PyStr.strip (refs_string (_rollout h) f2)) then
        match head f2, last f2 with
        | Some first, Some final =>
            set_rollout h (append_newlines 3 (prepend_newlines 3 (_rollout h) first) final)
        | _, _ => h
        end
      else h.
Proof.
  unfold optimize_block. destruct (i <? 2)%Z; [done|]. cbv zeta.
  by rewrite ?count_tail_strip, ?count_head_strip.
Qed.

(** [optimize_block] changes nothing but whitespace at the two ends of
    fragment texts: the contexts keep their fragments, each with its ego,
    its mask and its stripped text, and the environment and the records of
    the spans stay as they are. *)
Theorem optimize_block_keeps_stripped_texts (self : Holoware) (i : Z) (h : Holophore) :
  let h' := optimize_block self i h in
  map (map outer_view) (_rollout h') = map (map outer_view) (_rollout h)
  /\ env h' = env h
  /\ span_fragments h' = span_fragments h
  /\ span_bindings h' = span_bindings h
  /\ _ego h' = _ego h.
Proof.
  cbv zeta. unfold optimize_block. destruct (i <? 2)%Z; [done|].
  destruct (tag_pattern_search _); [|done].
  destruct (head _); [|done]. destruct (last _); [|done].
  cbn [_rollout set_rollout env span_fragments span_bindings _ego].
  by rewrite view_append_newlines, view_prepend_newlines.
Qed.

End EvaluatorFacts.

(** ** holoware_handlers.py: what the handlers emit *)

Section HandlerFacts.

Import HandlerSpec.

Section Handlers.

Lemma frags_add_frag h ty t :
  frags (add_frag h ty t) = frags h ++ [mkFrag t (Some (_ego h)) ty]
  /\ env (add_frag h ty t) = env h
  /\ _ego (add_frag h ty t) = _ego h.
Proof.
  unfold add_frag, rollout_add_frag, frags.
  destruct (last (_rollout h)) as [ctx|] eqn:Hlast.
  - cbn [_span set_rollout].
    destruct (_span h); cbn [_rollout set_rollout set_span_fragments env _ego];
      by rewrite (alter_last_concat _ ctx).
  - apply last_None in Hlast. rewrite Hlast. cbn [_span set_rollout].
    by destruct (_span h).
Qed.

Lemma handle_ObjSpan_step_frags h v :
  frags (handle_ObjSpan_step h v) = frags h ++ obj_frags (_ego h) (env h) v
  /\ env (handle_ObjSpan_step h v) = env h
  /\ _ego (handle_ObjSpan_step h v) = _ego h.
Proof.
  unfold handle_ObjSpan_step, obj_frags. destruct (env h !! v) as [value|].
  - unfold add_masked.
    set (h1 := add_frag h FROZEN _). set (h2 := add_frag h1 FROZEN _).
    set (h3 := add_frag h2 FROZEN _).
    destruct (frags_add_frag h FROZEN ("<obj id=" +:+ v +:+ ">")) as (F1 & E1 & G1).
    destruct (frags_add_frag h1 FROZEN (str value)) as (F2 & E2 & G2).
    destruct (frags_add_frag h2 FROZEN "</obj>") as (F3 & E3 & G3).
    destruct (frags_add_frag h3 FROZEN PyStr.nl) as (F4 & E4 & G4).
    fold h1 in F1, E1, G1, F2, E2, G2. fold h2 in F2, E2, G2, F3, E3, G3.
    fold h3 in F3, E3, G3, F4, E4, G4.
    rewrite F4, F3, F2, F1, E4, E3, E2, E1, G4, G3, G2, G1.
    rewrite <- !app_assoc. done.
  - by rewrite app_nil_r.
Qed.

Lemma env_handle_ObjSpan var_ids : forall h, env (handle_ObjSpan h var_ids) = env h.
Proof.
  unfold handle_ObjSpan. induction var_ids as [|v rest IH]; intros h; [done|].
  cbn [fold_left]. rewrite IH. apply handle_ObjSpan_step_frags.
Qed.

End Handlers.

(** The object handler emits, for every var_id of the span that is a key
    of [env], in the order of the span and as often as it is listed, the
    four frozen fragments of the object, under the current ego; it leaves
    [env] as it is. *)
Theorem handle_ObjSpan_emits_all_present (h : Holophore) (var_ids : list string) :
  HandlerSpec.frags (handle_ObjSpan h var_ids)
  = HandlerSpec.frags h ++ flat_map (HandlerSpec.obj_frags (_ego h) (env h)) var_ids
  /\ env (handle_ObjSpan h var_ids) = env h.
Proof.
  unfold handle_ObjSpan. revert h.
  induction var_ids as [|v rest IH]; intros h; [by rewrite app_nil_r|].
  cbn [fold_left flat_map].
  destruct (handle_ObjSpan_step_frags h v) as (F & E & G).
  destruct (IH (handle_ObjSpan_step h v)) as [F' E'].
  rewrite F', E', F, E, G. by rewrite <- app_assoc.
Qed.

(** A sample span with a fence and a non-empty sample appends the frozen
    opening tag and one reinforced fragment; its text is the sample when
    the sample ends with the closing tag, and the sample followed by the
    closing tag otherwise: it always ends with the closing tag. *)
Theorem fenced_sample_is_closed
    (sample : Rollout -> list string -> option string)
    (h : Holophore) (base : SpanBase) (fence s : string) :
  PyStr.nonempty fence = true ->
  PyStr.nonempty s = true ->
  sample (_rollout (add_masked h ("<" +:+ fence +:+ ">"))) ["</" +:+ fence +:+ ">"] = Some s ->
  let closing_tag := "</" +:+ fence +:+ ">" in
  let text := if PyStr.endswith s closing_tag then s else s +:+ closing_tag in
  HandlerSpec.frags (handle_SampleSpan sample h base fence)
  = HandlerSpec.frags h ++ [mkFrag ("<" +:+ fence +:+ ">") (Some (_ego h)) FROZEN;
                            mkFrag text (Some (_ego h)) REINFORCE]
  /\ PyStr.endswith text closing_tag = true.
Proof.
  intros Hf Hs Hsample closing_tag text. split.
  - unfold handle_SampleSpan. rewrite Hf, Hsample, Hs. cbn [negb]. fold closing_tag. fold text.
    unfold add_reinforced, add_masked in *.
    destruct (frags_add_frag h FROZEN ("<" +:+ fence +:+ ">")) as (F1 & E1 & G1).
    destruct (frags_add_frag (add_frag h FROZEN ("<" +:+ fence +:+ ">")) REINFORCE text)
      as (F2 & E2 & G2).
    assert (forall h' e, frags (set_env h' e) = frags h') as Hset by done.
    destruct (PyStr.nonempty (id base)); rewrite ?Hset, F2, F1, G1; by rewrite <- app_assoc.
  - subst text. destruct (PyStr.endswith s closing_tag) eqn:E; [done|]. apply endswith_app.
Qed.

Lemma fenced_sample_is_closed_witness :
  HandlerSpec.frags (handle_SampleSpan (mock_sample "mocked_sample") (init [] ∅) (named "") "think")
  = HandlerSpec.frags (init [] ∅)
    ++ [mkFrag "<think>" (Some "system") FROZEN;
        mkFrag "mocked_sample</think>" (Some "system") REINFORCE]
  /\ PyStr.endswith "mocked_sample</think>" "</think>" = true.
Proof.
  apply (fenced_sample_is_closed (mock_sample "mocked_sample") (init [] ∅) (named "")
           "think" "mocked_sample"); reflexivity.
Defined.

(** A handler other than the class handler writes [env] at most at the
    id of its span: every other key keeps its value, or its absence. *)
Theorem handle_writes_env_at_span_id_only
    (sample : Rollout -> list string -> option string)
    (registry : string -> option HoloClass)
    (h h' : Holophore) (span : Span) (k : string) :
  HandlerSpec.is_class_span span = false ->
  handle sample registry h span = Ok h' ->
  k <> span_id span ->
  env h' !! k = env h !! k.
Proof.
  intros Hc Hh Hk. destruct span; try done; cbn [handle] in Hh; injection Hh as <-.
  - done.
  - done.
  - unfold handle_SampleSpan.
    assert (forall ty t, env (add_frag h ty t) = env h) as Ha
      by (intros; apply frags_add_frag).
    set (h0 := if PyStr.nonempty fence then _ else h).
    assert (env h0 = env h) as E0.
    { subst h0. destruct (PyStr.nonempty fence); [apply Ha | done]. }
    destruct (sample _ _) as [s|]; [|by rewrite E0].
    destruct (PyStr.nonempty s); cbn [negb]; [|by rewrite E0].
    assert (env (add_reinforced h0 (if PyStr.nonempty fence
              then if PyStr.endswith s ("</" +:+ fence +:+ ">") then s
                   else s +:+ "</" +:+ fence +:+ ">"
              else s)) = env h) as E1.
    { unfold add_reinforced. destruct (frags_add_frag h0 REINFORCE
        (if PyStr.nonempty fence
              then if PyStr.endswith s ("</" +:+ fence +:+ ">") then s
                   else s +:+ "</" +:+ fence +:+ ">"
              else s)) as (_ & E & _). by rewrite E. }
    destruct (PyStr.nonempty (id base)); [|by rewrite E1].
    cbn [set_env env]. rewrite lookup_insert_ne; [by rewrite E1 | done].
  - unfold handle_TextSpan, add_masked.
    match goal with |- env (add_frag _ _ ?t) !! _ = _ =>
      by destruct (frags_add_frag h FROZEN t) as (_ & -> & _) end.
  - by rewrite env_handle_ObjSpan.
Qed.

Lemma handle_writes_env_at_span_id_only_witness :
  env (handle_SampleSpan (mock_sample "mocked_sample") (init [] (<["text" := VStr "t"]> ∅))
         (mkBase (UuidStr "c") "c" [] ∅) "f") !! "text"
  = env (init [] (<["text" := VStr "t"]> ∅)) !! "text".
Proof.
  apply (handle_writes_env_at_span_id_only (mock_sample "mocked_sample") no_registry
           (init [] (<["text" := VStr "t"]> ∅)) _
           (SampleSpan (mkBase (UuidStr "c") "c" [] ∅) "f") "text");
    [reflexivity | reflexivity | discriminate].
Defined.

End HandlerFacts.

(** ** holoware_parser.py: comments, tags and their arguments *)

Section ParserFacts.

Import ParserSpec.

Section FilterComments.

Import PyStr.

Lemma split_no_nl s : Forall (fun l => no_nl l = true) (split "010" s).
Proof.
  induction s as [|c r IH]; [by repeat constructor|]. cbn [split].
  destruct (Ascii.eqb c "010") eqn:E; [by constructor|].
  destruct (split "010" r) as [|x l]; [by repeat constructor; unfold no_nl; cbn [all_chars]; rewrite E|].
  apply Forall_cons in IH as [Hx Hl]. constructor; [|done].
  unfold no_nl in *. cbn [all_chars]. by rewrite E, Hx.
Qed.

Lemma split_app_no_nl a b :
  no_nl a = true ->
  split "010" (a +:+ nl +:+ b) = a :: split "010" b.
Proof.
  induction a as [|c r IH]; [done|]. unfold no_nl. cbn [all_chars].
  intros [Hc Hr]%andb_true_iff. rewrite append_cons. cbn [split].
  apply negb_true_iff in Hc. rewrite Hc. by rewrite IH.
Qed.

Lemma split_single a : no_nl a = true -> split "010" a = [a].
Proof.
  induction a as [|c r IH]; [done|]. unfold no_nl. cbn [all_chars].
  intros [Hc Hr]%andb_true_iff. cbn [split].
  apply negb_true_iff in Hc. rewrite Hc. by rewrite IH.
Qed.

Lemma split_join l :
  Forall (fun x => no_nl x = true) l -> l <> [] -> split "010" (join nl l) = l.
Proof.
  induction 1 as [|x l Hx Hl IH]; [done|]. intros _.
  destruct l as [|y l]; [by apply split_single|].
  change (join nl (x :: y :: l)) with (x +:+ nl +:+ join nl (y :: l)).
  rewrite split_app_no_nl by done. by rewrite IH.
Qed.

Lemma filter_filter {A : Type} (P : A -> bool) l :
  List.filter P (List.filter P l) = List.filter P l.
Proof.
  induction l as [|x l IH]; [done|]. cbn [List.filter].
  destruct (P x) eqn:E; [|done]. cbn [List.filter]. by rewrite E, IH.
Qed.

Lemma Forall_filter_bool {A : Type} (Q : A -> Prop) (P : A -> bool) l :
  Forall Q l -> Forall Q (List.filter P l).
Proof.
  induction 1 as [|x l Hx Hl IH]; [constructor|]. cbn [List.filter].
  destruct (P x); [by constructor | done].
Qed.

End FilterComments.

(** [filter_comments] is idempotent: a source that went through it once
    (as [load_holoware] does before it calls [Holoware.parse], which
    filters again) is not changed by a second pass. *)
Theorem filter_comments_idempotent (content : string) :
  Parser.filter_comments (Parser.filter_comments content) = Parser.filter_comments content.
Proof.
  unfold Parser.filter_comments.
  set (P := fun line => negb (PyStr.startswith (PyStr.strip line) "#")).
  destruct (List.filter P (PyStr.split "010" content)) as [|x l] eqn:E; [done|].
  rewrite split_join.
  - by rewrite <- E, filter_filter.
  - rewrite <- E. apply Forall_filter_bool, split_no_nl.
  - done.
Qed.

Section Find.

Import PyStr.

Lemma find_from_startswith s sub : forall p i,
  find_from s sub p = Some i -> startswith (drop (i - p) s) sub = true.
Proof.
  induction s as [|c r IH]; intros p i; cbn [find_from].
  - destruct (startswith "" sub) eqn:E; [|done]. intros [= <-]. by rewrite Nat.sub_diag.
  - destruct (startswith (String c r) sub) eqn:E.
    + intros [= <-]. by rewrite Nat.sub_diag.
    + intros H. pose proof (find_from_bounds _ _ _ _ H) as [Hp _].
      apply IH in H. replace (i - p) with (S (i - S p)) by lia. done.
Qed.

Lemma find_from_first s sub : forall p i,
  nonempty sub = true -> find_from s sub p = Some i -> contains (take (i - p) s) sub = false.
Proof.
  induction s as [|c r IH]; intros p i Hsub; cbn [find_from].
  - destruct sub; [done|]. done.
  - destruct (startswith (String c r) sub) eqn:E.
    + intros [= <-]. rewrite Nat.sub_diag. cbn [take contains]. by destruct sub.
    + intros H. pose proof (find_from_bounds _ _ _ _ H) as [Hp _].
      apply (IH _ _ Hsub) in H. replace (i - p) with (S (i - S p)) by lia.
      cbn [take contains]. rewrite H, orb_false_r.
      destruct (startswith (String c (take (i - S p) r)) sub) eqn:E'; [|done].
      apply (startswith_take (String c r) sub (S (i - S p))) in E'. congruence.
Qed.

Lemma take_drop s : forall n, take n s +:+ drop n s = s.
Proof.
  induction s as [|c r IH]; intros [|n]; cbn [take drop]; try done.
  by rewrite append_cons, IH.
Qed.

Lemma take_add s : forall a b, take (a + b) s = take a s +:+ take b (drop a s).
Proof.
  induction s as [|c r IH]; intros [|a] b; cbn [take drop Nat.add]; try done.
  - by destruct b.
  - by rewrite append_cons, IH.
Qed.

Lemma startswith_split s p : startswith s p = true -> s = p +:+ drop (len p) s.
Proof.
  revert s. induction p as [|a p IH]; intros [|c s]; cbn [startswith]; try done.
  destruct (Ascii.eqb_spec a c) as [->|]; [|done]. intros H.
  rewrite append_cons. cbn [len String.length drop]. f_equal. by apply IH.
Qed.

Lemma take_app_len a b : take (len a) (a +:+ b) = a.
Proof.
  induction a as [|c a IH]; [by destruct b|]. rewrite append_cons.
  cbn [len String.length take]. f_equal. apply IH.
Qed.

End Find.

(** [read_until_span_end] reads exactly one tag: from the position it
    starts at to the position it leaves, the source is the opener, the
    text it returns and the closer, and the text holds no closer; it
    changes nothing but the position. *)
Theorem read_until_span_end_reads_one_tag (p p' : Parser.HolowareParser) (t : string) :
  Parser.read_until_span_end p = Ok (t, p') ->
  PyStr.take (Parser.pos p' - Parser.pos p) (PyStr.drop (Parser.pos p) (Parser.code p))
  = "<|" +:+ t +:+ "|>"
  /\ PyStr.contains t "|>" = false
  /\ p' = Parser.set_pos p (Parser.pos p').
Proof.
  unfold Parser.read_until_span_end.
  destruct (String.eqb_spec (PyStr.take 2 (PyStr.drop (Parser.pos p) (Parser.code p))) "<|")
    as [Hopen|]; [|done]. cbn [negb].
  unfold PyStr.find.
  replace (Parser.pos p + 2) with (2 + Parser.pos p) by lia.
  rewrite <- (drop_drop (Parser.code p) 2 (Parser.pos p)).
  set (rest := PyStr.drop 2 (PyStr.drop (Parser.pos p) (Parser.code p))).
  destruct (PyStr.find_from rest "|>" (2 + Parser.pos p)) as [e|] eqn:E; [|done].
  destruct (Z.eqb_spec (Z.of_nat e) (-1)); [lia|].
  intros [= <- <-]. cbn [Parser.pos Parser.set_pos].
  pose proof (find_from_bounds _ _ _ _ E) as [He _].
  pose proof (find_from_startswith _ _ _ _ E) as Hclose.
  pose proof (find_from_first rest "|>" _ _ eq_refl E) as Hfirst.
  rewrite Nat2Z.id. split; [|split; [done|]].
  - rewrite <- (take_drop (PyStr.drop (Parser.pos p) (Parser.code p)) 2), Hopen. fold rest.
    replace (e + 2 - Parser.pos p) with (2 + ((e - (2 + Parser.pos p)) + 2)) by lia.
    change (PyStr.take (2 + ?n) ("<|" +:+ rest)) with ("<|" +:+ PyStr.take n rest).
    rewrite take_add. f_equal. f_equal.
    apply startswith_split in Hclose. rewrite Hclose. apply (take_app_len "|>").
  - by destruct p.
Qed.

Lemma read_until_span_end_reads_one_tag_witness :
  PyStr.take (8 - 3) (PyStr.drop 3 "ab <|x|> cd") = "<|" +:+ "x" +:+ "|>"
  /\ PyStr.contains "x" "|>" = false.
Proof.
  pose proof (read_until_span_end_reads_one_tag
                (Parser.mkParser "ab <|x|> cd" 3 [] None false 0)
                (Parser.mkParser "ab <|x|> cd" 8 [] None false 0) "x" eq_refl) as (H1 & H2 & _).
  split; [exact H1 | exact H2].
Defined.

(** What [_find_next_span_start] returns, when it is not -1, is a
    position at or after the current one where the source has a tag
    opener with an even number of backslashes right before it. *)
Theorem find_next_span_start_is_unescaped_opener (p : Parser.HolowareParser) :
  Parser._find_next_span_start p <> (-1)%Z ->
  let r := Z.to_nat (Parser._find_next_span_start p) in
  Parser.pos p <= r
  /\ PyStr.startswith (PyStr.drop r (Parser.code p)) "<|" = true
  /\ Nat.odd (Parser.num_backslashes (Parser.code p) r) = false.
Proof.
  unfold Parser._find_next_span_start.
  generalize (S (PyStr.len (Parser.code p))) as fuel. generalize (Parser.pos p) as pos.
  intros pos fuel. revert pos.
  induction fuel as [|fuel IH]; intros pos; cbn [Parser._find_next_span_start_from]; [done|].
  destruct (Z.eqb_spec (PyStr.find (Parser.code p) "<|" pos) (-1)) as [|Hne]; [done|].
  pose proof (find_bounds (Parser.code p) "<|" pos ltac:(cbn; lia) Hne) as (H0 & H1 & H2).
  destruct (Nat.odd _) eqn:Eodd.
  - intros H. destruct (IH _ H) as (Ha & Hb & Hc). cbv zeta. split; [lia | done].
  - intros _. cbv zeta. split; [done|]. split; [|done].
    unfold PyStr.find in *.
    destruct (PyStr.find_from (PyStr.drop pos (Parser.code p)) "<|" pos) as [i|] eqn:E; [|done].
    rewrite Nat2Z.id in *. apply find_from_startswith in E.
    rewrite drop_drop in E. by replace (i - pos + pos) with i in E by lia.
Qed.

Lemma find_next_span_start_is_unescaped_opener_witness :
  3 <= 9
  /\ PyStr.startswith (PyStr.drop 9 "ab \<|x|><|y|>") "<|" = true
  /\ Nat.odd (Parser.num_backslashes "ab \<|x|><|y|>" 9) = false.
Proof.
  apply (find_next_span_start_is_unescaped_opener
           (Parser.mkParser "ab \<|x|><|y|>" 3 [] None false 0)).
  vm_compute. discriminate.
Defined.

Section Shlex.

Import PyStr Parser.

Lemma plain_char_not_special c :
  plain_char c = true ->
  sh_whitespace c = false /\ sh_quote c = false /\ Ascii.eqb c bslash = false
  /\ isspace c = false.
Proof.
  unfold plain_char. intros [[H1 H2]%andb_true_iff H3]%andb_true_iff.
  apply negb_true_iff in H1, H2, H3. repeat split; try done.
  unfold sh_whitespace.
  destruct (Ascii.eqb_spec c " ") as [->|]; [done|].
  destruct (Ascii.eqb_spec c "009") as [->|]; [done|].
  destruct (Ascii.eqb_spec c "013") as [->|]; [done|].
  destruct (Ascii.eqb_spec c "010") as [->|]; [done|]. done.
Qed.

Lemma shlex_go_word t : forall r tok q,
  all_chars plain_char t = true ->
  shlex_go (t +:+ r) ShWord tok q = shlex_go r ShWord (tok +:+ t) q.
Proof.
  induction t as [|c t IH]; intros r tok q; [by rewrite append_nil_r|].
  cbn [all_chars]. intros [Hc Ht]%andb_true_iff.
  apply plain_char_not_special in Hc as (H1 & H2 & H3 & _).
  rewrite append_cons. cbn [shlex_go]. rewrite H1, H2, H3.
  rewrite IH by done. unfold snoc. by rewrite append_assoc.
Qed.

Lemma shlex_go_token t r :
  plain_token t = true ->
  shlex_go (t +:+ r) ShSpace "" false = shlex_go r ShWord t false.
Proof.
  unfold plain_token. destruct t as [|c t]; [done|]. cbn [nonempty andb all_chars].
  intros [Hc Ht]%andb_true_iff.
  apply plain_char_not_special in Hc as (H1 & H2 & H3 & _).
  rewrite append_cons. cbn [shlex_go]. rewrite H1, H2, H3.
  by rewrite shlex_go_word.
Qed.

Lemma shlex_split_plain l :
  Forall (fun t => plain_token t = true) l -> shlex_split (join " " l) = Ok l.
Proof.
  unfold shlex_split. induction 1 as [|x l Hx Hl IH]; [done|].
  assert (nonempty x = true) as Hne by (by apply andb_true_iff in Hx as [? _]).
  destruct l as [|y l].
  - cbn [join]. rewrite <- (append_nil_r x) at 1. rewrite shlex_go_token by done.
    cbn [shlex_go]. by rewrite Hne.
  - change (join " " (x :: y :: l)) with (x +:+ " " +:+ join " " (y :: l)).
    rewrite shlex_go_token by done. rewrite append_cons, append_nil_l.
    cbn [shlex_go]. change (sh_whitespace " ") with true. cbv iota.
    rewrite Hne. cbn [orb]. by rewrite IH.
Qed.

Lemma parse_span_tag_plain base parts :
  Forall (fun t => plain_token t = true) (base :: parts) ->
  parse_span_tag (join " " (base :: parts))
  = '(kargs, kwargs) ← parse_parts parts ([], ∅); Ok (base, kargs, kwargs).
Proof.
  intros H. unfold parse_span_tag. by rewrite shlex_split_plain.
Qed.

Lemma parse_parts_positional parts : forall kargs kwargs,
  Forall (fun t => contains t "=" = false /\ startswith t "<>" = false) parts ->
  parse_parts parts (kargs, kwargs) = Ok (kargs ++ parts, kwargs).
Proof.
  induction parts as [|t rest IH]; intros kargs kwargs; [by rewrite app_nil_r|].
  intros [[H1 H2] Hrest]%Forall_cons. cbn [parse_parts parse_part]. rewrite H1, H2.
  cbn [mbind result_bind]. rewrite IH by done. by rewrite <- app_assoc.
Qed.

End Shlex.

(** A tag of a base and positional arguments that need no quoting (no
    whitespace, quote or backslash; the arguments without "=" and not
    beginning with "<>"), written with single spaces, is read back by
    [parse_span_tag] as this base and these arguments, with no keyword. *)
Theorem parse_span_tag_reads_positional_arguments (base : string) (kargs : list string) :
  Forall (fun t => ParserSpec.plain_token t = true) (base :: kargs) ->
  Forall (fun t => PyStr.contains t "=" = false /\ PyStr.startswith t "<>" = false) kargs ->
  Parser.parse_span_tag (PyStr.join " " (base :: kargs)) = Ok (base, kargs, ∅).
Proof.
  intros Hplain Hpos. rewrite parse_span_tag_plain by done.
  by rewrite (parse_parts_positional kargs [] ∅ Hpos).
Qed.

Lemma parse_span_tag_reads_positional_arguments_witness :
  Parser.parse_span_tag (PyStr.join " " ["FidelityAttractor"; "original"; "decompressed"])
  = Ok ("FidelityAttractor", ["original"; "decompressed"], ∅).
Proof.
  apply (parse_span_tag_reads_positional_arguments "FidelityAttractor"
           ["original"; "decompressed"]); repeat constructor.
Defined.

Section Fence.

Import PyStr Parser.

Lemma lstrip_plain c r : isspace c = false -> lstrip (String c r) = String c r.
Proof. intros H. cbn [lstrip]. by rewrite H. Qed.

Lemma rstrip_plain t :
  plain_token t = true -> rstrip t = t.
Proof.
  unfold plain_token. induction t as [|c t IH]; [done|]. cbn [nonempty andb all_chars].
  intros [Hc Ht]%andb_true_iff. apply plain_char_not_special in Hc as (_ & _ & _ & Hc).
  cbn [rstrip]. destruct t as [|c' t']; [cbn [rstrip]; by rewrite Hc|].
  rewrite IH by done. done.
Qed.

Lemma rstrip_app_plain a t : plain_token t = true -> rstrip (a +:+ t) = a +:+ t.
Proof.
  intros Ht. induction a as [|c a IH]; [by apply rstrip_plain|].
  rewrite append_cons. cbn [rstrip]. rewrite IH.
  destruct (a +:+ t) eqn:E; [|done].
  destruct a; [|done]. rewrite append_nil_l in E. subst t. done.
Qed.

Lemma strip_plain_ends b a t :
  plain_token b = true -> plain_token t = true ->
  strip (b +:+ a +:+ t) = b +:+ a +:+ t.
Proof.
  intros Hb Ht. unfold strip. rewrite <- append_assoc, rstrip_app_plain by done.
  unfold plain_token in Hb. destruct b as [|c b]; [done|]. cbn [nonempty andb all_chars] in Hb.
  apply andb_true_iff in Hb as [Hc _]. apply plain_char_not_special in Hc as (_ & _ & _ & Hc).
  rewrite !append_cons. by apply lstrip_plain.
Qed.

Lemma is_ego_or_sampler_fence base (kwargs : gmap string string) f :
  kwargs !! "<>" = Some f -> is_ego_or_sampler base kwargs = true.
Proof.
  intros H. unfold is_ego_or_sampler. rewrite H.
  rewrite (bool_decide_eq_true_2 (is_Some (Some f))) by eauto. apply orb_true_r.
Qed.

Lemma parse_part_fence f kargs (kwargs : gmap string string) :
  nonempty f = true -> contains f "=" = false ->
  parse_part ("<>" +:+ f) (kargs, kwargs) = Ok (kargs, <["<>" := f]> kwargs).
Proof.
  intros Hne Heq. unfold parse_part. rewrite !append_cons, append_nil_l.
  cbn [contains startswith Ascii.eqb Bool.eqb orb]. rewrite Heq.
  destruct f as [|c f']; [done|]. by destruct f'.
Qed.

End Fence.

(** A tag with a base and the fence attribute [<>f] is an ego span followed
    by a sample span with fence [f], whatever the base is (a reset sigil or
    a class name as well): the part of the base before its first colon is
    the ego (mapped by [EGO_MAP] when it is an ego sigil), the part after
    it is the uuid of both spans and the id of the sample span. *)
Theorem fence_attribute_makes_a_sampler (counter : nat) (b f : string) :
  ParserSpec.plain_token b = true ->
  ParserSpec.plain_token f = true ->
  PyStr.contains f "=" = false ->
  Parser.build_span counter (b +:+ " <>" +:+ f)
  = Ok (let '(ego, rest) := PyStr.split1 ":" b in
        let span_id := default "" rest in
        [EgoSpan (mkBase (UuidStr span_id) "" [] ∅) (Parser.EGO_MAP_get ego);
         SampleSpan (mkBase (UuidStr span_id) span_id [] ∅) f], counter).
Proof.
  intros Hb Hf Heq.
  assert (ParserSpec.plain_token ("<>" +:+ f) = true) as Hf'.
  { unfold ParserSpec.plain_token in *. apply andb_true_iff in Hf as [_ Hf].
    rewrite !append_cons, append_nil_l. cbn [PyStr.nonempty andb ParserSpec.all_chars].
    by rewrite Hf. }
  assert (PyStr.nonempty f = true) as Hne by (by apply andb_true_iff in Hf as [? _]).
  change (b +:+ " <>" +:+ f) with (PyStr.join " " [b; "<>" +:+ f]).
  assert (PyStr.strip (PyStr.join " " [b; "<>" +:+ f]) = PyStr.join " " [b; "<>" +:+ f])
    as Hstrip by (by apply (strip_plain_ends b " " ("<>" +:+ f))).
  unfold Parser.build_span. rewrite Hstrip.
  assert (PyStr.nonempty (PyStr.join " " [b; "<>" +:+ f]) = true) as ->.
  { cbn [PyStr.join]. destruct b; [done|]. by rewrite append_cons. }
  cbn [negb]. rewrite parse_span_tag_plain by (by repeat constructor).
  cbn [Parser.parse_parts]. rewrite parse_part_fence by done.
  cbn [mbind result_bind].
  rewrite (is_ego_or_sampler_fence b _ f) by apply lookup_insert_eq.
  unfold Parser._build_ego_or_sampler. destruct (PyStr.split1 ":" b) as [ego rest].
  rewrite lookup_insert_eq. cbn [default]. change (Datatypes.id f) with f. rewrite Hne.
  rewrite insert_empty, map_filter_singleton_False; [by rewrite Hne|].
  cbn [fst]. intros H%bool_decide_unpack. apply H. set_solver.
Qed.

Lemma fence_attribute_makes_a_sampler_witness :
  Parser.build_span 0 ("+++:x" +:+ " <>" +:+ "think")
  = Ok ([EgoSpan (mkBase (UuidStr "x") "" [] ∅) "+++";
         SampleSpan (mkBase (UuidStr "x") "x" [] ∅) "think"], 0).
Proof.
  apply (fence_attribute_makes_a_sampler 0 "+++:x" "think"); reflexivity.
Defined.

Section Blank.

Import PyStr.

Lemma lstrip_empty s : lstrip s = "" <-> all_chars isspace s = true.
Proof.
  induction s as [|c r IH]; [done|]. cbn [lstrip all_chars].
  destruct (isspace c); [done|]. split; done.
Qed.

Lemma rstrip_empty s : rstrip s = "" <-> all_chars isspace s = true.
Proof.
  induction s as [|c r IH]; [done|]. cbn [rstrip all_chars].
  destruct (rstrip r) as [|c' r'] eqn:E.
  - destruct IH as [IH _]. rewrite IH, andb_true_r by done. by destruct (isspace c).
  - split; [done|]. intros [_ H]%andb_true_iff. apply IH in H. done.
Qed.

Lemma all_chars_lstrip P s : all_chars P s = true -> all_chars P (lstrip s) = true.
Proof.
  induction s as [|c r IH]; [done|]. cbn [lstrip].
  destruct (isspace c); [|done]. cbn [all_chars]. intros [_ H]%andb_true_iff. by apply IH.
Qed.

Lemma blank_lstrip s : all_chars isspace (lstrip s) = all_chars isspace s.
Proof.
  induction s as [|c r IH]; [done|]. cbn [lstrip all_chars].
  destruct (isspace c) eqn:E; [done|]. cbn [all_chars]. by rewrite E.
Qed.

Lemma nonblank_spec s : nonempty (strip s) = negb (all_chars isspace s).
Proof.
  unfold strip. rewrite <- rstrip_lstrip.
  destruct (all_chars isspace s) eqn:E.
  - rewrite <- blank_lstrip in E. apply rstrip_empty in E. by rewrite E.
  - destruct (rstrip (lstrip s)) eqn:E'; [|done].
    apply rstrip_empty in E'. rewrite blank_lstrip in E'. congruence.
Qed.

Lemma all_chars_app P a b : all_chars P (a +:+ b) = all_chars P a && all_chars P b.
Proof.
  induction a as [|c a IH]; [done|]. rewrite append_cons. cbn [all_chars].
  by rewrite IH, andb_assoc.
Qed.

Lemma nonblank_app_l a b : nonempty (strip a) = true -> nonempty (strip (a +:+ b)) = true.
Proof.
  rewrite !nonblank_spec, all_chars_app. by intros ->%negb_true_iff.
Qed.

Lemma nonblank_lstrip s : nonempty (strip (lstrip s)) = nonempty (strip s).
Proof. by rewrite !nonblank_spec, blank_lstrip. Qed.

End Blank.

Section Shape.

Lemma text_ok_cons s s' l x : text_ok (s :: s' :: l) x = text_ok (s' :: l) x.
Proof. done. Qed.

Lemma merged_snoc l x : merged (l ++ [x]) = merged l && text_ok l x.
Proof.
  induction l as [|s l IH].
  - destruct x; cbn; rewrite ?andb_true_r; done.
  - destruct l as [|s' l'].
    + destruct s, x; cbn; rewrite ?andb_true_r, ?andb_false_r; done.
    + rewrite text_ok_cons.
      change ((s :: s' :: l') ++ [x]) with (s :: s' :: (l' ++ [x])).
      change (s' :: (l' ++ [x])) with ((s' :: l') ++ [x]) in *.
      destruct s; cbn [merged]; try exact IH.
      change ((s' :: l') ++ [x]) with (s' :: (l' ++ [x])) at 1.
      cbv iota. rewrite IH. by rewrite !andb_assoc.
Qed.

End Shape.

Section ParseShape.

Import PyStr.

Lemma ego_first_snoc l x : forall seen,
  ego_first seen (l ++ [x])
  = ego_first seen l && (negb (Parser.is_content_span x) || seen || existsb is_ego l).
Proof.
  induction l as [|s l IH]; intros seen.
  - destruct x; cbn; rewrite ?andb_true_r, ?orb_false_r; done.
  - change ((s :: l) ++ [x]) with (s :: (l ++ [x])).
    destruct s; cbn [ego_first existsb is_ego Parser.is_content_span negb orb]; rewrite IH;
      rewrite ?orb_true_r, ?andb_assoc; done.
Qed.

Lemma ego_first_mono l : ego_first false l = true -> ego_first true l = true.
Proof.
  induction l as [|s l IH]; [done|].
  destruct s; cbn [ego_first Parser.is_content_span negb orb andb]; try done.
Qed.

Lemma existsb_snoc {A : Type} (f : A -> bool) l x : existsb f (l ++ [x]) = existsb f l || f x.
Proof. rewrite existsb_app. cbn. by rewrite orb_false_r. Qed.

Lemma forallb_snoc {A : Type} (f : A -> bool) l x : forallb f (l ++ [x]) = forallb f l && f x.
Proof. rewrite forallb_app. cbn. by rewrite andb_true_r. Qed.

Lemma last_split (l : list Span) x : last l = Some x -> l = removelast l ++ [x].
Proof. intros [l' ->]%last_Some. by rewrite removelast_last. Qed.

Lemma Inv_set_pos p n : Inv p -> Inv (Parser.set_pos p n).
Proof. done. Qed.

Lemma Inv_set_counter p n : Inv p -> Inv (Parser.set_counter p n).
Proof. done. Qed.

Lemma Inv_implicit p : Inv p -> Inv (Parser._add_implicit_ego_if_needed p).
Proof.
  intros HI. unfold Parser._add_implicit_ego_if_needed.
  destruct (Parser.has_ego p) eqn:E; [done|].
  destruct (Parser.text_span_found _); [|done].
  destruct HI as (H1 & H2 & H3 & H4).
  repeat split; cbn; try done. by apply ego_first_mono.
Qed.

(** Appending a span that is no text. *)
Lemma Inv_append p span e :
  Inv p -> is_text span = false -> in_bodies shape span = true ->
  (Parser.is_content_span span = true -> existsb is_ego (Parser.ware p) = true) ->
  (match e with Some e' => nonempty e' = true | None => False end ->
   existsb is_ego (Parser.ware p ++ [span]) = true) ->
  Inv (Parser.set_ware (Parser.set_ego p e) (Parser.ware p ++ [span])).
Proof.
  intros (H1 & H2 & H3 & H4) Ht Hb Hc He. unfold Inv.
  cbn [Parser.ware Parser.set_ware Parser.set_ego].
  rewrite merged_snoc, ego_first_snoc, forallb_snoc, H1, H2, H4, Hb.
  repeat split.
  - by destruct span.
  - destruct (Parser.is_content_span span); [by rewrite Hc|done].
  - unfold Parser.has_ego. cbn [Parser.ego Parser.set_ware Parser.set_ego].
    destruct e as [e'|]; [|done]. intros H. by apply He.
Qed.

Lemma Inv_same_ego p : Parser.set_ego p (Parser.ego p) = p.
Proof. by destruct p. Qed.

Lemma Inv_append_content p span :
  Inv p -> Parser.has_ego p = true -> Parser.is_content_span span = true ->
  in_bodies shape span = true ->
  Inv (Parser.set_ware p (Parser.ware p ++ [span])).
Proof.
  intros HI He Hc Hb. pose proof HI as (H1 & H2 & H3 & H4).
  rewrite <- (Inv_same_ego p) at 1. apply Inv_append; try done.
  - by destruct span.
  - intros _. by apply H3.
  - intros _. rewrite existsb_snoc. by rewrite H3.
Qed.

Lemma _add_span_content p span p' :
  Inv p -> Parser.is_content_span span = true -> in_bodies shape span = true ->
  Parser._add_span p span = Ok p' -> Inv p'.
Proof.
  intros HI Hc Hb. unfold Parser._add_span. rewrite Hc, andb_true_r.
  destruct (Parser.has_ego p) eqn:E; cbn [negb mbind result_bind].
  - destruct span; try done; intros [= <-]; by apply Inv_append_content.
  - pose proof (Inv_implicit p HI) as HI'.
    destruct (Parser.has_ego (Parser._add_implicit_ego_if_needed p)) eqn:E';
      cbn [negb mbind result_bind]; [|done].
    destruct span; try done; intros [= <-]; by apply Inv_append_content.
Qed.

Lemma _add_span_Inv p span p' :
  Inv p -> in_bodies shape span = true -> Parser._add_span p span = Ok p' -> Inv p'.
Proof.
  intros HI Hb. pose proof HI as (H1 & H2 & H3 & H4).
  destruct span as [b t|b e|b f|b t|b ids|b cn body];
    try (by apply _add_span_content); unfold Parser._add_span.
  - (* reset *)
    cbn [Parser.is_content_span]. rewrite andb_false_r. cbn [mbind result_bind].
    intros [= <-]. by apply (Inv_append p _ None).
  - (* ego *)
    cbn [Parser.is_content_span]. rewrite andb_false_r. cbn [mbind result_bind].
    case_bool_decide as He; intros [= <-]; [done|].
    apply (Inv_append p _ (Some e)); try done;
      intros _; by rewrite existsb_snoc, orb_true_r.
  - (* text *)
    cbn [Parser.is_content_span]. rewrite andb_false_r. cbn [mbind result_bind].
    destruct (last (Parser.ware p)) as [[| | |lb lt| |]|] eqn:El;
      try (destruct (negb _) eqn:En; intros [= <-]; [done|];
           apply negb_false_iff in En;
           unfold Inv; cbn [Parser.ware Parser.set_ware Parser.has_ego Parser.ego];
           rewrite merged_snoc, ego_first_snoc, forallb_snoc, existsb_snoc, H1, H2, H4;
           unfold text_ok, last_is_text; rewrite El, En; cbn [is_text negb];
           repeat split; try done; intros HH; by rewrite H3).
    intros [= <-]. apply last_split in El.
    unfold Inv. cbn [Parser.ware Parser.set_ware Parser.has_ego Parser.ego].
    rewrite El in H1, H2, H3, H4.
    rewrite merged_snoc in *. rewrite ego_first_snoc in *. rewrite forallb_snoc in *.
    rewrite existsb_snoc in *.
    apply andb_true_iff in H1 as [H1 H1']. apply andb_true_iff in H1' as [H1' H1''].
    rewrite H1. cbn [text_ok]. rewrite H1'', (nonblank_app_l _ _ H1').
    repeat split; done.
Qed.

Lemma build_span_bodies counter spantext spans counter' :
  Parser.build_span counter spantext = Ok (spans, counter') ->
  forallb (in_bodies shape) spans = true.
Proof.
  unfold Parser.build_span. case_match; [by intros [= <- <-]|].
  destruct (Parser.parse_span_tag _) as [[[base kargs] kwargs]|]; cbn [mbind result_bind];
    [|done].
  unfold Parser._build_ego_or_sampler, Parser._build_context, Parser._build_class,
    Parser._build_obj.
  repeat case_match; intros [= <- <-]; done.
Qed.

Lemma _add_spans_Inv spanbuf : forall p p',
  Inv p -> forallb (in_bodies shape) spanbuf = true ->
  Parser._add_spans p spanbuf = Ok p' -> Inv p'.
Proof.
  induction spanbuf as [|span rest IH]; intros p p' HI; cbn [Parser._add_spans forallb].
  - by intros _ [= <-].
  - intros [Hs Hrest]%andb_true_iff.
    destruct (Parser._add_span p span) as [p1|] eqn:E; cbn [mbind result_bind]; [|done].
    apply IH; [|done]. by apply (_add_span_Inv p span).
Qed.

Lemma _parse_text_Inv p text p' : Inv p -> Parser._parse_text p text = Ok p' -> Inv p'.
Proof.
  intros HI. unfold Parser._parse_text. repeat case_match; try by intros [= <-].
  apply _add_span_Inv; done.
Qed.

Lemma merged_adjacent spans : forall j b t b' t',
  merged spans = true -> spans !! j = Some (TextSpan b t) ->
  spans !! S j = Some (TextSpan b' t') -> False.
Proof.
  induction spans as [|s spans IH]; intros j b t b' t' Hm; [done|].
  destruct j as [|j]; cbn [lookup list_lookup].
  - intros [= ->]. destruct spans as [|s' spans']; [done|]. cbn. intros [= ->].
    cbn [merged is_text negb] in Hm. by rewrite andb_false_r in Hm.
  - apply IH. destruct s; try done. cbn [merged] in Hm.
    by apply andb_true_iff in Hm as [_ ?].
Qed.

Lemma _finalize_text_span_from_merged spans : merged spans = true ->
  forall fuel i last_span,
    (i = 0 /\ last_span = None) \/ (exists j, i = S j /\ last_span = Some j) ->
    Parser._finalize_text_span_from fuel spans i last_span = spans.
Proof.
  intros Hm. induction fuel as [|fuel IH]; intros i last_span Hi; [done|].
  cbn [Parser._finalize_text_span_from].
  assert (Parser._finalize_text_span_from fuel spans (S i) (Some i) = spans) as Hnext
    by (apply IH; right; eauto).
  destruct (spans !! i) as [[| | |b t| |]|] eqn:Ei; try done.
  destruct Hi as [[-> ->]|(j & -> & ->)]; [done|].
  destruct (spans !! j) as [[| | |lb lt| |]|] eqn:Ej; try done.
  by destruct (merged_adjacent spans j lb lt b t).
Qed.

Lemma _finalize_text_span_Inv p : Inv p -> Parser._finalize_text_span p = p.
Proof.
  intros (H1 & _). unfold Parser._finalize_text_span.
  rewrite _finalize_text_span_from_merged; [by destruct p | done | by left].
Qed.

Section Nested.

Variable parse_block : string -> nat -> result (Holoware * nat).

Hypothesis parse_block_shape : forall s c body c',
  parse_block s c = Ok (body, c') -> at_all_levels shape body = true.

Lemma _parse_span_Inv p spantext p' :
  Inv p -> Parser._parse_span parse_block p spantext = Ok p' -> Inv p'.
Proof.
  intros HI. unfold Parser._parse_span.
  destruct (Parser.build_span _ _) as [[spanbuf counter]|] eqn:Eb; cbn [mbind result_bind];
    [|done].
  apply build_span_bodies in Eb.
  destruct (Parser._add_spans _ _) as [p1|] eqn:Ea; cbn [mbind result_bind]; [|done].
  apply _add_spans_Inv in Ea; [|by apply Inv_set_counter|done].
  destruct (last (Parser.ware p1)) as [[| | | | |b cn old]|] eqn:El; try by intros [= <-].
  unfold Parser._parse_indented_block.
  destruct (Parser._read_indented_block_content _ _) as [[block|] end_pos].
  2: { cbn [mbind result_bind]. intros [= <-]. by destruct p1. }
  case_match.
  { cbn [mbind result_bind]. intros [= <-]. by destruct p1. }
  destruct (parse_block _ _) as [[body c]|] eqn:Ep; cbn [mbind result_bind]; [|done].
  intros [= <-]. apply parse_block_shape in Ep.
  apply andb_true_iff in Ep as [Hs Hd].
  destruct Ea as (H1 & H2 & H3 & H4). apply last_split in El.
  unfold Inv. cbn [Parser.ware Parser.set_ware Parser.set_pos Parser.set_counter
                   Parser.has_ego Parser.ego].
  rewrite El in H1, H2, H3, H4.
  rewrite merged_snoc in *. rewrite ego_first_snoc in *. rewrite forallb_snoc in *.
  rewrite existsb_snoc in *.
  apply andb_true_iff in H4 as [H4 _]. rewrite H4. cbn [in_bodies]. rewrite Hs, Hd.
  repeat split; try done.
Qed.

Lemma parse_loop_Inv fuel : forall p p',
  Inv p -> Parser.parse_loop parse_block fuel p = Ok p' -> Inv p'.
Proof.
  induction fuel as [|fuel IH]; intros p p' HI; cbn [Parser.parse_loop]; [done|].
  case_match; [|by intros [= <-]].
  case_match; [by apply _parse_text_Inv|].
  set (next := Z.to_nat _).
  destruct (if Parser.pos p <? next then _ else Ok p) as [p1|] eqn:E1;
    cbn [mbind result_bind]; [|done].
  assert (Inv p1) as HI1.
  { revert E1. case_match; [by apply _parse_text_Inv | by intros [= <-]]. }
  destruct (Parser.read_until_span_end _) as [[t p2]|] eqn:E2; cbn [mbind result_bind]; [|done].
  assert (Inv p2) as HI2.
  { unfold Parser.read_until_span_end in E2.
    destruct (negb _) in E2; [done|]. destruct (_ =? _)%Z in E2; [done|].
    injection E2 as <- <-. by apply Inv_set_pos, Inv_set_pos. }
  destruct (Parser._parse_span parse_block p2 t) as [p3|] eqn:E3; cbn [mbind result_bind];
    [|done].
  apply IH. by apply (_parse_span_Inv p2 t).
Qed.

Lemma parse_with_shape content counter spans counter' :
  Parser.parse_with parse_block content counter = Ok (spans, counter') ->
  at_all_levels shape spans = true.
Proof.
  unfold Parser.parse_with.
  destruct (Parser.parse_loop _ _ _) as [p|] eqn:E; cbn [mbind result_bind]; [|done].
  apply parse_loop_Inv in E; [|done].
  assert (Inv (if Parser.start_with_system p then Parser._add_implicit_ego_if_needed p else p))
    as HI by (destruct (Parser.start_with_system p); [by apply Inv_implicit | done]).
  rewrite (_finalize_text_span_Inv _ HI). intros [= <- <-].
  destruct HI as (H1 & H2 & _ & H4). unfold at_all_levels. rewrite H4, andb_true_r.
  unfold shape. by rewrite H1, H2.
Qed.

End Nested.

Lemma parse_nested_shape depth : forall content counter spans counter',
  Parser.parse_nested depth content counter = Ok (spans, counter') ->
  at_all_levels shape spans = true.
Proof.
  induction depth as [|depth IH]; intros content counter spans counter'; [done|].
  cbn [Parser.parse_nested]. apply parse_with_shape. intros s c body c'. apply IH.
Qed.

Lemma parse_shape content spans :
  Parser.parse content = Ok spans -> at_all_levels shape spans = true.
Proof.
  unfold Parser.parse.
  destruct (Parser.parse_nested _ _ _) as [[ware c]|] eqn:E; cbn [mbind result_bind]; [|done].
  intros [= <-]. by apply parse_nested_shape in E.
Qed.

End ParseShape.

Lemma in_bodies_impl (P Q : list Span -> bool) :
  (forall l, P l = true -> Q l = true) ->
  forall s, in_bodies P s = true -> in_bodies Q s = true.
Proof.
  intros HPQ s.
  induction s as [b t|b e|b f|b t|b ids|b cn|b cn spans IH] using Span_nested_ind; try done.
  cbn [in_bodies]. intros [HP Hall]%andb_true_iff. rewrite (HPQ _ HP). cbn [andb].
  clear HP. induction IH as [|s spans Hs _ IHspans]; [done|].
  cbn [forallb] in *. apply andb_true_iff in Hall as [H1 H2].
  by rewrite (Hs H1), (IHspans H2).
Qed.

Lemma at_all_levels_impl (P Q : list Span -> bool) spans :
  (forall l, P l = true -> Q l = true) ->
  at_all_levels P spans = true -> at_all_levels Q spans = true.
Proof.
  intros HPQ [HP Hall]%andb_true_iff. unfold at_all_levels. rewrite (HPQ _ HP). cbn [andb].
  clear HP. induction spans as [|s spans IH]; [done|].
  cbn [forallb] in *. apply andb_true_iff in Hall as [H1 H2].
  by rewrite (in_bodies_impl P Q HPQ s H1), (IH H2).
Qed.

(** In a parsed template, and in every body of a class span in it, no two
    text spans are neighbours and every text span has a character that is
    no whitespace: the parser merges a text into the text span before it
    and drops a text of whitespace, so that the final merging pass has
    nothing left to do. *)
Theorem parse_merges_text_spans (content : string) (spans : Holoware) :
  Parser.parse content = Ok spans ->
  ParserSpec.at_all_levels ParserSpec.merged spans = true.
Proof.
  intros H%parse_shape. revert H. apply at_all_levels_impl.
  unfold shape. by intros l [? _]%andb_true_iff.
Qed.

Lemma parse_merges_text_spans_witness :
  ParserSpec.at_all_levels ParserSpec.merged
    [EgoSpan (mkBase (UuidStr "") "" [] ∅) "user"; TextSpan (mkBase (Uuid4 0) "" [] ∅) "a  b"]
  = true.
Proof.
  apply (parse_merges_text_spans "<|o_o|> a <|o_o|> b"). vm_compute. reflexivity.
Defined.

(** In a parsed template, and in every body of a class span in it, every
    sample, object and class span has an ego span somewhere before it. *)
Theorem parse_puts_an_ego_first (content : string) (spans : Holoware) :
  Parser.parse content = Ok spans ->
  ParserSpec.at_all_levels (ParserSpec.ego_first false) spans = true.
Proof.
  intros H%parse_shape. revert H. apply at_all_levels_impl.
  unfold shape. by intros l [_ ?]%andb_true_iff.
Qed.

Lemma parse_puts_an_ego_first_witness :
  ParserSpec.at_all_levels (ParserSpec.ego_first false)
    [EgoSpan (mkBase (Uuid4 2) "" [] ∅) "system"; TextSpan (mkBase (Uuid4 0) "" [] ∅) "Hi ";
     ObjSpan (mkBase (Uuid4 1) "" [] ∅) ["name"]]
  = true.
Proof.
  apply (parse_puts_an_ego_first "Hi <|name|>"). vm_compute. reflexivity.
Defined.

Section Escapes.

Import PyStr.

(** What [parse] makes of a source in which no tag opener is found. *)
Lemma parse_text_only content :
  let code := Parser.filter_comments content in
  let text := replace (replace code "\\" "\") "\<|" "<|" in
  Parser._find_next_span_start_from (S (len code)) code 0 = (-1)%Z ->
  Parser.parse content
  = Ok (if nonempty (strip text) then [TextSpan (Parser.new_base 0) text] else []).
Proof.
  intros code text Hno. unfold Parser.parse. cbn [Parser.parse_nested].
  unfold Parser.parse_with. fold code. cbn [Parser.code].
  cbn [Parser.parse_loop Parser.pos Parser.code].
  destruct code as [|c r] eqn:Ecode.
  - reflexivity.
  - change (0 <? len (String c r)) with true. cbv iota.
    unfold Parser._find_next_span_start. cbn [Parser.code Parser.pos].
    rewrite Hno. change ((-1 =? -1)%Z) with true. cbv iota.
    cbn [drop]. unfold Parser._parse_text. cbn [nonempty negb]. fold text.
    destruct text as [|c' r'] eqn:Etext; [reflexivity|].
    cbn [nonempty negb]. unfold Parser._add_span.
    cbn [Parser.ware last Parser.has_ego Parser.ego Parser.set_counter negb andb
         Parser.is_content_span mbind result_bind].
    destruct (nonempty (strip (String c' r'))); reflexivity.
Qed.

Lemma contains_escaped s : contains s "<|" = false -> contains s "\<|" = false.
Proof.
  induction s as [|c r IH]; [done|].
  cbn [contains]. intros [H1 H2]%orb_false_iff. rewrite (IH H2), orb_false_r.
  cbn [startswith]. destruct (Ascii.eqb "\" c); [|done].
  destruct r as [|c' r']; [done|]. cbn [contains] in H2.
  by apply orb_false_iff in H2 as [-> _].
Qed.

Lemma skip_then_replace old new n : forall s,
  replace_go old new n s = replace_go old new 0 (drop n s).
Proof.
  induction n as [|n IH]; intros s; [done|]. destruct s as [|c r]; [done|].
  cbn [replace_go drop]. apply IH.
Qed.

End Escapes.

(** A tag opener behind one backslash is text: a source that is the
    escaped opener followed by a string without tag opener and without
    doubled backslash, and that has no full-line comment, parses to one
    text span, whose text is the opener, without the backslash, and the
    string. *)
Theorem escaped_opener_is_text (S : string) :
  PyStr.contains S "<|" = false ->
  PyStr.contains S "\\" = false ->
  forallb (fun line => negb (PyStr.startswith (PyStr.strip line) "#"))
    (PyStr.split "010" ("\<|" +:+ S)) = true ->
  Parser.parse ("\<|" +:+ S) = Ok [TextSpan (mkBase (Uuid4 0) "" [] ∅) ("<|" +:+ S)].
Proof.
  intros Htag Hbs Hcomment.
  pose proof (parse_text_only ("\<|" +:+ S)) as H. cbv zeta in H.
  rewrite (filter_comments_none _ Hcomment) in H.
  assert (PyStr.replace ("\<|" +:+ S) "\\" "\" = "\<|" +:+ S) as E1.
  { apply replace_absent. rewrite !append_cons, append_nil_l.
    cbn [PyStr.contains PyStr.startswith Ascii.eqb Bool.eqb orb]. exact Hbs. }
  assert (PyStr.replace ("\<|" +:+ S) "\<|" "<|" = "<|" +:+ S) as E2.
  { unfold PyStr.replace. rewrite !append_cons, append_nil_l.
    cbn [PyStr.replace_go PyStr.startswith Ascii.eqb Bool.eqb PyStr.len String.length Nat.sub].
    pose proof (replace_absent S "\<|" "<|" (contains_escaped S Htag)) as HR.
    unfold PyStr.replace in HR. rewrite HR.
    assert (PyStr.startswith S "" = true) as -> by (by destruct S).
    by rewrite !append_cons, append_nil_l. }
  rewrite E1, E2 in H.
  assert (PyStr.nonempty (PyStr.strip ("<|" +:+ S)) = true) as E3.
  { rewrite !append_cons, append_nil_l. unfold PyStr.strip.
    destruct (rstrip_head "<" (String "|" S) eq_refl) as [r' ->]. done. }
  rewrite E3 in H. apply H.
  rewrite !append_cons, append_nil_l.
  assert (PyStr.startswith S "" = true) as Hnil by (by destruct S).
  assert (PyStr.find (String "\" (String "<" (String "|" S))) "<|" 0 = 1%Z) as F1.
  { unfold PyStr.find. cbn [PyStr.drop PyStr.find_from PyStr.startswith Ascii.eqb Bool.eqb].
    by rewrite Hnil. }
  assert (PyStr.find (String "\" (String "<" (String "|" S))) "<|" 2 = (-1)%Z) as F2.
  { unfold PyStr.find. cbn [PyStr.drop PyStr.find_from PyStr.startswith Ascii.eqb Bool.eqb].
    by rewrite (find_from_absent S "<|" 3 Htag). }
  cbn [PyStr.len String.length Parser._find_next_span_start_from].
  rewrite F1. change ((1 =? -1)%Z) with false. cbv iota.
  change (Nat.odd (Parser.num_backslashes _ (Z.to_nat 1))) with true. cbv iota.
  change (Z.to_nat 1 + 1) with 2. by rewrite F2.
Qed.

Lemma escaped_opener_is_text_witness :
  Parser.parse ("\<|" +:+ "o_o|> is the user tag")
  = Ok [TextSpan (mkBase (Uuid4 0) "" [] ∅) ("<|" +:+ "o_o|> is the user tag")].
Proof.
  apply (escaped_opener_is_text "o_o|> is the user tag"); reflexivity.
Defined.

Section LeadingTag.

Import PyStr ParserSpec.

Lemma find_from_closer b rest : forall p,
  contains b "|>" = false ->
  find_from (b +:+ "|>" +:+ rest) "|>" p = Some (p + len b).
Proof.
  induction b as [|c b IH]; intros p Hb.
  - rewrite append_nil_l. cbn [find_from]. rewrite !append_cons.
    cbn [startswith Ascii.eqb Bool.eqb]. destruct rest; cbn; f_equal; unfold len; cbn; lia.
  - cbn [contains] in Hb. apply orb_false_iff in Hb as [H1 H2].
    rewrite append_cons. cbn [find_from].
    assert (startswith (String c (b +:+ "|>" +:+ rest)) "|>" = false) as ->.
    { cbn [startswith] in *. destruct (Ascii.eqb "|" c); [|done].
      destruct b as [|c' b']; [rewrite append_nil_l, append_cons; reflexivity|].
      rewrite append_cons. cbn [startswith] in *.
      destruct (Ascii.eqb ">" c'); [|done]. by destruct b'. }
    rewrite IH by done. f_equal. unfold len. cbn [String.length]. lia.
Qed.

Lemma strip_plain_token t : plain_token t = true -> strip t = t.
Proof.
  intros Ht. unfold strip. rewrite rstrip_plain by done.
  unfold plain_token in Ht. destruct t as [|c t]; [done|].
  cbn [nonempty andb all_chars] in Ht. apply andb_true_iff in Ht as [Hc _].
  apply plain_char_not_special in Hc as (_ & _ & _ & Hc). by apply lstrip_plain.
Qed.

(** The spans of a bare tag whose base is no ego sigil and no reset. *)
Lemma build_span_bare counter b :
  plain_token b = true ->
  Parser.is_ego_or_sampler b ∅ = false -> Parser.is_context_reset b = false ->
  exists span, Parser.build_span counter b = Ok ([span], S counter)
               /\ Parser.is_content_span span = true.
Proof.
  intros Hb Hego Hreset. unfold Parser.build_span.
  rewrite strip_plain_token by done.
  assert (nonempty b = true) as Hne by (by apply andb_true_iff in Hb as [? _]).
  rewrite Hne. cbn [negb].
  pose proof (parse_span_tag_plain b [] ltac:(by repeat constructor)) as Ht.
  cbn [join Parser.parse_parts mbind result_bind] in Ht. rewrite Ht.
  cbn [mbind result_bind]. rewrite Hego, Hreset.
  destruct b as [|c b']; [done|].
  destruct (isupper c); eexists; (split; [reflexivity|done]).
Qed.

End LeadingTag.

(** A template that begins with a bare object or class tag is rejected:
    no ego is set there, and no text of the template comes first for which
    the parser would insert the system ego. *)
Theorem leading_content_tag_is_rejected (b rest : string) :
  ParserSpec.plain_token b = true ->
  PyStr.contains b "|>" = false ->
  Parser.is_ego_or_sampler b ∅ = false ->
  Parser.is_context_reset b = false ->
  forallb (fun line => negb (PyStr.startswith (PyStr.strip line) "#"))
    (PyStr.split "010" ("<|" +:+ b +:+ "|>" +:+ rest)) = true ->
  Parser.parse ("<|" +:+ b +:+ "|>" +:+ rest)
  = Raise (ValueError "Cannot have span before a ego.").
Proof.
  intros Hb Hclose Hego Hreset Hcomment.
  unfold Parser.parse. cbn [Parser.parse_nested]. unfold Parser.parse_with.
  rewrite (filter_comments_none _ Hcomment).
  set (code := "<|" +:+ b +:+ "|>" +:+ rest).
  assert (code = String "<" (String "|" (b +:+ "|>" +:+ rest))) as Ecode
    by (subst code; by rewrite !append_cons, append_nil_l).
  assert (PyStr.find code "<|" 0 = 0%Z) as F1.
  { rewrite Ecode. unfold PyStr.find.
    cbn [PyStr.drop PyStr.find_from PyStr.startswith Ascii.eqb Bool.eqb].
    by destruct (b +:+ "|>" +:+ rest). }
  assert (PyStr.find code "|>" 2 = Z.of_nat (2 + PyStr.len b)) as F2.
  { rewrite Ecode. unfold PyStr.find. cbn [PyStr.drop].
    by rewrite (find_from_closer b rest 2 Hclose). }
  assert (Parser._find_next_span_start_from (S (PyStr.len code)) code 0 = 0%Z) as F3.
  { cbn [Parser._find_next_span_start_from]. rewrite F1. reflexivity. }
  cbn [Parser.code Parser.parse_loop Parser.pos].
  assert ((0 <? PyStr.len code) = true) as -> by (by rewrite Ecode).
  unfold Parser._find_next_span_start. cbn [Parser.code Parser.pos]. rewrite F3.
  change ((0 =? -1)%Z) with false. cbv iota. change (Z.to_nat 0) with 0.
  change (0 <? 0) with false. cbv iota. cbn [mbind result_bind].
  unfold Parser.read_until_span_end. cbn [Parser.code Parser.pos Parser.set_pos].
  assert (PyStr.take 2 (PyStr.drop 0 code) = "<|") as ->.
  { rewrite Ecode. cbn [PyStr.drop PyStr.take]. by destruct (b +:+ "|>" +:+ rest). }
  change (negb (String.eqb "<|" "<|")) with false. cbv iota.
  change (0 + 2) with 2. rewrite F2.
  assert ((Z.of_nat (2 + PyStr.len b) =? -1)%Z = false) as -> by (apply Z.eqb_neq; lia).
  rewrite Nat2Z.id. replace (2 + PyStr.len b - 2) with (PyStr.len b) by lia.
  assert (PyStr.take (PyStr.len b) (PyStr.drop 2 code) = b) as ->.
  { rewrite Ecode. cbn [PyStr.drop]. apply take_app_len. }
  cbn [mbind result_bind]. unfold Parser._parse_span. cbn [Parser.counter Parser.set_pos].
  destruct (build_span_bare 0 b Hb Hego Hreset) as (span & -> & Hc).
  cbn [mbind result_bind Parser._add_spans]. unfold Parser._add_span.
  cbn [Parser.has_ego Parser.ego Parser.set_counter Parser.set_pos negb andb]. rewrite Hc.
  cbv iota. unfold Parser._add_implicit_ego_if_needed.
  cbn [Parser.has_ego Parser.ego Parser.set_counter Parser.set_pos Parser.ware
       Parser.text_span_found negb mbind result_bind]. reflexivity.
Qed.

Lemma leading_content_tag_is_rejected_witness :
  Parser.parse ("<|" +:+ "MyClass" +:+ "|>" +:+ " and the rest")
  = Raise (ValueError "Cannot have span before a ego.").
Proof.
  apply (leading_content_tag_is_rejected "MyClass" " and the rest"); reflexivity.
Defined.

Section TagErrors.

Import PyStr ParserSpec.

Lemma parse_parts_app parts more : forall acc,
  Parser.parse_parts (parts ++ more) acc
  = acc' ← Parser.parse_parts parts acc; Parser.parse_parts more acc'.
Proof.
  induction parts as [|t rest IH]; intros acc; [done|].
  cbn [app Parser.parse_parts].
  destruct (Parser.parse_part t acc) as [acc1|]; cbn [mbind result_bind]; [apply IH | done].
Qed.

End TagErrors.

(** A tag whose arguments end with a bare [<>] is rejected: the fence
    attribute needs a name. *)
Theorem empty_fence_attribute_is_rejected (base : string) (kargs : list string) :
  Forall (fun t => ParserSpec.plain_token t = true) (base :: kargs) ->
  Forall (fun t => PyStr.contains t "=" = false /\ PyStr.startswith t "<>" = false) kargs ->
  Parser.parse_span_tag (PyStr.join " " (base :: kargs ++ ["<>"]))
  = Raise (ValueError "Empty <> attribute").
Proof.
  intros Hplain Hpos.
  rewrite (parse_span_tag_plain base (kargs ++ ["<>"])).
  - rewrite parse_parts_app, (parse_parts_positional kargs [] ∅ Hpos). reflexivity.
  - apply Forall_cons in Hplain as [Hb Hk]. constructor; [done|].
    apply Forall_app. split; [done|]. by repeat constructor.
Qed.

Lemma empty_fence_attribute_is_rejected_witness :
  Parser.parse_span_tag (PyStr.join " " ("MyClass" :: [] ++ ["<>"]))
  = Raise (ValueError "Empty <> attribute").
Proof.
  apply (empty_fence_attribute_is_rejected "MyClass" []); repeat constructor.
Defined.

Section Unclosed.

Import PyStr ParserSpec.

Lemma find_from_opener s rest : forall p,
  contains s "<|" = false ->
  find_from (s +:+ "<|" +:+ rest) "<|" p = Some (p + len s).
Proof.
  induction s as [|c s IH]; intros p Hs.
  - rewrite append_nil_l. cbn [find_from]. rewrite !append_cons.
    cbn [startswith Ascii.eqb Bool.eqb]. destruct rest; cbn; f_equal; unfold len; cbn; lia.
  - cbn [contains] in Hs. apply orb_false_iff in Hs as [H1 H2].
    rewrite append_cons. cbn [find_from].
    assert (startswith (String c (s +:+ "<|" +:+ rest)) "<|" = false) as ->.
    { cbn [startswith] in *. destruct (Ascii.eqb "<" c); [|done].
      destruct s as [|c' s']; [rewrite append_nil_l, append_cons; reflexivity|].
      rewrite append_cons. cbn [startswith] in *.
      destruct (Ascii.eqb "|" c'); [|done]. by destruct s'. }
    rewrite IH by done. f_equal. unfold len. cbn [String.length]. lia.
Qed.

Lemma rstrip_char_no_char ch s :
  all_chars (fun c => negb (Ascii.eqb c ch)) s = true -> rstrip_char ch s = s.
Proof.
  induction s as [|c s IH]; [done|]. cbn [all_chars rstrip_char].
  intros [Hc Hs]%andb_true_iff. rewrite IH by done. apply negb_true_iff in Hc.
  destruct s; [by rewrite Hc | done].
Qed.

Lemma _add_span_text_ok p b t : exists p',
  Parser._add_span p (TextSpan b t) = Ok p'
  /\ Parser.code p' = Parser.code p /\ Parser.pos p' = Parser.pos p.
Proof.
  unfold Parser._add_span. cbn [Parser.is_content_span]. rewrite andb_false_r.
  cbn [mbind result_bind]. repeat case_match; eexists; (split; [reflexivity|done]).
Qed.

Lemma _parse_text_ok p text : exists p',
  Parser._parse_text p text = Ok p'
  /\ Parser.code p' = Parser.code p /\ Parser.pos p' = Parser.pos p.
Proof.
  unfold Parser._parse_text. repeat case_match; try (eexists; split; [reflexivity|done]).
  match goal with |- exists p', Parser._add_span ?q (TextSpan ?b ?t) = _ /\ _ =>
    destruct (_add_span_text_ok q b t) as (p' & E & Hc & Hp) end.
  exists p'. by rewrite E.
Qed.

End Unclosed.

(** A tag opener that is not escaped and has no closer behind it makes
    the parser fail with "Unclosed tag", whatever text comes before it. *)
Theorem unclosed_tag_is_rejected (S T : string) :
  PyStr.contains S "<|" = false ->
  ParserSpec.all_chars (fun c => negb (Ascii.eqb c Parser.bslash)) S = true ->
  PyStr.contains T "|>" = false ->
  forallb (fun line => negb (PyStr.startswith (PyStr.strip line) "#"))
    (PyStr.split "010" (S +:+ "<|" +:+ T)) = true ->
  Parser.parse (S +:+ "<|" +:+ T) = Raise (ValueError "Unclosed tag").
Proof.
  intros HS Hbs HT Hcomment.
  unfold Parser.parse. cbn [Parser.parse_nested]. unfold Parser.parse_with.
  rewrite (filter_comments_none _ Hcomment).
  set (code := S +:+ "<|" +:+ T).
  assert (PyStr.len code = PyStr.len S + (2 + PyStr.len T)) as Hlen.
  { subst code. rewrite !len_app. reflexivity. }
  assert (PyStr.find code "<|" 0 = Z.of_nat (PyStr.len S)) as F1.
  { unfold PyStr.find. cbn [PyStr.drop]. subst code. by rewrite find_from_opener. }
  assert (Parser.num_backslashes code (PyStr.len S) = 0) as F2.
  { unfold Parser.num_backslashes. subst code. rewrite take_app_len.
    rewrite rstrip_char_no_char by done. lia. }
  assert (PyStr.drop (PyStr.len S) code = "<|" +:+ T) as F3 by (subst code; apply drop_app).
  assert (PyStr.find code "|>" (PyStr.len S + 2) = (-1)%Z) as F4.
  { unfold PyStr.find. replace (PyStr.len S + 2) with (2 + PyStr.len S) by lia.
    rewrite <- drop_drop, F3. rewrite !append_cons, append_nil_l. cbn [PyStr.drop].
    by rewrite find_from_absent. }
  assert (Parser._find_next_span_start_from (Datatypes.S (PyStr.len code)) code 0
          = Z.of_nat (PyStr.len S)) as F5.
  { cbn [Parser._find_next_span_start_from]. rewrite F1.
    assert ((Z.of_nat (PyStr.len S) =? -1)%Z = false) as -> by (apply Z.eqb_neq; lia).
    by rewrite Nat2Z.id, F2. }
  cbn [Parser.code Parser.parse_loop Parser.pos].
  assert ((0 <? PyStr.len code) = true) as -> by (apply Nat.ltb_lt; lia).
  unfold Parser._find_next_span_start. cbn [Parser.code Parser.pos]. rewrite F5.
  assert ((Z.of_nat (PyStr.len S) =? -1)%Z = false) as -> by (apply Z.eqb_neq; lia).
  rewrite Nat2Z.id.
  set (p0 := Parser.mkParser code 0 [] None false 0).
  assert (exists p1, (if 0 <? PyStr.len S
                      then Parser._parse_text p0 (PyStr.take (PyStr.len S - 0) (PyStr.drop 0 code))
                      else Ok p0) = Ok p1
                     /\ Parser.code p1 = code /\ Parser.pos p1 = 0) as (p1 & -> & Hc & Hp).
  { destruct (0 <? PyStr.len S); [apply _parse_text_ok | by exists p0]. }
  cbn [mbind result_bind]. unfold Parser.read_until_span_end.
  cbn [Parser.code Parser.pos Parser.set_pos]. rewrite Hc, F3, F4.
  by rewrite !append_cons, append_nil_l.
Qed.

Lemma unclosed_tag_is_rejected_witness :
  Parser.parse ("Hello " +:+ "<|" +:+ "o_o") = Raise (ValueError "Unclosed tag").
Proof.
  apply (unclosed_tag_is_rejected "Hello " "o_o"); reflexivity.
Defined.

Section ObjectTag.

Import PyStr ParserSpec.

Lemma split_app_sep ch a b :
  all_chars (fun c => negb (Ascii.eqb c ch)) a = true ->
  split ch (a +:+ String ch "" +:+ b) = a :: split ch b.
Proof.
  induction a as [|c r IH].
  { intros _. rewrite append_nil_l, append_cons, append_nil_l. cbn [split].
    by rewrite Ascii.eqb_refl. }
  cbn [all_chars].
  intros [Hc Hr]%andb_true_iff. rewrite append_cons. cbn [split].
  apply negb_true_iff in Hc. rewrite Hc. by rewrite IH.
Qed.

Lemma split_one ch a :
  all_chars (fun c => negb (Ascii.eqb c ch)) a = true -> split ch a = [a].
Proof.
  induction a as [|c r IH]; [done|]. cbn [all_chars].
  intros [Hc Hr]%andb_true_iff. cbn [split].
  apply negb_true_iff in Hc. rewrite Hc. by rewrite IH.
Qed.

Lemma split_join_sep ch l :
  Forall (fun x => all_chars (fun c => negb (Ascii.eqb c ch)) x = true) l -> l <> [] ->
  split ch (join (String ch "") l) = l.
Proof.
  induction 1 as [|x l Hx Hl IH]; [done|]. intros _.
  destruct l as [|y l]; [by apply split_one|].
  change (join (String ch "") (x :: y :: l))
    with (x +:+ String ch "" +:+ join (String ch "") (y :: l)).
  rewrite split_app_sep by done. by rewrite IH.
Qed.

Lemma plain_join_pipe l :
  Forall (fun t => plain_token t = true) l -> l <> [] -> plain_token (join "|" l) = true.
Proof.
  induction 1 as [|x l Hx Hl IH]; [done|]. intros _.
  destruct l as [|y l]; [done|].
  change (join "|" (x :: y :: l)) with (x +:+ "|" +:+ join "|" (y :: l)).
  specialize (IH ltac:(done)). unfold plain_token in *.
  apply andb_true_iff in Hx as [Hx1 Hx2]. apply andb_true_iff in IH as [_ IH].
  rewrite !all_chars_app, Hx2, IH. destruct x; [done|]. by rewrite append_cons.
Qed.

End ObjectTag.

(** An object tag lists its variables: a tag that is the names joined by
    "|", where the names need no quoting and hold no "|", the first of them
    begins with no uppercase letter and the whole is no ego sigil and no
    reset, is one object span with these names as its [var_ids]. *)
Theorem object_tag_lists_its_var_ids (counter : nat) (ids : list string) :
  Forall (fun t => ParserSpec.plain_token t = true
                   /\ ParserSpec.all_chars (fun c => negb (Ascii.eqb c "|")) t = true) ids ->
  (exists c r rest, ids = String c r :: rest /\ PyStr.isupper c = false) ->
  Parser.is_ego_or_sampler (PyStr.join "|" ids) ∅ = false ->
  Parser.is_context_reset (PyStr.join "|" ids) = false ->
  Parser.build_span counter (PyStr.join "|" ids)
  = Ok ([ObjSpan (mkBase (Uuid4 counter) "" [] ∅) ids], S counter).
Proof.
  intros Hids (c & r & rest & -> & Hup) Hego Hreset.
  set (ids := String c r :: rest) in *.
  assert (ParserSpec.plain_token (PyStr.join "|" ids) = true) as Hplain.
  { apply plain_join_pipe; [|done]. eapply Forall_impl; [exact Hids|]. by intros t [? _]. }
  unfold Parser.build_span. rewrite strip_plain_token by done.
  assert (PyStr.nonempty (PyStr.join "|" ids) = true) as -> by (by apply andb_true_iff in Hplain as [? _]).
  cbn [negb].
  pose proof (parse_span_tag_plain (PyStr.join "|" ids) [] ltac:(by repeat constructor)) as Ht.
  cbn [PyStr.join Parser.parse_parts mbind result_bind] in Ht.
  change (match ids with [] => "" | _ => _ end) with (PyStr.join "|" ids) in Ht.
  rewrite Ht. cbn [mbind result_bind]. rewrite Hego, Hreset.
  assert (exists r', PyStr.join "|" ids = String c r') as [r' Hj].
  { subst ids. destruct rest; [by exists r|]. eexists.
    change (PyStr.join "|" (String c r :: s :: rest))
      with (String c r +:+ "|" +:+ PyStr.join "|" (s :: rest)). by rewrite append_cons. }
  rewrite Hj at 1. rewrite Hup. unfold Parser._build_obj, Parser.set_args, Parser.new_base.
  rewrite !lookup_empty, map_filter_empty. cbn [default uuid id].
  rewrite (split_join_sep "|" ids); [|eapply Forall_impl; [exact Hids|]; by intros t [_ ?] | done].
  do 4 f_equal.
  clear -Hids. induction Hids as [|t l [Ht _] _ IH]; [done|].
  cbn [map]. by rewrite strip_plain_token, IH.
Qed.

Lemma object_tag_lists_its_var_ids_witness :
  Parser.build_span 0 (PyStr.join "|" ["text"; "original"; "input"; "data"])
  = Ok ([ObjSpan (mkBase (Uuid4 0) "" [] ∅) ["text"; "original"; "input"; "data"]], 1).
Proof.
  apply (object_tag_lists_its_var_ids 0 ["text"; "original"; "input"; "data"]).
  - repeat constructor.
  - by exists "t"%char, "ext", ["original"; "input"; "data"].
  - reflexivity.
  - reflexivity.
Defined.

End ParserFacts.

(** ** holoware.py: the phases of a call *)

Section CallFacts.

Import Examples.

Section PhaseThree.

Variable sample : Rollout -> list string -> option string.
Variable registry : string -> option HoloClass.








End PhaseThree.



(** A class span evaluated through its body records the fragments of the
    body under spans of the body, and the call then ends in the error of
    [find_span]. *)
Example class_body_fragments_are_not_found :
  run_holoware (mock_sample "mocked_sample") BOX_HOL (<["Box" := VClass Box]> ∅)
  = Raise (ValueError "Span not found with uid").
Proof. vm_compute. reflexivity. Qed.

Section UnknownClass.

Variable sample : Rollout -> list string -> option string.
Variable registry : string -> option HoloClass.

Lemma env_instantiate h span h' :
  instantiate registry h span = Ok h' -> env h' = env h.
Proof.
  unfold instantiate. destruct span; try (by intros [= <-]).
  destruct (get_class registry h class_name) as [[s|c]|]; [| |done].
  - done.
  - destruct (_is_holostatic c); [by intros [= <-]|].
    cbn [invoke_init]. destruct (construct c _ _) as [inst|]; [|done]. cbn.
    destruct (holo_init_hook inst) as [f|]; [destruct (f _)|]; by intros [= <-].
Qed.

Lemma get_class_env h h' cn : env h' = env h -> get_class registry h' cn = get_class registry h cn.
Proof. unfold get_class. by intros ->. Qed.

Lemma instantiate_all_unknown b cn body spans : forall h,
  ClassSpan b cn body ∈ spans -> get_class registry h cn = None ->
  exists e, instantiate_all registry h spans = Raise e.
Proof.
  induction spans as [|s spans IH]; intros h Hin Hno; [by apply elem_of_nil in Hin|].
  cbn [instantiate_all]. apply elem_of_cons in Hin as [<-|Hin].
  - cbn [instantiate]. rewrite Hno. cbn [mbind result_bind]. eauto.
  - destruct (instantiate registry h s) as [h1|e] eqn:E; cbn [mbind result_bind]; [|eauto].
    apply IH; [done|]. rewrite (get_class_env h h1); [done|]. by apply env_instantiate in E.
Qed.

End UnknownClass.

(** A template with a top-level class span whose class is neither a true
    value of [env] nor known to the registry cannot be called: the call
    raises in its first phase, before any span is handled. *)
Theorem call_fails_on_unknown_class
    (sample : Rollout -> list string -> option string)
    (registry : string -> option HoloClass)
    (self : Holoware) (h : Holophore) (b : SpanBase) (cn : string) (body : option Holoware) :
  ClassSpan b cn body ∈ self ->
  get_class registry h cn = None ->
  exists e, call sample registry self h = Raise e
            /\ instantiate_all registry (set_holowares h (_holowares h ++ [self])) self
               = Raise e.
Proof.
  intros Hin Hno. unfold call, call_with.
  destruct (instantiate_all_unknown registry b cn body self
              (set_holowares h (_holowares h ++ [self])) Hin Hno) as [e He].
  exists e. by rewrite He.
Qed.

Lemma call_fails_on_unknown_class_witness :
  exists e, call (mock_sample "mocked_sample") no_registry
              [EgoSpan (named "") "user"; ClassSpan (fresh 0) "Nowhere" None] (init [] ∅)
            = Raise e.
Proof.
  destruct (call_fails_on_unknown_class (mock_sample "mocked_sample") no_registry
              [EgoSpan (named "") "user"; ClassSpan (fresh 0) "Nowhere" None] (init [] ∅)
              (fresh 0) "Nowhere" None) as (e & He & _).
  - apply elem_of_cons. right. apply elem_of_cons. by left.
  - reflexivity.
  - by exists e.
Defined.

End CallFacts.

(** ** context.py: contexts from text *)

Section ChatTextFacts.

Example from_text_example :
  ChatText.from_text
    ("<|im_start|>system" +:+ PyStr.nl +:+ "Be brief." +:+ PyStr.nl +:+ "<|im_end|>" +:+ PyStr.nl
     +:+ "<|im_start|>user" +:+ PyStr.nl +:+ "Hi" +:+ PyStr.nl +:+ "there" +:+ PyStr.nl +:+ "<|im_end|>")
    Chat.REINFORCE_USER
  = Ok [mkFrag "Be brief." (Some "system") FROZEN;
        mkFrag ("Hi" +:+ PyStr.nl +:+ "there") (Some "user") REINFORCE].
Proof. vm_compute. reflexivity. Qed.

Section FromText.

Import PyStr ParserSpec ChatText.

Lemma startswith_nil s : startswith s "" = true.
Proof. by destruct s. Qed.

Lemma startswith_app p s : startswith (p +:+ s) p = true.
Proof.
  induction p as [|a p IH]; [apply startswith_nil|].
  rewrite append_cons. cbn [startswith]. by rewrite Ascii.eqb_refl.
Qed.

Lemma role_run_app r x :
  all_chars (fun c => negb (Ascii.eqb c lf || Ascii.eqb c cr)) r = true ->
  role_run (r +:+ String lf x) = len r.
Proof.
  induction r as [|c r IH]; [done|]. cbn [all_chars].
  intros [Hc Hr]%andb_true_iff. rewrite append_cons. cbn [role_run].
  apply negb_true_iff in Hc. rewrite Hc, IH by done. done.
Qed.

Lemma match_close_here rest :
  match_close (nl +:+ im_end +:+ rest) = Some (1 + len im_end).
Proof.
  unfold match_close, match_eol, nl. rewrite append_cons, append_nil_l.
  cbn [startswith Ascii.eqb Bool.eqb cr lf]. rewrite startswith_nil. cbn [drop].
  by rewrite startswith_app.
Qed.

Lemma match_close_not_yet a c rest :
  content_ok (String a c) = true ->
  match_close (String a c +:+ nl +:+ im_end +:+ rest) = None.
Proof.
  unfold content_ok. intros [Hlt Hcr]%andb_true_iff.
  apply negb_true_iff in Hlt, Hcr. rewrite append_cons.
  unfold match_close, match_eol, lf, cr in *. cbn [startswith contains] in *.
  apply orb_false_iff in Hlt as [H1 H2].
  destruct (Ascii.eqb_spec "013" a) as [<-|Hncr].
  - (* a carriage return *)
    destruct c as [|b c'].
    + exfalso. revert Hcr. unfold endswith. by cbn.
    + rewrite append_cons. cbn [startswith].
      destruct (Ascii.eqb_spec "010" b) as [<-|Hnlf]; [|done].
      rewrite startswith_nil. cbn [drop].
      cbn [contains startswith] in H2. apply orb_false_iff in H2 as [H2 _].
      change (Ascii.eqb "010" "010") with true in H2. cbv iota in H2.
      destruct c' as [|d c'']; [by rewrite append_nil_l|].
      rewrite append_cons. unfold im_end. cbn [startswith] in *.
      destruct (Ascii.eqb "<" d); [|done]. by rewrite startswith_nil in H2.
  - destruct (Ascii.eqb_spec "010" a) as [<-|Hnlf]; [|done].
    rewrite startswith_nil. cbn [drop].
    change (Ascii.eqb "010" "010") with true in H1. cbv iota in H1.
    destruct c as [|d c'']; [by rewrite append_nil_l|].
    rewrite append_cons. unfold im_end. cbn [startswith] in *.
    destruct (Ascii.eqb "<" d); [|done]. by rewrite startswith_nil in H1.
Qed.

Lemma content_ok_tail a c : content_ok (String a c) = true -> content_ok c = true.
Proof.
  unfold content_ok. intros [Hlt Hcr]%andb_true_iff.
  apply negb_true_iff in Hlt, Hcr. cbn [contains] in Hlt.
  apply orb_false_iff in Hlt as [_ ->]. cbn [negb andb].
  destruct c as [|b c']; [done|].
  rewrite <- (endswith_drop (String a (String b c')) (String cr "") 1) in Hcr
    by (unfold len; cbn; lia).
  cbn [drop] in Hcr. by rewrite Hcr.
Qed.

Lemma match_content_block c rest : forall k,
  content_ok c = true ->
  match_content (c +:+ nl +:+ im_end +:+ rest) k = Some (k + len c, 1 + len im_end).
Proof.
  induction c as [|a c IH]; intros k Hok.
  - rewrite append_nil_l.
    assert (exists x, nl +:+ im_end +:+ rest = String lf x) as [x Hx]
      by (eexists; unfold nl; by rewrite append_cons, append_nil_l).
    pose proof (match_close_here rest) as Hc. rewrite Hx in *.
    cbn [match_content]. rewrite Hc. f_equal. f_equal. unfold len. cbn. lia.
  - pose proof (match_close_not_yet a c rest Hok) as Hc. rewrite append_cons in *.
    cbn [match_content]. rewrite Hc. rewrite IH by (by apply content_ok_tail in Hok).
    f_equal. f_equal. unfold len. cbn [String.length]. lia.
Qed.

Lemma match_at_block m rest :
  role_ok (role m) = true -> content_ok (content m) = true ->
  match_at (block m +:+ rest) = Some (role m, content m, len (block m)).
Proof.
  unfold role_ok. intros [[Hne Hrun]%andb_true_iff _]%andb_true_iff Hc.
  set (Z := content m +:+ nl +:+ im_end +:+ rest).
  set (Y := role m +:+ nl +:+ Z).
  assert (block m +:+ rest = im_start +:+ Y) as ->.
  { unfold block, Y, Z, im_start, im_end. by rewrite !append_assoc. }
  assert (nl +:+ Z = String lf Z) as Hnl by (unfold nl; by rewrite append_cons, append_nil_l).
  unfold match_at. rewrite startswith_app, drop_app.
  assert (role_run Y = len (role m)) as -> by (unfold Y; rewrite Hnl; by apply role_run_app).
  assert ((len (role m) =? 0) = false) as ->
    by (apply Nat.eqb_neq; destruct (role m); [done | unfold len; cbn; lia]).
  assert (drop (len (role m)) Y = String lf Z) as HdY by (unfold Y; by rewrite drop_app).
  rewrite HdY. unfold match_eol. cbn [startswith Ascii.eqb Bool.eqb cr lf].
  rewrite startswith_nil.
  replace (len (role m) + 1) with (1 + len (role m)) by lia.
  rewrite <- drop_drop, HdY. cbn [drop].
  unfold Z at 1. rewrite match_content_block by done.
  unfold Y at 1. rewrite take_app_len. unfold Z. cbn [Nat.add]. rewrite take_app_len.
  f_equal. f_equal. unfold block. rewrite !len_app. unfold im_start, im_end, nl.
  unfold len. cbn [String.length]. lia.
Qed.

Lemma finditer_match fuel s role content n :
  nonempty s = true -> match_at s = Some (role, content, n) ->
  finditer (S fuel) s = (role, content) :: finditer fuel (drop n s).
Proof. intros Hs H. destruct s; [done|]. cbn [finditer]. by rewrite H. Qed.

Lemma finditer_newline fuel x : finditer (S fuel) (nl +:+ x) = finditer fuel x.
Proof. unfold nl. rewrite append_cons, append_nil_l. reflexivity. Qed.

Lemma len_block m : 2 <= len (block m).
Proof. unfold block. rewrite !len_app. unfold len. cbn [String.length]. lia. Qed.

Lemma finditer_blocks msgs : forall fuel,
  2 * length msgs <= fuel ->
  Forall (fun m => role_ok (role m) = true /\ content_ok (content m) = true) msgs ->
  finditer fuel (join nl (map block msgs)) = map (fun m => (role m, content m)) msgs.
Proof.
  induction msgs as [|m msgs IH]; intros fuel Hfuel Hok.
  - destruct fuel; reflexivity.
  - apply Forall_cons in Hok as [[Hr Hc] Hok].
    cbn [length] in Hfuel. destruct fuel as [|[|fuel]]; [lia..|].
    pose proof (len_block m) as Hlen.
    pose proof (match_at_block m "" Hr Hc) as Hm1. rewrite append_nil_r in Hm1.
    assert (forall x, nonempty (block m +:+ x) = true) as Hnb.
    { intros x. destruct (block m) eqn:Eb; [unfold len in Hlen; cbn in Hlen; lia|].
      by rewrite append_cons. }
    destruct msgs as [|m' msgs].
    + cbn [map join]. specialize (Hnb ""). rewrite append_nil_r in Hnb.
      rewrite (finditer_match _ _ _ _ _ Hnb Hm1). cbn [map]. f_equal.
      rewrite drop_ge by reflexivity. by destruct fuel.
    + change (join nl (map block (m :: m' :: msgs)))
        with (block m +:+ nl +:+ join nl (map block (m' :: msgs))).
      pose proof (match_at_block m (nl +:+ join nl (map block (m' :: msgs))) Hr Hc) as Hm.
      rewrite (finditer_match _ _ _ _ _ (Hnb _) Hm), drop_app, finditer_newline.
      cbn [map]. f_equal. apply IH; [cbn [length] in *; lia | done].
Qed.

Lemma len_join_blocks msgs : 2 * length msgs <= len (join nl (map block msgs)).
Proof.
  induction msgs as [|m msgs IH]; [done|]. pose proof (len_block m) as Hm.
  destruct msgs as [|m' msgs]; [cbn [map join length]; lia|].
  change (join nl (map block (m :: m' :: msgs)))
    with (block m +:+ nl +:+ join nl (map block (m' :: msgs))).
  rewrite !len_app. cbn [length] in *. lia.
Qed.

End FromText.

Lemma from_text_blocks (msgs : list Message) (masking : Chat.AutoMask) :
  msgs <> [] ->
  Forall (fun m => ChatText.role_ok (role m) = true /\ ChatText.content_ok (content m) = true)
    msgs ->
  ChatText.from_text (PyStr.join PyStr.nl (map block msgs)) masking
  = Ok (Chat.from_api_chat (map Chat.entry msgs) masking).
Proof.
  intros Hne Hok. unfold ChatText.from_text.
  rewrite finditer_blocks; [|pose proof (len_join_blocks msgs); lia | done].
  destruct (map (fun m => (role m, content m)) msgs) as [|p l] eqn:E.
  { by destruct msgs. }
  rewrite <- E. f_equal. f_equal. clear E Hne.
  induction Hok as [|m msgs' [Hr _] _ IH]; [done|]. cbn [map fst snd]. rewrite IH.
  f_equal. unfold Chat.entry. f_equal. f_equal.
  unfold ChatText.role_ok in Hr. apply andb_true_iff in Hr as [_ Hr].
  by apply String.eqb_eq in Hr.
Qed.

(** [from_text] reads back what [to_api_string] writes: from the blocks
    of a chat, joined by line feeds, it builds the context that
    [from_api_chat] builds from the chat, when every role is a non-empty
    line without outer whitespace and no content has a line that begins
    with "<" or ends with a carriage return. *)
Theorem from_text_reads_blocks_back (msgs : list Message) (masking : Chat.AutoMask) :
  msgs <> [] ->
  Forall (fun m => ChatText.role_ok (role m) = true /\ ChatText.content_ok (content m) = true)
    msgs ->
  ChatText.from_text (PyStr.join PyStr.nl (map block msgs)) masking
  = Ok (Chat.from_api_chat (map Chat.entry msgs) masking).
Proof. apply from_text_blocks. Qed.

Lemma from_text_reads_blocks_back_witness :
  ChatText.from_text
    (PyStr.join PyStr.nl
       (map block [mkMessage "system" "Be brief."; mkMessage "assistant" " Hello "]))
    Chat.REINFORCE_ASSISTANT
  = Ok (Chat.from_api_chat
          (map Chat.entry [mkMessage "system" "Be brief."; mkMessage "assistant" " Hello "])
          Chat.REINFORCE_ASSISTANT).
Proof.
  apply (from_text_reads_blocks_back
           [mkMessage "system" "Be brief."; mkMessage "assistant" " Hello "]
           Chat.REINFORCE_ASSISTANT); [done | repeat constructor].
Defined.

Section FromTextErrors.

Import PyStr ChatText.

Lemma finditer_nothing fuel : forall s,
  contains s im_start = false -> finditer fuel s = [].
Proof.
  induction fuel as [|fuel IH]; intros s Hs; [done|]. destruct s as [|c s]; [done|].
  cbn [finditer]. cbn [contains] in Hs. apply orb_false_iff in Hs as [H1 H2].
  unfold match_at. rewrite H1. by apply IH.
Qed.

Lemma is_role_ok r : Chat.is_role r = true -> role_ok r = true.
Proof.
  unfold Chat.is_role.
  intros [[->%String.eqb_eq | ->%String.eqb_eq]%orb_true_iff | ->%String.eqb_eq]%orb_true_iff;
    reflexivity.
Qed.

End FromTextErrors.

(** [from_text] raises its ValueError on every text without the opening
    delimiter, the empty text among them. *)
Theorem from_text_needs_a_block (text : string) (masking : Chat.AutoMask) :
  PyStr.contains text ChatText.im_start = false ->
  ChatText.from_text text masking
  = Raise (ValueError "from_text: no delimited messages found").
Proof. intros H. unfold ChatText.from_text. by rewrite finditer_nothing. Qed.

Lemma from_text_needs_a_block_witness :
  ChatText.from_text "system: be brief" Chat.FREEZE_ALL
  = Raise (ValueError "from_text: no delimited messages found").
Proof. apply (from_text_needs_a_block "system: be brief" Chat.FREEZE_ALL). reflexivity. Defined.

(** The completion string of a context is read back by [from_text] as the
    chat of the context: when the context ends with no open assistant
    tail and has a message, and no content of its messages has a line
    that begins with "<" or ends with a carriage return, [from_text] of
    [to_api_string] builds what [from_api_chat] builds from
    [to_api_messages]. *)
Theorem to_api_string_from_text (frags : FragList) (masking : Chat.AutoMask) :
  ContextSpec.open_tail_cue frags = false ->
  to_api_messages frags false <> [] ->
  Forall (fun m => ChatText.content_ok (content m) = true) (to_api_messages frags false) ->
  ChatText.from_text (to_api_string frags) masking
  = Ok (Chat.from_api_chat (map Chat.entry (to_api_messages frags false)) masking).
Proof.
  intros Hcue Hne Hok.
  assert (to_api_string frags = PyStr.join PyStr.nl (map block (to_api_messages frags false)))
    as ->.
  { unfold to_api_string, ContextSpec.open_tail_cue in *.
    destruct (last frags); [by rewrite Hcue | done]. }
  apply from_text_blocks; [done|].
  pose proof (render_roles (fun r => Chat.is_role r = true) false (ContextSpec.groups frags)
                (group_by_role_fst _ _ (roles_from_is_role frags 0))) as Hroles.
  rewrite <- to_api_messages_render in Hroles.
  revert Hok Hroles. generalize (to_api_messages frags false).
  induction 1 as [|m l Hm _ IH]; [constructor|].
  intros [Hr Hl]%Forall_cons. constructor; [|by apply IH].
  split; [by apply is_role_ok | done].
Qed.

Lemma to_api_string_from_text_witness :
  ChatText.from_text
    (to_api_string [mkFrag "Be brief." None FROZEN; mkFrag "Hi" (Some "user") FROZEN])
    Chat.FREEZE_ALL
  = Ok (Chat.from_api_chat
          (map Chat.entry
             (to_api_messages [mkFrag "Be brief." None FROZEN; mkFrag "Hi" (Some "user") FROZEN]
                false)) Chat.FREEZE_ALL).
Proof.
  apply (to_api_string_from_text
           [mkFrag "Be brief." None FROZEN; mkFrag "Hi" (Some "user") FROZEN] Chat.FREEZE_ALL);
    [reflexivity | done | repeat constructor].
Defined.

End ChatTextFacts.

(** ** holoware.py: a call of a template of plain spans *)

Section PlainTemplates.

Import HandlerSpec PlainSpec.

Variable sample : Rollout -> list string -> option string.
Variable registry : string -> option HoloClass.
Variable self : Holoware.

Lemma Uuid_eqb_refl u : Uuid_eqb u u = true.
Proof. destruct u; cbn; [apply Nat.eqb_refl | apply String.eqb_refl]. Qed.

Lemma dict_set_known (d : list (Uuid * list FragRef)) k v :
  Forall (known self) d -> known self (k, v) -> Forall (known self) (dict_set d k v).
Proof.
  intros Hd Hk. induction Hd as [|[k' v'] d Hx Hd IH]; cbn [dict_set]; [by repeat constructor|].
  destruct (Uuid_eqb k' k); by constructor.
Qed.

Lemma add_frag_steady h0 h ty t span :
  steady self h0 h -> _span h = Some span -> span ∈ self -> steady self h0 (add_frag h ty t).
Proof.
  intros (H1 & H2 & H3 & H4 & H5) Hspan Hin. unfold add_frag.
  destruct (rollout_add_frag _ _ _ _) as [r ref]. cbn [_span set_rollout]. rewrite Hspan.
  repeat split; try done. cbn [span_fragments set_span_fragments set_rollout].
  apply dict_set_known; [done|]. exists span. split; [done|]. apply Uuid_eqb_refl.
Qed.

Lemma optimize_block_steady h0 h i :
  steady self h0 h -> steady self h0 (optimize_block self i h)
  /\ views (optimize_block self i h) = views h
  /\ _ego (optimize_block self i h) = _ego h.
Proof.
  intros Hs. unfold optimize_block. destruct (i <? 2)%Z; [done|].
  destruct (tag_pattern_search _); [|done].
  destruct (head _); [|done]. destruct (last _); [|done].
  split; [exact Hs|]. split; [|done]. unfold views, frags. cbn [_rollout set_rollout].
  by rewrite !concat_map, view_append_newlines, view_prepend_newlines.
Qed.

Lemma views_add_frag h ty t :
  views (add_frag h ty t) = views h ++ [(PyStr.strip t, Some (_ego h), ty)].
Proof.
  unfold views. destruct (frags_add_frag h ty t) as (-> & _ & _). by rewrite map_app.
Qed.

Lemma main_walk_plain spans : forall i h0 h,
  forallb is_plain_span spans = true -> (forall s, s ∈ spans -> s ∈ self) -> steady self h0 h ->
  exists h', main_walk (handle sample registry) self i spans h = Ok h'
             /\ steady self h0 h'
             /\ views h' = views h ++ plain_frags (_ego h) spans
             /\ _ego h' = plain_ego (_ego h) spans.
Proof.
  induction spans as [|span rest IH]; intros i h0 h Hplain Hin Hs.
  - exists h. by rewrite app_nil_r.
  - cbn [forallb] in Hplain. apply andb_true_iff in Hplain as [Hp Hrest].
    assert (span ∈ self) as Hspan by (apply Hin; left).
    assert (forall s, s ∈ rest -> s ∈ self) as Hin' by (intros s ?; apply Hin; by right).
    assert (steady self h0 (set_span h (Some span))) as Hs1 by done.
    cbn [main_walk].
    destruct span as [b t|b e|b f|b t|b ids|b cn body]; try done; cbn [handle mbind result_bind].
    + (* reset *)
      set (h2 := handle_ContextResetSpan _).
      assert (steady self h0 h2) as Hs2 by done.
      destruct (optimize_block_steady h0 h2 (Z.of_nat i - 1) Hs2) as (Hs3 & Hv & He).
      destruct (IH (S i) h0 _ Hrest Hin' Hs3) as (h' & Hw & Hs' & Hv' & He').
      exists h'. rewrite Hw, Hv', He', Hv, He. split; [done|]. split; [done|]. split; [|done].
      cbn [plain_frags]. f_equal. unfold views, frags, h2, handle_ContextResetSpan, new_context,
        rollout_new_context. cbn [_rollout set_rollout set_ego set_span].
      rewrite concat_app. cbn [concat]. by rewrite !app_nil_r.
    + (* ego *)
      set (h2 := handle_EgoSpan _ _).
      assert (steady self h0 h2) as Hs2 by done.
      destruct (optimize_block_steady h0 h2 (Z.of_nat i - 1) Hs2) as (Hs3 & Hv & He).
      destruct (IH (S i) h0 _ Hrest Hin' Hs3) as (h' & Hw & Hs' & Hv' & He').
      exists h'. rewrite Hw, Hv', He', Hv, He. by repeat (split; [done|]).
    + (* text *)
      set (h2 := handle_TextSpan _ _).
      assert (steady self h0 h2) as Hs2 by (by apply (add_frag_steady h0 _ _ _ (TextSpan b t))).
      destruct (optimize_block_steady h0 h2 (Z.of_nat i - 1) Hs2) as (Hs3 & Hv & He).
      destruct (IH (S i) h0 _ Hrest Hin' Hs3) as (h' & Hw & Hs' & Hv' & He').
      exists h'. rewrite Hw, Hv', He', Hv, He. split; [done|]. split; [done|]. split.
      * unfold h2, handle_TextSpan, add_masked. rewrite views_add_frag.
        destruct (frags_add_frag (set_span h (Some (TextSpan b t))) FROZEN t) as (_ & _ & ->).
        cbn [plain_frags _ego set_span]. by rewrite <- app_assoc.
      * unfold h2, handle_TextSpan, add_masked.
        by destruct (frags_add_frag (set_span h (Some (TextSpan b t))) FROZEN t) as (_ & _ & ->).
Qed.

Lemma instantiate_all_plain spans : forall h,
  forallb is_plain_span spans = true -> instantiate_all registry h spans = Ok h.
Proof.
  induction spans as [|s rest IH]; intros h; [done|]. cbn [forallb instantiate_all].
  intros [Hp Hrest]%andb_true_iff. destruct s; try done; cbn [instantiate mbind result_bind];
    by apply IH.
Qed.

Lemma Holoware_eqb_refl_plain spans :
  forallb is_plain_span spans = true -> Holoware_eqb spans spans = true.
Proof.
  induction spans as [|s rest IH]; [done|]. cbn [forallb Holoware_eqb].
  intros [Hp Hrest]%andb_true_iff. rewrite IH, andb_true_r by done.
  destruct s; try done; cbn [Span_eqb];
    rewrite Uuid_eqb_refl, !String.eqb_refl, !bool_decide_eq_true_2 by done;
    by rewrite ?Bool.eqb_reflx.
Qed.

Lemma list_fragments_known h (recs : list (Uuid * list FragRef)) :
  _holowares h = [self] -> Forall (known self) recs -> list_fragments h recs = Ok tt.
Proof.
  intros Hw. induction 1 as [|[uid refs] recs (s & Hs & Hu) _ IH]; [done|].
  cbn [list_fragments]. unfold find_span. rewrite Hw. cbn [concat]. rewrite app_nil_r.
  destruct (find (fun s => Uuid_eqb (span_uuid s) uid) self) as [s'|] eqn:E;
    cbn [mbind result_bind]; [done|].
  cbn [fst] in Hu. rewrite (find_none _ _ E s) in Hu; [done|]. by apply list_elem_of_In.
Qed.

End PlainTemplates.

(** A template of text, ego and reset spans only, called on a holophore
    with an empty stack, no bindings, no recorded fragments and no errors,
    returns: it has appended the texts of its text spans in order, each
    frozen and under the ego that was set before it ("system" after a
    reset), with their texts kept up to whitespace at the two ends; [env]
    is as before, the ego is the last one set, and the stack is empty
    again. *)
Theorem call_of_plain_template
    (sample : Rollout -> list string -> option string)
    (registry : string -> option HoloClass)
    (self : Holoware) (h : Holophore) :
  forallb PlainSpec.is_plain_span self = true ->
  errors h = 0 -> span_bindings h = [] -> span_fragments h = [] -> _holowares h = [] ->
  exists h', call sample registry self h = Ok h'
             /\ PlainSpec.views h' = PlainSpec.views h ++ PlainSpec.plain_frags (_ego h) self
             /\ env h' = env h
             /\ _ego h' = PlainSpec.plain_ego (_ego h) self
             /\ _holowares h' = [].
Proof.
  intros Hplain He Hb Hf Hw. unfold call, call_with. rewrite Hw. cbn [app].
  set (h0 := set_holowares h [self]).
  rewrite (instantiate_all_plain registry self h0 Hplain). cbn [mbind result_bind].
  assert (PlainSpec.steady self h0 h0) as Hs0.
  { repeat split. unfold h0. cbn [span_fragments set_holowares]. rewrite Hf. constructor. }
  destruct (main_walk_plain sample registry self self 0 h0 h0 Hplain ltac:(done) Hs0)
    as (h1 & -> & (H1 & H2 & H3 & H4 & H5) & Hv & Hego).
  cbn [mbind result_bind]. unfold finish.
  assert (errors (set_span h1 None) = 0) as -> by (cbn [errors set_span]; by rewrite H1).
  cbn [Nat.ltb Nat.leb].
  assert (span_bindings (set_span h1 None) = []) as -> by (cbn [span_bindings set_span]; by rewrite H2).
  cbn [end_hooks mbind result_bind].
  rewrite (list_fragments_known self); [|by cbn [_holowares set_span]; rewrite H3|done].
  cbn [mbind result_bind].
  assert (_holowares (set_span h1 None) = [self]) as -> by (cbn [_holowares set_span]; by rewrite H3).
  cbn [list_remove]. rewrite (Holoware_eqb_refl_plain self Hplain). cbn [mbind result_bind].
  eexists. split; [reflexivity|].
  unfold PlainSpec.views, HandlerSpec.frags in *.
  cbn [_rollout env _ego _holowares set_holowares set_span] in *.
  split; [exact Hv|]. split; [exact H4|]. split; [exact Hego|done].
Qed.

Lemma call_of_plain_template_witness :
  exists h', call (mock_sample "mocked_sample") no_registry
               [EgoSpan (named "") "user"; TextSpan (fresh 0) "First context.";
                ContextResetSpan (fresh 1) true; TextSpan (fresh 2) "Second context."]
               (init [] ∅) = Ok h'
             /\ PlainSpec.views h' = [("First context.", Some "user", FROZEN);
                                      ("Second context.", Some "system", FROZEN)]
             /\ _ego h' = "system".
Proof.
  destruct (call_of_plain_template (mock_sample "mocked_sample") no_registry
              [EgoSpan (named "") "user"; TextSpan (fresh 0) "First context.";
               ContextResetSpan (fresh 1) true; TextSpan (fresh 2) "Second context."]
              (init [] ∅)) as (h' & Hcall & Hv & _ & Hego & _); try reflexivity.
  exists h'. split; [exact Hcall|]. split; [exact Hv | exact Hego].
Defined.
